(** * neocy: Neo4j Cypher client -- query builder, transaction protocol, property formatting

    A shallow embedding of [query-builder.js], of the [Transaction] class
    (both the [fetch] based one of [index.js] and the [ServerRequest] based
    one of [transaction.js]) and of [Neo4j.toProps].

    JavaScript strings are sequences of UTF-16 code units; numbers are
    doubles, written as dyadic rationals; objects are kept as association
    lists in property enumeration order; methods that mutate [this] or throw
    run in a small state-and-exception monad. *)

From Stdlib Require Import String Ascii DecimalString ZArith NArith Bool Lia List.
Import ListNotations.

Set Implicit Arguments.
Set Warnings "-register-all,-abstract-large-number".

(* ================================================================== *)
(** ** JavaScript strings *)
(* ================================================================== *)

Module JsString.

(** A string is its list of UTF-16 code units. *)
Definition jsstr := list N.

(** ASCII literals. *)
Definition lit (s : string) : jsstr :=
  map N_of_ascii (list_ascii_of_string s).

Definition TAB : N := 9.
Definition LF : N := 10.
Definition CR : N := 13.
Definition SP : N := 32.
Definition DQUOTE : N := 34.
Definition BACKSLASH : N := 92.

(** [a === b] on strings. *)
Fixpoint jsstr_eqb (a b : jsstr) : bool :=
  match a, b with
  | [], [] => true
  | x :: a', y :: b' => N.eqb x y && jsstr_eqb a' b'
  | _, _ => false
  end.

(** The class [\s] of a regular expression, which is also the set that
    [String.prototype.trim] removes: WhiteSpace and LineTerminator of
    ECMAScript. *)
Definition is_ws (c : N) : bool :=
  (((9 <=? c) && (c <=? 13)) || (c =? 32) || (c =? 160) || (c =? 5760)
  || ((8192 <=? c) && (c <=? 8202)) || (c =? 8232) || (c =? 8233)
  || (c =? 8239) || (c =? 8287) || (c =? 12288) || (c =? 65279))%N.

(** [Array.prototype.join] on an array of strings. *)
Fixpoint join (sep : jsstr) (l : list jsstr) : jsstr :=
  match l with
  | [] => []
  | x :: rest =>
      match rest with
      | [] => x
      | _ :: _ => x ++ sep ++ join sep rest
      end
  end.

(** [String.prototype.replace] with a global regular expression whose
    matches are never empty.  [matcher s] is the length of the match that
    starts at the head of [s], [0] when there is none.  The scan goes left
    to right; where the expression matches, the replacement is emitted and
    the scan resumes behind the match, elsewhere the code unit is copied.
    [skip] counts the code units of the current match still to be passed. *)
Fixpoint replace_from (matcher : jsstr -> nat) (rep : jsstr)
         (skip : nat) (s : jsstr) : jsstr :=
  match s with
  | [] => []
  | c :: s' =>
      match skip with
      | S k => replace_from matcher rep k s'
      | O =>
          match matcher s with
          | O => c :: replace_from matcher rep 0 s'
          | S k => rep ++ replace_from matcher rep k s'
          end
      end
  end.

Definition replace_all (matcher : jsstr -> nat) (rep s : jsstr) : jsstr :=
  replace_from matcher rep 0 s.

(** Length of the longest prefix of whitespace. *)
Fixpoint ws_prefix (s : jsstr) : nat :=
  match s with
  | c :: s' => if is_ws c then S (ws_prefix s') else 0
  | [] => 0
  end.

(** The expression [/\s\s+/]: two or more whitespace code units, greedy. *)
Definition re_ws_run (s : jsstr) : nat :=
  let n := ws_prefix s in
  if Nat.leb 2 n then n else 0.

(** The expression [/(?:\r\n|\r|\n|\t)/], alternatives tried in order. *)
Definition re_breaks (s : jsstr) : nat :=
  match s with
  | c :: s' =>
      if N.eqb c CR then
        match s' with
        | d :: _ => if N.eqb d LF then 2 else 1
        | [] => 1
        end
      else if N.eqb c LF then 1
      else if N.eqb c TAB then 1
      else 0
  | [] => 0
  end.

Fixpoint drop_ws (s : jsstr) : jsstr :=
  match s with
  | c :: s' => if is_ws c then drop_ws s' else s
  | [] => []
  end.

(** [String.prototype.trim]. *)
Definition trim (s : jsstr) : jsstr :=
  rev (drop_ws (rev (drop_ws s))).

End JsString.
Import JsString.

Arguments lit : simpl never.

(* ================================================================== *)
(** ** State and exceptions *)
(* ================================================================== *)

(** What a [throw] carries: an [Error] object (its [name] and [message]),
    or a bare string. *)
Inductive thrown : Type :=
| ErrorObject (name message : jsstr)
| ThrownString (s : jsstr).

(** [new Error(message)]. *)
Definition new_Error (message : jsstr) : thrown :=
  ErrorObject (lit "Error") message.

(** [Error.prototype.toString]. *)
Definition Error_toString (name message : jsstr) : jsstr :=
  match name, message with
  | [], _ => message
  | _, [] => name
  | _, _ => name ++ lit ": " ++ message
  end.

(** [String(e)], the conversion [new Error(e)] applies to its argument. *)
Definition String_of_thrown (e : thrown) : jsstr :=
  match e with
  | ErrorObject n m => Error_toString n m
  | ThrownString s => s
  end.

Inductive completion (A : Type) : Type :=
| Normal (a : A)
| Throw (e : thrown).
Arguments Normal {A} a.
Arguments Throw {A} e.

(** A method body: it reads and writes the state [S]; what it wrote before a
    [throw] stays written. *)
Definition M (S A : Type) : Type := S -> completion A * S.

Definition ret {S A} (a : A) : M S A := fun s => (Normal a, s).

Definition bind {S A B} (m : M S A) (k : A -> M S B) : M S B :=
  fun s =>
    match m s with
    | (Normal a, s') => k a s'
    | (Throw e, s') => (Throw e, s')
    end.

Definition throw {S A} (e : thrown) : M S A := fun s => (Throw e, s).
Definition get {S} : M S S := fun s => (Normal s, s).
Definition put {S} (s : S) : M S unit := fun _ => (Normal tt, s).
Definition modify {S} (f : S -> S) : M S unit := fun s => (Normal tt, f s).

(** [try m catch (e) { h e }]. *)
Definition try_catch {S A} (m : M S A) (h : thrown -> M S A) : M S A :=
  fun s =>
    match m s with
    | (Normal a, s') => (Normal a, s')
    | (Throw e, s') => h e s'
    end.

Declare Scope js_scope.
Delimit Scope js_scope with js.
Notation "x <- m ;; k" := (bind m (fun x => k))
  (at level 61, m at next level, right associativity) : js_scope.
Notation "m ;; k" := (bind m (fun _ => k))
  (at level 61, right associativity) : js_scope.
Open Scope js_scope.

(** [Array.prototype.forEach] with a callback that runs in the monad. *)
Fixpoint forEach {S A} (f : A -> M S unit) (l : list A) : M S unit :=
  match l with
  | [] => ret tt
  | x :: l' => f x ;; forEach f l'
  end.

(* ================================================================== *)
(** ** query-builder.js *)
(* ================================================================== *)

Module QueryBuilder.

(** [this.q]. *)
Record t : Type := mk { q : list jsstr }.

(** [constructor()]. *)
Definition new : t := {| q := [] |}.

(** The argument of [add]: a fragment, or an array of such arguments. *)
Inductive partial : Type :=
| Fragment (s : jsstr)
| Array (elements : list partial).

(** [add(partial)]. *)
Fixpoint add (p : partial) : M t unit :=
  match p with
  | Array elements => forEach add elements
  | Fragment s => modify (fun this => {| q := q this ++ [s] |})
  end.

(** The string [toString] computes from [this.q]. *)
Definition render (fragments : list jsstr) : jsstr :=
  trim (replace_all re_breaks []
          (replace_all re_ws_run [SP] (join [SP] fragments))).

(** [toString()]. *)
Definition toString : M t jsstr :=
  this <- get ;;
  ret (render (q this)).

End QueryBuilder.

(* ================================================================== *)
(** ** JavaScript values and JSON.stringify *)
(* ================================================================== *)

(** A number is an IEEE 754 double: [NaN], an infinity, the negative zero,
    or the dyadic rational [z / 2^d].  The integer [n] is [Finite n 0], the
    half is [Finite 1 1], and [0.1] is [Finite 3602879701896397 55].  The
    doubles are the values [Number.is_double] accepts; any other dyadic
    rational is printed as the double nearest to it, the way a literal is
    read. *)
Inductive number : Type :=
| NaN
| Infinity (negative : bool)
| NegZero
| Finite (z : Z) (d : N).

(** An integer literal, read as a number. *)
Definition Number_of_Z (n : Z) : number := Finite n 0.
Coercion Number_of_Z : Z >-> number.

Module Number.

Local Open Scope Z_scope.

(** The double nearest to the positive [p / 2^d], ties going to the even
    mantissa: the mantissa [m < 2^53] and the exponent [e >= -1074] of
    [m * 2^e].  The mantissa is [0] when the value rounds to zero, and the
    exponent is above [971] when it is beyond the largest double.  A double
    is its own nearest double. *)
Definition nearest (p : positive) (d : N) : Z * Z :=
  let e := Z.max (Z.log2 (Zpos p) - Z.of_N d - 52) (-1074) in
  let sh := - Z.of_N d - e in
  let m :=
    if 0 <=? sh then Z.shiftl (Zpos p) sh
    else
      let q := Z.shiftr (Zpos p) (- sh) in
      let r := Zpos p - Z.shiftl q (- sh) in
      let half := Z.shiftl 1 (- sh - 1) in
      if (half <? r) || ((half =? r) && Z.odd q) then q + 1 else q in
  if m =? 2 ^ 53 then (2 ^ 52, e + 1) else (m, e).

(** Is the value one that a double holds exactly? *)
Definition is_double (x : number) : bool :=
  match x with
  | Finite (Zpos p) d | Finite (Zneg p) d =>
      let '(m, e) := nearest p d in
      (e <=? 971)
      && (Z.shiftl m (e + Z.of_N d + 1074)
          =? Z.shiftl (Zpos p) 1074)
      && (Z.odd (Zpos p) || (d =? 0)%N)
  | Finite Z0 d => (d =? 0)%N
  | _ => true
  end.

(** [x === y] on numbers. *)
Definition eqb (x y : number) : bool :=
  match x, y with
  | NaN, _ | _, NaN => false
  | Infinity a, Infinity b => Bool.eqb a b
  | Infinity _, _ | _, Infinity _ => false
  | NegZero, NegZero => true
  | NegZero, Finite z _ | Finite z _, NegZero => z =? 0
  | Finite z d, Finite z' d' =>
      Z.shiftl z (Z.of_N d') =? Z.shiftl z' (Z.of_N d)
  end.

(** The number of decimal digits of the integer [x >= 1]. *)
Fixpoint integer_digits (fuel : nat) (x : Z) : Z :=
  match fuel with
  | O => 1
  | S fuel' => if x <? 10 then 1 else 1 + integer_digits fuel' (x / 10)
  end.

(** Minus the number of zeros between the point and the first digit of
    [v / den < 1]. *)
Fixpoint fraction_zeros (fuel : nat) (v den : Z) : Z :=
  match fuel with
  | O => 0
  | S fuel' =>
      if den <=? 10 * v then 0 else fraction_zeros fuel' (10 * v) den - 1
  end.

(** The [n] with [10^(n-1) <= v / den < 10^n]. *)
Definition decimal_exponent (v den : Z) : Z :=
  if den <=? v then integer_digits (Z.to_nat (Z.log2 v)) (v / den)
  else fraction_zeros (Z.to_nat (Z.log2 den)) v den.

(** The search for the digits, from [k] digits on.  With [k] digits the
    candidates are the two multiples of [10^(n-k)] around [v / den]; one is
    taken when it lies between [lo / den] and [hi / den], the bounds
    themselves counting when [closed]; of two that do, the nearer is taken,
    and the even one when they are as near.  Seventeen digits always do. *)
Fixpoint generate (fuel : nat) (v lo hi den : Z) (closed : bool) (n k : Z)
  : Z * Z :=
  let P := if 0 <=? n - k then 10 ^ (n - k) else 1 in
  let Q := if 0 <=? n - k then 1 else 10 ^ (k - n) in
  let s := (v * Q) / (den * P) in
  let below := s * (den * P) in
  let above := (s + 1) * (den * P) in
  let lo_ok := if closed then lo * Q <=? below else lo * Q <? below in
  let hi_ok := if closed then above <=? hi * Q else above <? hi * Q in
  let nearer_below :=
    (v * Q - below <? above - v * Q)
    || ((v * Q - below =? above - v * Q) && Z.even s) in
  let up := if s + 1 =? 10 ^ k then (1, n + 1) else (s + 1, n) in
  match fuel with
  | O => if nearer_below then (s, n) else up
  | S fuel' =>
      if lo_ok && (negb hi_ok || nearer_below) then (s, n)
      else if hi_ok then up
      else generate fuel' v lo hi den closed n (k + 1)
  end.

(** The integers [s] and [n] of Number::toString for the double [m * 2^e]:
    [s] has as few digits [k] as a decimal [s * 10^(n-k)] that still reads
    back as this double can have.  The decimals that read back as it are
    those between the midpoints to its two neighbours, the midpoints
    included when [m] is even; the lower neighbour is half as far when [m]
    is the least mantissa of its exponent. *)
Definition shortest (m e : Z) : Z * Z :=
  let f := if 2 <=? e then 2 ^ (e - 2) else 1 in
  let den := if 2 <=? e then 1 else 2 ^ (2 - e) in
  let v := 4 * m * f in
  let lo :=
    (if (m =? 2 ^ 52) && (-1074 <? e) then 4 * m - 1 else 4 * m - 2) * f in
  let hi := (4 * m + 2) * f in
  generate 16 v lo hi den (Z.even m) (decimal_exponent v den) 1.

(** The decimal digits of an integer. *)
Definition decimal (n : Z) : jsstr := lit (NilZero.string_of_int (Z.to_int n)).

(** The text Number::toString makes of [s] and [n]: plain digits up to
    [10^21], a decimal point inside or up to six zeros in front of the
    digits, and the exponent form otherwise. *)
Definition format (s n : Z) : jsstr :=
  let digits := decimal s in
  let k := Z.of_nat (length digits) in
  if (k <=? n) && (n <=? 21) then
    digits ++ repeat 48%N (Z.to_nat (n - k))
  else if (0 <? n) && (n <=? 21) then
    firstn (Z.to_nat n) digits ++ lit "." ++ skipn (Z.to_nat n) digits
  else if (-6 <? n) && (n <=? 0) then
    lit "0." ++ repeat 48%N (Z.to_nat (- n)) ++ digits
  else
    (if k =? 1 then digits
     else firstn 1 digits ++ lit "." ++ skipn 1 digits)
    ++ lit "e" ++ (if n - 1 <? 0 then lit "-" else lit "+")
    ++ decimal (Z.abs (n - 1)).

Definition positive_toString (sign : jsstr) (p : positive) (d : N) : jsstr :=
  let '(m, e) := nearest p d in
  if m =? 0 then lit "0"
  else if 971 <? e then sign ++ lit "Infinity"
  else let '(s, n) := shortest m e in sign ++ format s n.

(** Is the number neither [NaN] nor an infinity? *)
Definition isFinite (x : number) : bool :=
  match x with
  | NaN | Infinity _ => false
  | NegZero | Finite Z0 _ => true
  | Finite (Zpos p) d | Finite (Zneg p) d => snd (nearest p d) <=? 971
  end.

End Number.

(** Number::toString with radix 10, the conversion of a number to a
    string. *)
Definition Number_toString (x : number) : jsstr :=
  match x with
  | NaN => lit "NaN"
  | Infinity false => lit "Infinity"
  | Infinity true => lit "-Infinity"
  | NegZero => lit "0"
  | Finite Z0 _ => lit "0"
  | Finite (Zpos p) d => Number.positive_toString [] p d
  | Finite (Zneg p) d => Number.positive_toString (lit "-") p d
  end.

Arguments Number_toString : simpl never.

(** The values a property or a bind parameter can hold. *)
Inductive value : Type :=
| VUndefined
| VNull
| VBoolean (b : bool)
| VNumber (n : number)
| VString (s : jsstr)
| VArray (elements : list value)
| VObject (props : list (jsstr * value)).

Arguments VNumber n%_Z.

(** The [typeof] operator. *)
Definition typeof (v : value) : jsstr :=
  match v with
  | VUndefined => lit "undefined"
  | VNull => lit "object"
  | VBoolean _ => lit "boolean"
  | VNumber _ => lit "number"
  | VString _ => lit "string"
  | VArray _ => lit "object"
  | VObject _ => lit "object"
  end.

(** [Object.keys(obj)]. *)
Definition Object_keys (obj : list (jsstr * value)) : list jsstr :=
  map fst obj.

(** [obj[k]]. *)
Fixpoint get_property (obj : list (jsstr * value)) (k : jsstr) : value :=
  match obj with
  | [] => VUndefined
  | (k', v) :: rest => if jsstr_eqb k' k then v else get_property rest k
  end.

Definition Boolean_toString (b : bool) : jsstr :=
  if b then lit "true" else lit "false".

(** The conversion to string that a template literal applies. *)
Fixpoint ToString (v : value) : jsstr :=
  match v with
  | VUndefined => lit "undefined"
  | VNull => lit "null"
  | VBoolean b => Boolean_toString b
  | VNumber n => Number_toString n
  | VString s => s
  | VArray elements =>
      join (lit ",")
        (map (fun e => match e with
                       | VUndefined | VNull => []
                       | _ => ToString e
                       end) elements)
  | VObject _ => lit "[object Object]"
  end.

Module JSON.

Definition hex_digit (n : N) : N :=
  (if n <? 10 then 48 + n else 87 + n)%N.

(** The escape of a code unit by its four hexadecimal digits. *)
Definition unicode_escape (c : N) : jsstr :=
  (BACKSLASH :: lit "u"
     ++ [hex_digit (c / 4096); hex_digit ((c / 256) mod 16);
         hex_digit ((c / 16) mod 16); hex_digit (c mod 16)])%N.

(** How a code unit that is no surrogate appears inside a JSON string. *)
Definition escape (c : N) : jsstr :=
  (if c =? DQUOTE then [BACKSLASH; DQUOTE]
   else if c =? BACKSLASH then [BACKSLASH; BACKSLASH]
   else if c =? 8 then BACKSLASH :: lit "b"
   else if c =? 12 then BACKSLASH :: lit "f"
   else if c =? LF then BACKSLASH :: lit "n"
   else if c =? CR then BACKSLASH :: lit "r"
   else if c =? TAB then BACKSLASH :: lit "t"
   else if c <? 32 then unicode_escape c
   else [c])%N.

(** The two halves of a surrogate pair. *)
Definition is_leading_surrogate (c : N) : bool :=
  ((55296 <=? c) && (c <=? 56319))%N.

Definition is_trailing_surrogate (c : N) : bool :=
  ((56320 <=? c) && (c <=? 57343))%N.

(** The code units between the quotes: a surrogate pair is copied, a
    surrogate without its other half is escaped. *)
Fixpoint quote_units (s : jsstr) : jsstr :=
  match s with
  | [] => []
  | c :: s' =>
      if is_leading_surrogate c then
        match s' with
        | d :: s'' =>
            if is_trailing_surrogate d then c :: d :: quote_units s''
            else unicode_escape c ++ quote_units s'
        | [] => unicode_escape c
        end
      else if is_trailing_surrogate c then unicode_escape c ++ quote_units s'
      else escape c ++ quote_units s'
  end.

(** QuoteJSONString. *)
Definition quote (s : jsstr) : jsstr :=
  DQUOTE :: quote_units s ++ [DQUOTE].

(** [JSON.stringify(v)]; [None] stands for the result [undefined].  A
    member whose value is [undefined] is left out of an object, and
    becomes [null] inside an array. *)
Fixpoint stringify (v : value) : option jsstr :=
  match v with
  | VUndefined => None
  | VNull => Some (lit "null")
  | VBoolean b => Some (Boolean_toString b)
  | VNumber n =>
      Some (if Number.isFinite n then Number_toString n else lit "null")
  | VString s => Some (quote s)
  | VArray elements =>
      Some (lit "[" ++
            join (lit ",")
              (map (fun e => match stringify e with
                             | Some x => x
                             | None => lit "null"
                             end) elements) ++
            lit "]")
  | VObject props =>
      Some (lit "{" ++
            join (lit ",")
              (flat_map (fun kv => match stringify (snd kv) with
                                   | Some x => [quote (fst kv) ++ lit ":" ++ x]
                                   | None => []
                                   end) props) ++
            lit "}")
  end.

End JSON.

(* ================================================================== *)
(** ** Neo4j.toProps (index.js) *)
(* ================================================================== *)

Module Neo4j.

(** The callback of [objKeys.forEach]; the state is the local array [ret]. *)
Definition toProps_each (obj : list (jsstr * value)) (k : jsstr)
  : M (list jsstr) unit :=
  if jsstr_eqb (typeof (get_property obj k)) (lit "string") then
    modify (fun ret =>
      ret ++ [k ++ lit ":" ++ [DQUOTE] ++ ToString (get_property obj k)
                ++ [DQUOTE]])
  else if jsstr_eqb (typeof (get_property obj k)) (lit "number") then
    modify (fun ret => ret ++ [k ++ lit ":" ++ ToString (get_property obj k)])
  else if jsstr_eqb (typeof (get_property obj k)) (lit "boolean") then
    modify (fun ret => ret ++ [k ++ lit ":" ++ ToString (get_property obj k)])
  else if jsstr_eqb (typeof (get_property obj k)) (lit "array") then
    modify (fun ret => ret ++ [k ++ lit ":[]"])
  else
    throw (new_Error (lit "property type not supported")).

(** [toProps(obj)]. *)
Definition toProps (obj : list (jsstr * value)) : completion jsstr :=
  match forEach (toProps_each obj) (Object_keys obj) [] with
  | (Normal _, ret) => Normal (join (lit ", ") ret)
  | (Throw e, _) => Throw e
  end.

End Neo4j.

(* ================================================================== *)
(** ** What the two Transaction classes share *)
(* ================================================================== *)

(** An entry of [this.statements]. *)
Record Statement : Type := { statement : jsstr; parameters : value }.

(** The object [{statement, parameters}] as [JSON.stringify] sees it. *)
Definition Statement_value (s : Statement) : value :=
  VObject [(lit "statement", VString (statement s));
           (lit "parameters", parameters s)].

(** The body of the first request: [JSON.stringify({statements})]. *)
Definition statements_body (l : list Statement) : option jsstr :=
  JSON.stringify (VObject [(lit "statements", VArray (map Statement_value l))]).

(** An entry of the [errors] array of the server's answer. *)
Record error_entry : Type := { code : jsstr; message : jsstr }.

(** The parsed body of the server's answer to the first request. *)
Record payload : Type :=
  { results : value; errors : list error_entry; commit : jsstr }.

(** How the promise returned by [execute] is settled. *)
Inductive outcome : Type :=
| Resolved (v : value)
| Rejected (e : thrown).

(** A promise is represented by its eventual settlement; [await] hands the
    value on, or throws the rejection. *)
Definition await {S A} (p : completion A) : M S A := fun s => (p, s).

(** The completion of a call of a method of another object, taken over by
    the caller. *)
Definition returned {S A} (c : completion A) : M S A := fun s => (c, s).

(** The headers both classes send with every request. *)
Definition request_headers (auth : jsstr) : list (jsstr * jsstr) :=
  [(lit "content-type", lit "application/json");
   (lit "Accept", lit "application/json; charset=UTF-8");
   (lit "Authorization", lit "Basic " ++ auth)].

(* ================================================================== *)
(** ** class Transaction of index.js (transport: fetch) *)
(* ================================================================== *)

Module Index.

Definition HTTP_OK : Z := 200.
Definition HTTP_CREATED : Z := 201.

Record Transaction : Type :=
  { used : bool;
    auth : jsstr;
    transactionUrl : jsstr;
    statements : list Statement }.

(** [constructor(transactionUrl, auth)]. *)
Definition new (transactionUrl auth : jsstr) : Transaction :=
  {| used := false;
     auth := auth;
     transactionUrl := transactionUrl;
     statements := [] |}.

(** [addQuery(queryBuilder, params)]; the state is [this]. *)
Definition addQuery (queryBuilder : QueryBuilder.t) (params : value)
  : M Transaction unit :=
  this <- get ;;
  if used this then
    throw (new_Error (lit "Can't reuse transaction"))
  else
    text <- returned (fst (QueryBuilder.toString queryBuilder)) ;;
    put {| used := used this;
           auth := auth this;
           transactionUrl := transactionUrl this;
           statements := statements this
                         ++ [{| statement := text; parameters := params |}] |}.

(** A call [fetch(url, {headers, method, body})]. *)
Record request : Type :=
  { url : jsstr;
    headers : list (jsstr * jsstr);
    method : jsstr;
    body : option jsstr }.

(** What [fetch] resolves to; [json] is the promise [res.json()] returns. *)
Record response : Type :=
  { status : Z;
    statusText : jsstr;
    json : completion payload }.

(** What an activation of [execute] does that can be seen from outside,
    in the order it does it. *)
Inductive event : Type :=
| Request (r : request)
| UsedSet (b : bool).

(** The value [this.used] has when each request of a trace is issued,
    [u] being its value when the trace starts. *)
Fixpoint used_at_requests (u : bool) (tr : list event) : list bool :=
  match tr with
  | [] => []
  | Request _ :: tr' => u :: used_at_requests u tr'
  | UsedSet b :: tr' => used_at_requests b tr'
  end.

(** The requests of a trace, in the order they were issued. *)
Fixpoint requests (tr : list event) : list request :=
  match tr with
  | [] => []
  | Request r :: tr' => r :: requests tr'
  | UsedSet _ :: tr' => requests tr'
  end.

(** An activation of [execute]: [this], the locals [headers], [options]
    and [result] its closures share, and the events so far. *)
Record frame : Type :=
  { this : Transaction;
    local_headers : list (jsstr * jsstr);
    options : request;
    result : value;
    trace : list event }.

Definition emit (e : event) : M frame unit :=
  modify (fun f =>
    {| this := this f; local_headers := local_headers f;
       options := options f; result := result f;
       trace := trace f ++ [e] |}).

(** [this.used = b]. *)
Definition set_used (b : bool) : M frame unit :=
  modify (fun f =>
    {| this := {| used := b; auth := auth (this f);
                  transactionUrl := transactionUrl (this f);
                  statements := statements (this f) |};
       local_headers := local_headers f;
       options := options f; result := result f;
       trace := trace f |}) ;;
  emit (UsedSet b).

(** [result = v]. *)
Definition set_result (v : value) : M frame unit :=
  modify (fun f =>
    {| this := this f; local_headers := local_headers f;
       options := options f; result := v; trace := trace f |}).

(** The declarations [let headers], [let options], [let result = {}] that
    open the executor. *)
Definition enter (this0 : Transaction) : frame :=
  let headers := request_headers (auth this0) in
  {| this := this0;
     local_headers := headers;
     options := {| url := transactionUrl this0;
                   headers := headers;
                   method := lit "post";
                   body := statements_body (statements this0) |};
     result := VObject [];
     trace := [] |}.

(** A method of [this] called while the activation exists. *)
Definition on_this {A} (m : M Transaction A) : M frame A :=
  fun f =>
    let '(c, t) := m (this f) in
    (c, {| this := t; local_headers := local_headers f;
           options := options f; result := result f; trace := trace f |}).

Section Transport.

(** The transport: the settlement of the promise [fetch] returns. *)
Variable fetch : request -> completion response.

Definition call_fetch (r : request) : M frame (completion response) :=
  emit (Request r) ;; ret (fetch r).

(** The rest of the executor, which runs inside the call of [execute]:
    the first [fetch], then [this.used = true]. *)
Definition executor : M frame (completion response) :=
  f <- get ;;
  p <- call_fetch (options f) ;;
  set_used true ;;
  ret p.

(** First [then]: the status of the answer. *)
Definition on_response (res : response) : M frame payload :=
  if negb (status res =? HTTP_OK)%Z && negb (status res =? HTTP_CREATED)%Z
  then
    f <- get ;;
    call_fetch {| url := transactionUrl (this f);
                  headers := local_headers f;
                  method := lit "delete";
                  body := None |} ;;
    throw (new_Error (statusText res))
  else
    await (json res).

(** Second [then]: statement errors, or the commit request. *)
Definition on_json (js : payload) : M frame response :=
  match errors js with
  | e :: _ => throw (ThrownString (message e))
  | [] =>
      set_result (results js) ;;
      f <- get ;;
      p <- call_fetch {| url := commit js;
                         headers := local_headers f;
                         method := lit "post";
                         body := None |} ;;
      await p
  end.

(** Third [then]: the status of the commit. *)
Definition on_commit (res : response) : M frame outcome :=
  if (status res =? HTTP_OK)%Z then
    f <- get ;;
    ret (Resolved (result f))
  else
    throw (new_Error (lit "commit failed")).

(** [catch]. *)
Definition on_error (err : thrown) : M frame outcome :=
  ret (Rejected (new_Error (String_of_thrown err))).

(** The promise chain, run when the first answer is there. *)
Definition settle (p : completion response) : M frame outcome :=
  try_catch
    (res <- await p ;;
     js <- on_response res ;;
     res' <- on_json js ;;
     on_commit res')
    on_error.

(** [execute()]: the settlement of the promise it returns, and the frame
    at that time. *)
Definition execute (this0 : Transaction) : completion outcome * frame :=
  (p <- executor ;; settle p) (enter this0).

End Transport.

End Index.

(* ================================================================== *)
(** ** transaction.js (transport: ServerRequest) *)
(* ================================================================== *)

Module TransactionJs.

(** Modelled from the spec: [ServerRequest.HTTP_OK] and
    [ServerRequest.HTTP_CREATED] are constants of [server-request.js],
    which is not among the sources; the spec gives them as 200 (OK) and
    201 (Created), the values [index.js] declares too. *)
Definition HTTP_OK : Z := 200.
Definition HTTP_CREATED : Z := 201.

Definition TransactionPath : jsstr := lit "/db/data/transaction".

Record Transaction : Type :=
  { used : bool;
    auth : jsstr;
    host : jsstr;
    port : Z;
    statements : list Statement }.

(** [constructor(host, port, auth)]. *)
Definition new (host : jsstr) (port : Z) (auth : jsstr) : Transaction :=
  {| used := false; auth := auth; host := host; port := port;
     statements := [] |}.

(** [addQuery(queryBuilder, params)]; the state is [this]. *)
Definition addQuery (queryBuilder : QueryBuilder.t) (params : value)
  : M Transaction unit :=
  this <- get ;;
  if used this then
    throw (new_Error (lit "Can't reuse transaction"))
  else
    text <- returned (fst (QueryBuilder.toString queryBuilder)) ;;
    put {| used := used this; auth := auth this;
           host := host this; port := port this;
           statements := statements this
                         ++ [{| statement := text; parameters := params |}] |}.

(** The object [options], which is what [serverRequest.send] is given. *)
Record request : Type :=
  { headers : list (jsstr * jsstr);
    req_host : jsstr;
    req_port : Z;
    path : jsstr;
    method : jsstr;
    body : option jsstr }.

(** What [send] resolves to; [payLoad] is what
    [JSON.parse(res.payLoad.toString('utf8'))] returns or throws. *)
Record response : Type :=
  { statusCode : Z;
    payLoad : completion payload }.

Inductive event : Type :=
| Request (r : request)
| UsedSet (b : bool).

(** The value [this.used] has when each request of a trace is issued,
    [u] being its value when the trace starts. *)
Fixpoint used_at_requests (u : bool) (tr : list event) : list bool :=
  match tr with
  | [] => []
  | Request _ :: tr' => u :: used_at_requests u tr'
  | UsedSet b :: tr' => used_at_requests b tr'
  end.

(** The requests of a trace, in the order they were issued. *)
Fixpoint requests (tr : list event) : list request :=
  match tr with
  | [] => []
  | Request r :: tr' => r :: requests tr'
  | UsedSet _ :: tr' => requests tr'
  end.

(** An activation of [execute]: [this], the locals [options] and [result]
    its closures share, and the events so far. *)
Record frame : Type :=
  { this : Transaction;
    options : request;
    result : value;
    trace : list event }.

Definition emit (e : event) : M frame unit :=
  modify (fun f =>
    {| this := this f; options := options f; result := result f;
       trace := trace f ++ [e] |}).

(** [this.used = b]. *)
Definition set_used (b : bool) : M frame unit :=
  modify (fun f =>
    {| this := {| used := b; auth := auth (this f);
                  host := host (this f); port := port (this f);
                  statements := statements (this f) |};
       options := options f; result := result f; trace := trace f |}) ;;
  emit (UsedSet b).

(** [result = v]. *)
Definition set_result (v : value) : M frame unit :=
  modify (fun f =>
    {| this := this f; options := options f; result := v;
       trace := trace f |}).

(** [Object.assign(options, patch)]: [options] itself is changed, and
    returned. *)
Definition Object_assign_options (patch : request -> request)
  : M frame request :=
  modify (fun f =>
    {| this := this f; options := patch (options f); result := result f;
       trace := trace f |}) ;;
  f <- get ;;
  ret (options f).

(** The declarations [let headers], [let options], [let result = {}] that
    open the executor. *)
Definition enter (this0 : Transaction) : frame :=
  {| this := this0;
     options := {| headers := request_headers (auth this0);
                   req_host := host this0;
                   req_port := port this0;
                   path := TransactionPath;
                   method := lit "post";
                   body := statements_body (statements this0) |};
     result := VObject [];
     trace := [] |}.

(** A method of [this] called while the activation exists. *)
Definition on_this {A} (m : M Transaction A) : M frame A :=
  fun f =>
    let '(c, t) := m (this f) in
    (c, {| this := t; options := options f; result := result f;
           trace := trace f |}).

Section Transport.

(** The transport: the settlement of the promise
    [new ServerRequest().send(options)] returns. *)
Variable send : request -> completion response.

Definition call_send (r : request) : M frame (completion response) :=
  emit (Request r) ;; ret (send r).

(** The rest of the executor, which runs inside the call of [execute]:
    the first [send], then [this.used = true]. *)
Definition executor : M frame (completion response) :=
  f <- get ;;
  p <- call_send (options f) ;;
  set_used true ;;
  ret p.

(** First [then]: the status of the answer. *)
Definition on_response (res : response) : M frame payload :=
  if negb (statusCode res =? HTTP_OK)%Z
     && negb (statusCode res =? HTTP_CREATED)%Z
  then
    o <- Object_assign_options (fun o =>
           {| headers := headers o; req_host := req_host o;
              req_port := req_port o; path := path o;
              method := lit "delete"; body := body o |}) ;;
    call_send o ;;
    throw (new_Error (lit "Query failed to return OK or CREATED"))
  else
    await (payLoad res).

(** Second [then]: statement errors, or the commit request. *)
Definition on_json (js : payload) : M frame response :=
  match errors js with
  | e :: _ => throw (ThrownString (message e))
  | [] =>
      set_result (results js) ;;
      o <- Object_assign_options (fun o =>
             {| headers := headers o; req_host := req_host o;
                req_port := req_port o; path := commit js;
                method := lit "post"; body := Some [] |}) ;;
      p <- call_send o ;;
      await p
  end.

(** Third [then]: the status of the commit. *)
Definition on_commit (res : response) : M frame outcome :=
  if (statusCode res =? HTTP_OK)%Z then
    f <- get ;;
    ret (Resolved (result f))
  else
    throw (new_Error (lit "Transaction commit failed")).

(** [catch]. *)
Definition on_error (err : thrown) : M frame outcome :=
  ret (Rejected (new_Error (String_of_thrown err))).

(** The promise chain, run when the first answer is there. *)
Definition settle (p : completion response) : M frame outcome :=
  try_catch
    (res <- await p ;;
     js <- on_response res ;;
     res' <- on_json js ;;
     on_commit res')
    on_error.

(** [execute()]: the settlement of the promise it returns, and the frame
    at that time. *)
Definition execute (this0 : Transaction) : completion outcome * frame :=
  (p <- executor ;; settle p) (enter this0).

End Transport.

End TransactionJs.

(* ================================================================== *)
(** ** Reading properties of a value *)
(* ================================================================== *)

(** The conversion to boolean that [if], [!] and [&&] apply. *)
Definition truthy (v : value) : bool :=
  match v with
  | VUndefined | VNull => false
  | VBoolean b => b
  | VNumber NaN | VNumber NegZero | VNumber (Finite Z0 _) => false
  | VNumber _ => true
  | VString s => match s with [] => false | _ :: _ => true end
  | VArray _ | VObject _ => true
  end.

Definition TypeError (message : jsstr) : thrown :=
  ErrorObject (lit "TypeError") message.

(** What reading property [k] of [undefined] or [null] throws. *)
Definition cannot_read (k : jsstr) (v : value) : thrown :=
  TypeError (lit "Cannot read property '" ++ k ++ lit "' of " ++ ToString v).

(** [v.k] for a name [k] that no built-in prototype defines ([data],
    [columns], [row]). *)
Definition get_named (v : value) (k : jsstr) : completion value :=
  match v with
  | VUndefined | VNull => Throw (cannot_read k v)
  | VObject props => Normal (get_property props k)
  | _ => Normal VUndefined
  end.

(** [v.length]. *)
Definition get_length (v : value) : completion value :=
  match v with
  | VUndefined | VNull => Throw (cannot_read (lit "length") v)
  | VString s => Normal (VNumber (Z.of_nat (length s)))
  | VArray elements => Normal (VNumber (Z.of_nat (length elements)))
  | VObject props => Normal (get_property props (lit "length"))
  | _ => Normal VUndefined
  end.

(** [v[i]] for an index [i]. *)
Definition get_index (v : value) (i : nat) : completion value :=
  match v with
  | VUndefined | VNull => Throw (cannot_read (Number_toString (Z.of_nat i)) v)
  | VString s =>
      Normal (match nth_error s i with
              | Some c => VString [c]
              | None => VUndefined
              end)
  | VArray elements => Normal (nth i elements VUndefined)
  | VObject props => Normal (get_property props (Number_toString (Z.of_nat i)))
  | _ => Normal VUndefined
  end.

(** [v === n] for a number [n]. *)
Definition strict_eq_number (v : value) (n : Z) : bool :=
  match v with
  | VNumber m => Number.eqb m n
  | _ => false
  end.

(** Sequencing of expressions that may throw. *)
Definition and_then {A B} (c : completion A) (k : A -> completion B)
  : completion B :=
  match c with
  | Normal a => k a
  | Throw e => Throw e
  end.

Notation "'let!' x ':=' c 'in' k" := (and_then c (fun x => k))
  (at level 10, x name, c at level 100, k at level 200) : js_scope.

(** The callback applied to each element in turn, up to the first throw. *)
Fixpoint map_completion {A B} (f : A -> completion B) (l : list A)
  : completion (list B) :=
  match l with
  | [] => Normal []
  | x :: l' =>
      let! y := f x in
      let! ys := map_completion f l' in
      Normal (y :: ys)
  end.

(** [v.map(f)]: [Array.prototype.map] on an array; no other value of the
    model has a callable [map]. *)
Definition Array_map (what : jsstr) (f : value -> completion value)
           (v : value) : completion value :=
  match v with
  | VUndefined | VNull => Throw (cannot_read (lit "map") v)
  | VArray elements =>
      let! l := map_completion f elements in Normal (VArray l)
  | _ => Throw (TypeError (what ++ lit ".map is not a function"))
  end.

(* ================================================================== *)
(** ** class Neo4j of index.js, but for toProps *)
(* ================================================================== *)

Module Neo4jClass.

Record Neo4j : Type :=
  { graphDatabaseUrl : jsstr;
    auth : jsstr }.

(** [constructor()]. *)
Definition new : Neo4j := {| graphDatabaseUrl := []; auth := [] |}.

(** A string as a condition: the empty string is falsy. *)
Definition nonempty (s : jsstr) : bool :=
  match s with [] => false | _ :: _ => true end.

Section Buffer.

(** [new Buffer(s).toString('base64')], a built-in of the platform. *)
Variable base64 : jsstr -> jsstr.

(** [init(graphDBUrl, userName, password)]; the state is [this]. *)
Definition init (graphDBUrl userName password : jsstr) : M Neo4j unit :=
  modify (fun this => {| graphDatabaseUrl := graphDBUrl; auth := auth this |}) ;;
  modify (fun this => {| graphDatabaseUrl := graphDatabaseUrl this;
                         auth := [] |}) ;;
  if nonempty userName && nonempty password then
    modify (fun this =>
      {| graphDatabaseUrl := graphDatabaseUrl this;
         auth := base64 (userName ++ lit ":" ++ password) |})
  else ret tt.

End Buffer.

(** [createTransaction()]. *)
Definition createTransaction (this : Neo4j) : Index.Transaction :=
  Index.new (graphDatabaseUrl this ++ lit "/db/data/transaction") (auth this).

(** [createQueryBuilder()]. *)
Definition createQueryBuilder (this : Neo4j) : QueryBuilder.t :=
  QueryBuilder.new.

(** The test both helpers make before they look at the rows:
    [!result || !result.data || result.data.length === 0]. *)
Definition no_data (result : value) : completion bool :=
  if negb (truthy result) then Normal true
  else
    let! data := get_named result (lit "data") in
    if negb (truthy data) then Normal true
    else
      let! data := get_named result (lit "data") in
      let! n := get_length data in
      Normal (strict_eq_number n 0).

(** [getSimpleData(result)]. *)
Definition getSimpleData (result : value) : completion value :=
  let ret := VNull in
  let! result := (if truthy result then get_index result 0
                  else Normal result) in
  let! stop := no_data result in
  if stop then Normal ret
  else
    let! columns := get_named result (lit "columns") in
    let! n := get_length columns in
    if strict_eq_number n 1 then
      let! data := get_named result (lit "data") in
      let! first := get_index data 0 in
      if jsstr_eqb (typeof first) (lit "object") then
        let! data := get_named result (lit "data") in
        let! first := get_index data 0 in
        let! row := get_named first (lit "row") in
        get_index row 0
      else
        let! data := get_named result (lit "data") in
        let! first := get_index data 0 in
        get_index first 0
    else Normal ret.

(** [getSimpleListData(result)]. *)
Definition getSimpleListData (result : value) : completion value :=
  let ret := VNull in
  let! result := (if truthy result then get_index result 0
                  else Normal result) in
  let! stop := no_data result in
  if stop then Normal ret
  else
    let! data := get_named result (lit "data") in
    Array_map (lit "result.data")
      (fun row => let! r := get_named row (lit "row") in get_index r 0)
      data.

(** [toNamedProps(name, obj)]; the callback's state is the local [ret]. *)
Definition toNamedProps (name : jsstr) (obj : list (jsstr * value)) : jsstr :=
  let '(_, ret) :=
    forEach (fun k =>
               modify (fun ret =>
                 ret ++ [k ++ lit ":{" ++ name ++ lit "}." ++ k]))
      (Object_keys obj) [] in
  join (lit ", ") ret.

(** [toSets(v, objName, obj)]. *)
Definition toSets (v objName : jsstr) (obj : list (jsstr * value)) : jsstr :=
  let '(_, ret) :=
    (modify (fun ret => ret ++ [[LF]]) ;;
     forEach (fun k =>
                modify (fun ret =>
                  ret ++ [lit "  SET " ++ v ++ lit "." ++ k ++ lit " = {"
                            ++ objName ++ lit "}." ++ k]))
       (Object_keys obj)) [] in
  join [LF] ret.

End Neo4jClass.

(* ================================================================== *)
(** ** transaction.js, the version that sends to a URL *)
(* ================================================================== *)

Module Transaction001.

Definition ReferenceError (message : jsstr) : thrown :=
  ErrorObject (lit "ReferenceError") message.

(** The file reads [HTTP_OK] and [HTTP_CREATED] but neither declares nor
    imports them (it requires [ServerRequest] only): reading either
    throws. *)
Definition HTTP_OK : completion Z :=
  Throw (ReferenceError (lit "HTTP_OK is not defined")).
Definition HTTP_CREATED : completion Z :=
  Throw (ReferenceError (lit "HTTP_CREATED is not defined")).

Record Transaction : Type :=
  { used : bool;
    auth : jsstr;
    transactionUrl : jsstr;
    statements : list Statement }.

(** [constructor(transactionUrl, auth)]. *)
Definition new (transactionUrl auth : jsstr) : Transaction :=
  {| used := false; auth := auth; transactionUrl := transactionUrl;
     statements := [] |}.

(** [addQuery(queryBuilder, params)]; the state is [this]. *)
Definition addQuery (queryBuilder : QueryBuilder.t) (params : value)
  : M Transaction unit :=
  this <- get ;;
  if used this then
    throw (new_Error (lit "Can't reuse transaction"))
  else
    text <- returned (fst (QueryBuilder.toString queryBuilder)) ;;
    put {| used := used this; auth := auth this;
           transactionUrl := transactionUrl this;
           statements := statements this
                         ++ [{| statement := text; parameters := params |}] |}.

(** The object given to [serverRequest.send]. *)
Record request : Type :=
  { headers : list (jsstr * jsstr);
    url : jsstr;
    method : jsstr;
    body : option jsstr }.

(** The parsed body of an answer. *)
Definition parsed : Type := payload.

(** What [send] resolves to. *)
Record response : Type :=
  { statusCode : Z;
    payload : parsed }.

Inductive event : Type :=
| Request (r : request)
| UsedSet (b : bool).

(** The requests of a trace, in the order they were issued. *)
Fixpoint requests (tr : list event) : list request :=
  match tr with
  | [] => []
  | Request r :: tr' => r :: requests tr'
  | UsedSet _ :: tr' => requests tr'
  end.

(** An activation of [execute]. *)
Record frame : Type :=
  { this : Transaction;
    local_headers : list (jsstr * jsstr);
    options : request;
    result : value;
    trace : list event }.

Definition emit (e : event) : M frame unit :=
  modify (fun f =>
    {| this := this f; local_headers := local_headers f;
       options := options f; result := result f;
       trace := trace f ++ [e] |}).

(** [this.used = b]. *)
Definition set_used (b : bool) : M frame unit :=
  modify (fun f =>
    {| this := {| used := b; auth := auth (this f);
                  transactionUrl := transactionUrl (this f);
                  statements := statements (this f) |};
       local_headers := local_headers f;
       options := options f; result := result f;
       trace := trace f |}) ;;
  emit (UsedSet b).

(** [result = v]. *)
Definition set_result (v : value) : M frame unit :=
  modify (fun f =>
    {| this := this f; local_headers := local_headers f;
       options := options f; result := v; trace := trace f |}).

(** The declarations that open the executor. *)
Definition enter (this0 : Transaction) : frame :=
  let headers := request_headers (auth this0) in
  {| this := this0;
     local_headers := headers;
     options := {| headers := headers;
                   url := transactionUrl this0;
                   method := lit "POST";
                   body := statements_body (statements this0) |};
     result := VObject [];
     trace := [] |}.

Section Transport.

Variable send : request -> completion response.

Definition call_send (r : request) : M frame (completion response) :=
  emit (Request r) ;; ret (send r).

(** The rest of the executor: the first [send], then [this.used = true]. *)
Definition executor : M frame (completion response) :=
  f <- get ;;
  p <- call_send (options f) ;;
  set_used true ;;
  ret p.

(** First [then].  The operands of [!==] and [&&] are read left to
    right. *)
Definition on_response (res : response) : M frame parsed :=
  ok <- returned HTTP_OK ;;
  bad <- (if negb (statusCode res =? ok)%Z then
            created <- returned HTTP_CREATED ;;
            ret (negb (statusCode res =? created)%Z)
          else ret false) ;;
  if (bad : bool) then
    f <- get ;;
    call_send {| headers := local_headers f;
                 url := transactionUrl (this f);
                 method := lit "DELETE";
                 body := None |} ;;
    throw (new_Error (lit "Query failed to return OK or CREATED"))
  else
    ret (payload res).

(** Second [then]. *)
Definition on_json (js : parsed) : M frame response :=
  match errors js with
  | e :: _ => throw (ThrownString (message e))
  | [] =>
      set_result (results js) ;;
      f <- get ;;
      p <- call_send {| headers := local_headers f;
                        url := commit js;
                        method := lit "POST";
                        body := None |} ;;
      await p
  end.

(** Third [then]. *)
Definition on_commit (res : response) : M frame outcome :=
  ok <- returned HTTP_OK ;;
  if (statusCode res =? ok)%Z then
    f <- get ;;
    ret (Resolved (result f))
  else
    throw (new_Error (lit "Transaction commit failed")).

(** [catch]. *)
Definition on_error (err : thrown) : M frame outcome :=
  ret (Rejected (new_Error (String_of_thrown err))).

(** The promise chain. *)
Definition settle (p : completion response) : M frame outcome :=
  try_catch
    (res <- await p ;;
     js <- on_response res ;;
     res' <- on_json js ;;
     on_commit res')
    on_error.

(** [execute()]. *)
Definition execute (this0 : Transaction) : completion outcome * frame :=
  (p <- executor ;; settle p) (enter this0).

End Transport.

End Transaction001.

(* ================================================================== *)
(** ** class Neo4j of the later index.js: init and simpleTransaction *)
(* ================================================================== *)

Module Neo4j001.

Record Neo4j : Type :=
  { graphDatabaseUrl : jsstr;
    graphDBPort : Z;
    auth : jsstr }.

(** [constructor()]. *)
Definition new : Neo4j :=
  {| graphDatabaseUrl := []; graphDBPort := 7474; auth := [] |}.

Section Buffer.

Variable base64 : jsstr -> jsstr.

(** [init(graphDBUrl, graphDBPort, userName, password)]. *)
Definition init (graphDBUrl : jsstr) (port : Z) (userName password : jsstr)
  : M Neo4j unit :=
  modify (fun this => {| graphDatabaseUrl := graphDBUrl;
                         graphDBPort := graphDBPort this;
                         auth := auth this |}) ;;
  modify (fun this => {| graphDatabaseUrl := graphDatabaseUrl this;
                         graphDBPort := port;
                         auth := auth this |}) ;;
  if Neo4jClass.nonempty userName && Neo4jClass.nonempty password then
    modify (fun this =>
      {| graphDatabaseUrl := graphDatabaseUrl this;
         graphDBPort := graphDBPort this;
         auth := base64 (userName ++ lit ":" ++ password) |})
  else ret tt.

End Buffer.

(** [createTransaction()]: the arguments are host, port and credential,
    which is the constructor of the [Transaction] that takes a host and a
    port. *)
Definition createTransaction (this : Neo4j) : TransactionJs.Transaction :=
  TransactionJs.new (graphDatabaseUrl this) (graphDBPort this) (auth this).

(** [createQueryBuilder()]. *)
Definition createQueryBuilder (this : Neo4j) : QueryBuilder.t :=
  QueryBuilder.new.

Section Transport.

Variable send : TransactionJs.request -> completion TransactionJs.response.

(** What the executor of [simpleTransaction] does before [execute]: the
    transaction with its one statement. *)
Definition simpleTransaction_prepare (this : Neo4j)
           (statements : QueryBuilder.partial) (params : value)
  : completion TransactionJs.Transaction :=
  let transaction := createTransaction this in
  let q := createQueryBuilder this in
  let '(c, q) := QueryBuilder.add statements q in
  let! _ := c in
  let '(c, transaction) := TransactionJs.addQuery q params transaction in
  let! _ := c in
  Normal transaction.

(** [simpleTransaction(statements, params)]: how its promise is settled,
    and the requests issued. *)
Definition simpleTransaction (this : Neo4j)
           (statements : QueryBuilder.partial) (params : value)
  : outcome * list TransactionJs.request :=
  match simpleTransaction_prepare this statements params with
  | Throw e => (Rejected e, [])
  | Normal transaction =>
      let '(c, f) := TransactionJs.execute send transaction in
      (match c with
       | Normal (Resolved result) =>
           match Neo4jClass.getSimpleListData result with
           | Normal v => Resolved v
           | Throw e => Rejected e
           end
       | Normal (Rejected e) => Rejected e
       | Throw e => Rejected e
       end,
       TransactionJs.requests (TransactionJs.trace f))
  end.

End Transport.

End Neo4j001.

(* ================================================================== *)
(** ** Predicates the properties are stated with *)
(* ================================================================== *)

(** Does the string start with whitespace? *)
Definition starts_with_ws (s : jsstr) : bool :=
  match s with
  | c :: _ => is_ws c
  | [] => false
  end.

Definition ends_with_ws (s : jsstr) : bool := starts_with_ws (rev s).

(** Are there two whitespace code units next to each other? *)
Fixpoint adjacent_ws (s : jsstr) : bool :=
  match s with
  | c :: s' => (is_ws c && starts_with_ws s') || adjacent_ws s'
  | [] => false
  end.

(** Carriage return, line feed or tab. *)
Definition is_break (c : N) : bool :=
  ((c =? CR) || (c =? LF) || (c =? TAB))%N.

Definition not_ws (c : N) : bool := negb (is_ws c).

(** The replacement of [/\s\s+/g] by a space as a single pass with one
    state: no whitespace pending, one whitespace code unit pending, or a run
    of two or more under way.  [replace_ws_scan] shows it equal to the scan
    of [replace_all re_ws_run]. *)
Inductive run : Type :=
| NoRun
| Single (c : N)
| Multi.

Definition flush (r : run) : jsstr :=
  match r with
  | NoRun => []
  | Single c => [c]
  | Multi => [SP]
  end.

Fixpoint scan (r : run) (s : jsstr) : jsstr :=
  match s with
  | [] => flush r
  | c :: s' =>
      if is_ws c then
        scan (match r with NoRun => Single c | _ => Multi end) s'
      else flush r ++ c :: scan NoRun s'
  end.

(** The fragments an argument of [add] holds, left to right. *)
Fixpoint leaves (p : QueryBuilder.partial) : list jsstr :=
  match p with
  | QueryBuilder.Fragment s => [s]
  | QueryBuilder.Array elements => flat_map leaves elements
  end.

(** The statement [addQuery] stores for a builder and its parameters. *)
Definition statement_of (c : QueryBuilder.t * value) : Statement :=
  {| statement := QueryBuilder.render (QueryBuilder.q (fst c));
     parameters := snd c |}.

(** The JSON text of one statement: its text, then its parameters unless
    they are [undefined]. *)
Definition entry_json (s : Statement) : jsstr :=
  lit "{" ++ JSON.quote (lit "statement") ++ lit ":"
    ++ JSON.quote (statement s)
    ++ match JSON.stringify (parameters s) with
       | Some x => lit "," ++ JSON.quote (lit "parameters") ++ lit ":" ++ x
       | None => []
       end
    ++ lit "}".

(** The JSON text of the request body, given the texts of its entries. *)
Definition body_json (entries : list jsstr) : jsstr :=
  lit "{" ++ JSON.quote (lit "statements") ++ lit ":"
    ++ lit "[" ++ join (lit ",") entries ++ lit "]" ++ lit "}".

(** The value types [toProps] renders. *)
Definition supported (v : value) : bool :=
  match v with
  | VString _ | VNumber _ | VBoolean _ => true
  | _ => false
  end.

(** The [key:value] pair of a supported property, strings in double
    quotes. *)
Definition prop_pair (k : jsstr) (v : value) : jsstr :=
  match v with
  | VString s => k ++ lit ":" ++ [DQUOTE] ++ s ++ [DQUOTE]
  | VNumber n => k ++ lit ":" ++ Number_toString n
  | VBoolean b => k ++ lit ":" ++ Boolean_toString b
  | _ => []
  end.

(** *** Terms for the Transaction of index.js *)

Module IndexTerms.

Import Index.

Definition reuse_error : thrown := new_Error (lit "Can't reuse transaction").

(** [this] with [used] set. *)
Definition mark_used (t : Transaction) : Transaction :=
  {| used := true; auth := auth t; transactionUrl := transactionUrl t;
     statements := statements t |}.

(** The rollback request of the first [then]. *)
Definition delete_request (t : Transaction) : request :=
  {| url := transactionUrl t; headers := request_headers (auth t);
     method := lit "delete"; body := None |}.

(** The commit request of the second [then]. *)
Definition commit_request (t : Transaction) (js : payload) : request :=
  {| url := commit js; headers := request_headers (auth t);
     method := lit "post"; body := None |}.

Definition status_ok (z : Z) : bool :=
  (z =? HTTP_OK)%Z || (z =? HTTP_CREATED)%Z.

(** The frame when the promise is settled: what the executor left, with
    the closure variable [result] and the later events. *)
Definition settled_frame (t : Transaction) (r : value)
           (later : list event) : frame :=
  {| this := mark_used t;
     local_headers := request_headers (auth t);
     options := options (enter t);
     result := r;
     trace := Request (options (enter t)) :: UsedSet true :: later |}.

(** [addQuery] called once for each pair, in order. *)
Definition add_all (calls : list (QueryBuilder.t * value))
  : M Transaction unit :=
  forEach (fun c => addQuery (fst c) (snd c)) calls.

(** A transport for examples: [first] answers the request that carries a
    body, [second] any other. *)
Definition mock (first second : completion response)
  : request -> completion response :=
  fun r => match body r with Some _ => first | None => second end.

End IndexTerms.

(** *** Terms for the Transaction of transaction.js *)

Module TransactionJsTerms.

Import TransactionJs.

Definition reuse_error : thrown := new_Error (lit "Can't reuse transaction").

(** [this] with [used] set. *)
Definition mark_used (t : Transaction) : Transaction :=
  {| used := true; auth := auth t; host := host t; port := port t;
     statements := statements t |}.

(** The rollback request of the first [then]: [options] with the method
    replaced. *)
Definition delete_request (t : Transaction) : request :=
  {| headers := request_headers (auth t);
     req_host := host t; req_port := port t;
     path := TransactionPath;
     method := lit "delete";
     body := statements_body (statements t) |}.

(** The commit request of the second [then]: [options] with path, method
    and body replaced. *)
Definition commit_request (t : Transaction) (js : payload) : request :=
  {| headers := request_headers (auth t);
     req_host := host t; req_port := port t;
     path := commit js;
     method := lit "post";
     body := Some [] |}.

Definition status_ok (z : Z) : bool :=
  (z =? HTTP_OK)%Z || (z =? HTTP_CREATED)%Z.

(** The frame when the promise is settled: what the executor left, with
    the locals [options] and [result] and the later events. *)
Definition settled_frame (t : Transaction) (o : request) (r : value)
           (later : list event) : frame :=
  {| this := mark_used t;
     options := o;
     result := r;
     trace := Request (options (enter t)) :: UsedSet true :: later |}.

(** [addQuery] called once for each pair, in order. *)
Definition add_all (calls : list (QueryBuilder.t * value))
  : M Transaction unit :=
  forEach (fun c => addQuery (fst c) (snd c)) calls.

(** A transport for examples: [second] answers the commit request, which
    is the one with an empty body, [first] any other. *)
Definition mock (first second : completion response)
  : request -> completion response :=
  fun r => match body r with Some [] => second | _ => first end.

End TransactionJsTerms.

(** *** Sample inputs *)




Module Sample.

(** An ASCII literal between double quotes. *)
Definition quoted (s : string) : jsstr := [DQUOTE] ++ lit s ++ [DQUOTE].

Definition builder : QueryBuilder.t :=
  {| QueryBuilder.q := [lit "MATCH (u:User {uid: {params}.uid})";
                        lit "RETURN u"] |}.

Definition params : value :=
  VObject [(lit "params", VObject [(lit "uid", VString (lit "134"))])].

Definition commit_url : jsstr :=
  lit "http://127.0.0.1:7474/db/data/transaction/7/commit".

Definition answer : payload :=
  {| results := VArray [VObject [(lit "columns", VArray [VString (lit "u")]);
                                 (lit "data", VArray [])]];
     errors := [];
     commit := commit_url |}.

Definition answer_with_errors : payload :=
  {| results := VArray [];
     errors := [{| code := lit "Neo.ClientError.Statement.SyntaxError";
                   message := lit "Invalid input" |};
                {| code := lit "Neo.ClientError.Statement.SemanticError";
                   message := lit "Variable not defined" |}];
     commit := commit_url |}.

Definition not_json : thrown :=
  ErrorObject (lit "SyntaxError") (lit "Unexpected end of JSON input").

(** For index.js. *)
Definition transaction : Index.Transaction :=
  snd (Index.addQuery builder params
         (Index.new (lit "http://127.0.0.1:7474/db/data/transaction")
            (lit "bmVvNGo6c2VjcmV0"))).

Definition used_transaction : Index.Transaction :=
  IndexTerms.mark_used transaction.

Definition created : Index.response :=
  {| Index.status := 201; Index.statusText := lit "Created";
     Index.json := Normal answer |}.

Definition created_with_errors : Index.response :=
  {| Index.status := 201; Index.statusText := lit "Created";
     Index.json := Normal answer_with_errors |}.


Definition ok : Index.response :=
  {| Index.status := 200; Index.statusText := lit "OK";
     Index.json := Normal answer |}.

Definition not_found : Index.response :=
  {| Index.status := 404; Index.statusText := lit "Not Found";
     Index.json := Throw not_json |}.

(** For transaction.js. *)
Definition transaction' : TransactionJs.Transaction :=
  snd (TransactionJs.addQuery builder params
         (TransactionJs.new (lit "127.0.0.1") 7474 (lit "bmVvNGo6c2VjcmV0"))).

Definition used_transaction' : TransactionJs.Transaction :=
  TransactionJsTerms.mark_used transaction'.

Definition created' : TransactionJs.response :=
  {| TransactionJs.statusCode := 201; TransactionJs.payLoad := Normal answer |}.

Definition created_with_errors' : TransactionJs.response :=
  {| TransactionJs.statusCode := 201;
     TransactionJs.payLoad := Normal answer_with_errors |}.

Definition server_error' : TransactionJs.response :=
  {| TransactionJs.statusCode := 500; TransactionJs.payLoad := Throw not_json |}.

Definition ok' : TransactionJs.response :=
  {| TransactionJs.statusCode := 200; TransactionJs.payLoad := Normal answer |}.

Definition not_found' : TransactionJs.response :=
  {| TransactionJs.statusCode := 404; TransactionJs.payLoad := Throw not_json |}.

End Sample.

(** The cells of a row of [data]: the array under [row] of an object. *)
Definition row_cells (row : value) : option (list value) :=
  match row with
  | VObject props =>
      match get_property props (lit "row") with
      | VArray cells => Some cells
      | _ => None
      end
  | _ => None
  end.

(** The first cell of a row, [undefined] when there is none. *)
Definition first_cell (row : value) : value :=
  match row_cells row with
  | Some cells => nth 0 cells VUndefined
  | None => VUndefined
  end.

Definition is_row (row : value) : bool :=
  match row_cells row with Some _ => true | None => false end.

(** Is the completion a thrown [TypeError]? *)
Definition throws_TypeError {A} (c : completion A) : bool :=
  match c with
  | Throw (ErrorObject name _) => jsstr_eqb name (lit "TypeError")
  | _ => false
  end.

(** What the helpers go on with after [if (result) result = result[0]]. *)
Definition first_result (result : value) : value :=
  if truthy result then
    match get_index result 0 with
    | Normal first => first
    | Throw _ => VUndefined
    end
  else result.

(** The transaction [simpleTransaction] executes: fresh, with the one
    statement made of the fragments and the parameters. *)
Definition simple_transaction (this : Neo4j001.Neo4j)
           (statements : QueryBuilder.partial) (params : value)
  : TransactionJs.Transaction :=
  {| TransactionJs.used := false;
     TransactionJs.auth := Neo4j001.auth this;
     TransactionJs.host := Neo4j001.graphDatabaseUrl this;
     TransactionJs.port := Neo4j001.graphDBPort this;
     TransactionJs.statements :=
       [{| statement := QueryBuilder.render (leaves statements);
           parameters := params |}] |}.

(** A text [toString] leaves as it is: no neighbouring whitespace, no
    whitespace at either end, no carriage return, line feed or tab. *)
Definition clean (s : jsstr) : bool :=
  negb (adjacent_ws s) && negb (starts_with_ws s) && negb (ends_with_ws s)
  && forallb (fun c => negb (is_break c)) s.

(** The state of [scan] after one more whitespace code unit. *)
Definition after_ws (r : run) (c : N) : run :=
  match r with NoRun => Single c | _ => Multi end.

(** The clause [toSets] writes for a key, without the indentation. *)
Definition set_clause (v objName k : jsstr) : jsstr :=
  lit "SET " ++ v ++ lit "." ++ k ++ lit " = {" ++ objName ++ lit "}." ++ k.

(** The pair [toNamedProps] writes for a key. *)
Definition named_pair (name k : jsstr) : jsstr :=
  k ++ lit ":{" ++ name ++ lit "}." ++ k.

(** No whitespace in the text. *)
Definition no_ws (s : jsstr) : bool := forallb not_ws s.

(** A word: one or more code units, none of them whitespace. *)
Definition is_word (w : jsstr) : bool :=
  match w with [] => false | _ :: _ => no_ws w end.

(** A gap: one or more code units, all of them whitespace. *)
Definition is_gap (g : jsstr) : bool :=
  match g with [] => false | _ :: _ => forallb is_ws g end.

(** A text that starts and ends with a word: the first word, then every
    further word behind what separates it from the one before. *)
Fixpoint weave (w : jsstr) (rest : list (jsstr * jsstr)) : jsstr :=
  match rest with
  | [] => w
  | (g, w') :: rest' => w ++ g ++ weave w' rest'
  end.

(** What is left of a gap between two words: nothing of a lone carriage
    return, line feed or tab; any other lone code unit as it is; one space
    of two or more code units. *)
Definition separator (g : jsstr) : jsstr :=
  match g with
  | [c] => if is_break c then [] else [c]
  | _ => [SP]
  end.

(** Gaps, each followed by a word. *)
Definition gaps_and_words (rest : list (jsstr * jsstr)) : bool :=
  forallb (fun p => is_gap (fst p) && is_word (snd p)) rest.

(** The same words, behind what is left of their gaps. *)
Definition separated (rest : list (jsstr * jsstr)) : list (jsstr * jsstr) :=
  map (fun p => (separator (fst p), snd p)) rest.

(** Two texts with one space between them; no space beside an empty
    text. *)
Definition glue (a b : jsstr) : jsstr :=
  match a, b with
  | [], _ => b
  | _, [] => a
  | _, _ => a ++ SP :: b
  end.

(** More sample inputs. *)
Module MoreSamples.

(** A connection that is refused. *)
Definition refused : thrown :=
  ErrorObject (lit "FetchError") (lit "connect ECONNREFUSED 127.0.0.1:7474").

(** An answer with status 200 and a body that is not JSON. *)
Definition garbled : Index.response :=
  {| Index.status := 200; Index.statusText := lit "OK";
     Index.json := Throw Sample.not_json |}.

Definition garbled' : TransactionJs.response :=
  {| TransactionJs.statusCode := 200;
     TransactionJs.payLoad := Throw Sample.not_json |}.

(** An answer with two rows of one column. *)
Definition names : payload :=
  {| results :=
       VArray [VObject
                 [(lit "columns", VArray [VString (lit "u.name")]);
                  (lit "data",
                   VArray [VObject [(lit "row", VArray [VString (lit "Ann")])];
                           VObject [(lit "row", VArray [VString (lit "Bob")])]])]];
     errors := [];
     commit := Sample.commit_url |}.

Definition created_names : TransactionJs.response :=
  {| TransactionJs.statusCode := 201; TransactionJs.payLoad := Normal names |}.

(** The object of the later [index.js] after [init]. *)
Definition db : Neo4j001.Neo4j :=
  {| Neo4j001.graphDatabaseUrl := lit "127.0.0.1";
     Neo4j001.graphDBPort := 7474;
     Neo4j001.auth := lit "bmVvNGo6c2VjcmV0" |}.

Definition query : QueryBuilder.partial :=
  QueryBuilder.Array [QueryBuilder.Fragment (lit "MATCH (u:User)");
                      QueryBuilder.Fragment (lit "RETURN u.name")].

End MoreSamples.

(** A pending code unit is always whitespace. *)
Definition run_ok (r : run) : Prop :=
  match r with
  | Single c => is_ws c = true
  | _ => True
  end.

(* ================================================================== *)
(** ** Facts about strings *)
(* ================================================================== *)

Section StringFacts.

Lemma jsstr_eqb_refl s : jsstr_eqb s s = true.
Proof.
  induction s as [| c s IH]; [reflexivity |].
  simpl. now rewrite N.eqb_refl, IH.
Qed.

Lemma is_break_ws c : is_break c = true -> is_ws c = true.
Proof.
  unfold is_break. intros H.
  apply orb_true_iff in H as [H | H];
    [apply orb_true_iff in H as [H | H] |];
    apply N.eqb_eq in H; subst c; reflexivity.
Qed.

Lemma join_two sep x y l :
  join sep (x :: y :: l) = x ++ sep ++ join sep (y :: l).
Proof. reflexivity. Qed.

Lemma join_merge sep x y l :
  join sep (x :: y :: l) = join sep ((x ++ sep ++ y) :: l).
Proof.
  destruct l as [| z l]; [reflexivity |].
  rewrite join_two. rewrite (join_two sep y z l).
  change (join sep ((x ++ sep ++ y) :: z :: l))
    with ((x ++ sep ++ y) ++ sep ++ join sep (z :: l)).
  now rewrite <- !app_assoc.
Qed.

(** [join] puts a fragment between a left and a right context that do not
    depend on it. *)
Lemma join_context sep (l1 l2 : list jsstr) :
  exists A B, forall x, join sep (l1 ++ x :: l2) = A ++ x ++ B.
Proof.
  induction l1 as [| y l1 IH].
  - destruct l2 as [| z l2].
    + exists [], []. intros x. simpl. now rewrite app_nil_r.
    + exists [], (sep ++ join sep (z :: l2)). intros x. reflexivity.
  - destruct IH as (A & B & IH).
    exists (y ++ sep ++ A), B. intros x.
    destruct l1 as [| y' l1]; simpl app at 1.
    + rewrite join_two. simpl app in IH. rewrite IH.
      now rewrite <- !app_assoc.
    + simpl app. rewrite join_two. simpl app in IH. rewrite IH.
      now rewrite <- !app_assoc.
Qed.

Lemma filter_not_ws_join (l : list jsstr) :
  filter not_ws (join [SP] l) = filter not_ws (concat l).
Proof.
  induction l as [| x l IH]; [reflexivity |].
  destruct l as [| y l].
  - simpl. now rewrite app_nil_r.
  - rewrite join_two. simpl concat in *.
    rewrite !filter_app. rewrite IH. rewrite filter_app. reflexivity.
Qed.

(** *** The scan of [replace_from] *)

Lemma replace_from_skip matcher rep k s :
  replace_from matcher rep k s = replace_all matcher rep (skipn k s).
Proof.
  revert k. induction s as [| c s IH]; intros [| k]; try reflexivity.
  simpl. apply IH.
Qed.

Lemma replace_all_cons matcher rep c s :
  replace_all matcher rep (c :: s) =
  match matcher (c :: s) with
  | O => c :: replace_all matcher rep s
  | S k => rep ++ replace_all matcher rep (skipn k s)
  end.
Proof.
  unfold replace_all at 1. simpl.
  destruct (matcher (c :: s)); [reflexivity |].
  now rewrite replace_from_skip.
Qed.

(** Removing the matches of [/(?:\r\n|\r|\n|\t)/] removes exactly the
    code units CR, LF and TAB. *)
Lemma replace_breaks_filter s :
  replace_all re_breaks [] s = filter (fun c => negb (is_break c)) s.
Proof.
  remember (length s) as n eqn:Hn.
  revert s Hn. induction n as [n IH] using lt_wf_ind. intros s Hn.
  destruct s as [| c s]; [reflexivity |].
  rewrite replace_all_cons. simpl filter. unfold re_breaks, is_break.
  destruct (N.eqb_spec c CR) as [-> | Hcr].
  - simpl negb.
    destruct s as [| d s].
    + reflexivity.
    + destruct (N.eqb_spec d LF) as [-> | Hlf].
      * simpl. eapply IH; [| reflexivity]; subst n; simpl; lia.
      * simpl skipn. simpl app.
        eapply IH; [| reflexivity]; subst n; simpl; lia.
  - destruct (N.eqb_spec c LF) as [-> | Hlf].
    + simpl. eapply IH; [| reflexivity]; subst n; simpl; lia.
    + destruct (N.eqb_spec c TAB) as [-> | Htab].
      * simpl. eapply IH; [| reflexivity]; subst n; simpl; lia.
      * simpl. f_equal. eapply IH; [| reflexivity]; subst n; simpl; lia.
Qed.

(** *** Whitespace runs *)

Lemma skipn_ws_prefix s : skipn (ws_prefix s) s = drop_ws s.
Proof.
  induction s as [| c s IH]; [reflexivity |].
  simpl. destruct (is_ws c); [exact IH | reflexivity].
Qed.

Lemma drop_ws_length s : length (drop_ws s) <= length s.
Proof.
  induction s as [| c s IH]; simpl; [lia |].
  destruct (is_ws c); simpl; lia.
Qed.

Lemma ws_prefix_zero s : ws_prefix s = 0 -> starts_with_ws s = false.
Proof.
  destruct s as [| c s]; [reflexivity |].
  simpl. destruct (is_ws c); [discriminate | reflexivity].
Qed.

Lemma scan_multi s : scan Multi s = SP :: scan NoRun (drop_ws s).
Proof.
  induction s as [| c s IH]; [reflexivity |].
  simpl. destruct (is_ws c) eqn:Hc.
  - exact IH.
  - simpl. rewrite Hc. reflexivity.
Qed.

Lemma scan_single_word c s :
  starts_with_ws s = false -> scan (Single c) s = c :: scan NoRun s.
Proof.
  destruct s as [| d s]; [reflexivity |].
  simpl. intros ->. reflexivity.
Qed.

Lemma scan_single_space s : scan (Single SP) s = scan Multi s.
Proof.
  destruct s as [| d s]; [reflexivity |].
  simpl. destruct (is_ws d); reflexivity.
Qed.

(** The scan of [replace_all] with [/\s\s+/] is the one-pass [scan]. *)
Lemma replace_ws_scan s : replace_all re_ws_run [SP] s = scan NoRun s.
Proof.
  remember (length s) as n eqn:Hn.
  revert s Hn. induction n as [n IH] using lt_wf_ind. intros s Hn.
  destruct s as [| c s]; [reflexivity |].
  rewrite replace_all_cons. unfold re_ws_run. simpl ws_prefix. simpl scan.
  destruct (is_ws c) eqn:Hc.
  - destruct (ws_prefix s) as [| m] eqn:Hp.
    + simpl. rewrite scan_single_word by now apply ws_prefix_zero.
      f_equal. eapply IH; [| reflexivity]; subst n; simpl; lia.
    + simpl Nat.leb. cbv iota. rewrite <- Hp, skipn_ws_prefix.
      destruct s as [| d s]; [discriminate |].
      simpl in Hp. simpl. destruct (is_ws d) eqn:Hd; [| discriminate].
      rewrite scan_multi. simpl. f_equal.
      eapply IH; [| reflexivity].
      subst n. pose proof (drop_ws_length s). simpl. lia.
  - simpl. f_equal. eapply IH; [| reflexivity]; subst n; simpl; lia.
Qed.

Lemma adjacent_ws_word c s :
  is_ws c = false -> adjacent_ws (c :: s) = adjacent_ws s.
Proof. intros H. simpl. now rewrite H. Qed.

Lemma adjacent_ws_flush r c s :
  is_ws c = false ->
  adjacent_ws (flush r ++ c :: s) = adjacent_ws s.
Proof.
  intros H. destruct r as [| d |]; simpl; rewrite H;
    now rewrite ?andb_false_r.
Qed.

(** After the scan no two whitespace code units are neighbours. *)
Lemma scan_no_adjacent_ws r s : adjacent_ws (scan r s) = false.
Proof.
  revert r. induction s as [| c s IH]; intros r.
  - destruct r; simpl; now rewrite ?andb_false_r.
  - simpl. destruct (is_ws c) eqn:Hc.
    + apply IH.
    + rewrite adjacent_ws_flush by exact Hc. apply IH.
Qed.

Lemma filter_not_ws_flush r : run_ok r -> filter not_ws (flush r) = [].
Proof.
  destruct r as [| c |]; simpl; unfold not_ws; try reflexivity.
  intros ->. reflexivity.
Qed.

(** The scan touches whitespace only. *)
Lemma scan_keeps_words r s :
  run_ok r -> filter not_ws (scan r s) = filter not_ws s.
Proof.
  revert r. induction s as [| c s IH]; intros r Hr.
  - now apply filter_not_ws_flush.
  - simpl. unfold not_ws at 2. destruct (is_ws c) eqn:Hc; simpl.
    + apply IH. destruct r; simpl; auto.
    + rewrite filter_app, filter_not_ws_flush by exact Hr.
      simpl. unfold not_ws at 1. rewrite Hc. simpl. f_equal.
      now apply IH.
Qed.

Lemma scan_multi_ws w s :
  forallb is_ws w = true -> scan Multi (w ++ s) = scan Multi s.
Proof.
  induction w as [| c w IH]; [reflexivity |].
  simpl. intros H. apply andb_true_iff in H as [Hc Hw].
  rewrite Hc. now apply IH.
Qed.

(** A run of two or more whitespace code units counts as one space. *)
Lemma scan_run_is_space r a w b :
  forallb is_ws w = true -> 2 <= length w ->
  scan r (a ++ w ++ b) = scan r (a ++ SP :: b).
Proof.
  intros Hw Hlen. revert r. induction a as [| c a IH]; intros r.
  - destruct w as [| x [| y w]]; simpl in Hlen; try lia.
    simpl in Hw.
    apply andb_true_iff in Hw as [Hx Hw].
    apply andb_true_iff in Hw as [Hy Hw].
    change (scan r (x :: y :: w ++ b) = scan r (SP :: b)).
    cbn [scan]. rewrite Hx, Hy.
    change (is_ws SP) with true. cbv iota.
    assert (E : scan match r with NoRun => Single SP | _ => Multi end b
                = scan Multi b)
      by (destruct r; auto using scan_single_space).
    rewrite E.
    destruct r; now apply scan_multi_ws.
  - simpl. destruct (is_ws c); now rewrite IH.
Qed.

(** *** Trimming *)

Lemma drop_ws_split s :
  exists l, s = l ++ drop_ws s /\ forallb is_ws l = true.
Proof.
  induction s as [| c s (l & E & Hl)].
  - now exists [].
  - simpl. destruct (is_ws c) eqn:Hc.
    + exists (c :: l). simpl. rewrite Hc, Hl. now rewrite <- E.
    + now exists [].
Qed.

Lemma drop_ws_starts s : starts_with_ws (drop_ws s) = false.
Proof.
  induction s as [| c s IH]; [reflexivity |].
  simpl. destruct (is_ws c) eqn:Hc; [exact IH | exact Hc].
Qed.

Lemma forallb_rev (f : N -> bool) l :
  forallb f l = true -> forallb f (rev l) = true.
Proof.
  rewrite !forallb_forall. intros H x Hx. apply H. now apply in_rev.
Qed.

(** [trim] cuts whitespace, and only whitespace, off both ends. *)
Lemma trim_split s :
  exists l r, s = l ++ trim s ++ r
              /\ forallb is_ws l = true /\ forallb is_ws r = true.
Proof.
  destruct (drop_ws_split s) as (l & E & Hl).
  destruct (drop_ws_split (rev (drop_ws s))) as (l' & E' & Hl').
  exists l, (rev l'). repeat split; auto using forallb_rev.
  unfold trim. rewrite <- rev_app_distr, <- E', rev_involutive. exact E.
Qed.

Lemma trim_ends s : ends_with_ws (trim s) = false.
Proof.
  unfold ends_with_ws, trim. rewrite rev_involutive. apply drop_ws_starts.
Qed.

Lemma trim_starts s : starts_with_ws (trim s) = false.
Proof.
  pose proof (drop_ws_starts s) as H.
  destruct (drop_ws_split (rev (drop_ws s))) as (l' & E' & _).
  apply (f_equal (@rev N)) in E'.
  rewrite rev_involutive, rev_app_distr in E'.
  fold (trim s) in E'. rewrite E' in H.
  destruct (trim s); [reflexivity | exact H].
Qed.

(** *** What a part of a string inherits *)

Lemma adjacent_ws_app x y :
  adjacent_ws (x ++ y) = false ->
  adjacent_ws x = false /\ adjacent_ws y = false.
Proof.
  induction x as [| a x IH]; intros H; [now split |].
  simpl in H. apply orb_false_iff in H as [H1 H2].
  destruct (IH H2) as [Hx Hy]. split; [| exact Hy].
  simpl. rewrite Hx, orb_false_r.
  destruct x; [apply andb_false_r | exact H1].
Qed.

Lemma filter_not_ws_all_ws l :
  forallb is_ws l = true -> filter not_ws l = [].
Proof.
  induction l as [| c l IH]; [reflexivity |].
  simpl. intros H. apply andb_true_iff in H as [Hc Hl].
  unfold not_ws at 1. rewrite Hc. now apply IH.
Qed.

Section Filter.

Variable keep : N -> bool.
Hypothesis dropped_ws : forall c, keep c = false -> is_ws c = true.

Lemma filter_starts s :
  starts_with_ws s = false -> starts_with_ws (filter keep s) = false.
Proof.
  destruct s as [| c s]; [reflexivity |].
  simpl. intros Hc. destruct (keep c) eqn:Hk; [exact Hc |].
  apply dropped_ws in Hk. congruence.
Qed.

Lemma filter_no_adjacent_ws s :
  adjacent_ws s = false -> adjacent_ws (filter keep s) = false.
Proof.
  induction s as [| a s IH]; [reflexivity |].
  simpl. intros H. apply orb_false_iff in H as [H1 H2].
  destruct (keep a); [| now apply IH].
  simpl. rewrite (IH H2), orb_false_r.
  apply andb_false_iff in H1 as [Ha | Hs].
  - now rewrite Ha.
  - rewrite filter_starts by exact Hs. apply andb_false_r.
Qed.

Lemma filter_keeps_words s :
  filter not_ws (filter keep s) = filter not_ws s.
Proof.
  induction s as [| a s IH]; [reflexivity |].
  simpl. destruct (keep a) eqn:Hk; simpl; rewrite IH.
  - reflexivity.
  - unfold not_ws at 2. now rewrite (dropped_ws Hk).
Qed.

End Filter.

End StringFacts.

(* ================================================================== *)
(** ** The query builder *)
(* ================================================================== *)

Section QueryBuilderFacts.

Import QueryBuilder.

Lemma render_scan l :
  render l =
  trim (filter (fun c => negb (is_break c)) (scan NoRun (join [SP] l))).
Proof.
  unfold render. now rewrite replace_ws_scan, replace_breaks_filter.
Qed.

Lemma not_break_ws c : negb (is_break c) = false -> is_ws c = true.
Proof.
  intros H. apply is_break_ws. now apply negb_false_iff.
Qed.

Lemma forallb_filter_same (f : N -> bool) s :
  forallb f (filter f s) = true.
Proof.
  induction s as [| c s IH]; [reflexivity |].
  simpl. destruct (f c) eqn:Hc; [simpl; now rewrite Hc | exact IH].
Qed.

Lemma render_no_breaks l :
  forallb (fun c => negb (is_break c)) (render l) = true.
Proof.
  rewrite render_scan.
  set (s := filter (fun c => negb (is_break c)) _).
  destruct (trim_split s) as (x & y & E & _ & _).
  assert (H : forallb (fun c => negb (is_break c)) s = true)
    by apply forallb_filter_same.
  rewrite E, !forallb_app in H.
  apply andb_true_iff in H as [_ H].
  now apply andb_true_iff in H as [H _].
Qed.

Lemma render_no_adjacent_ws l : adjacent_ws (render l) = false.
Proof.
  rewrite render_scan.
  set (s := filter (fun c => negb (is_break c)) _).
  assert (H : adjacent_ws s = false).
  { apply filter_no_adjacent_ws; [exact not_break_ws |].
    apply scan_no_adjacent_ws. }
  destruct (trim_split s) as (x & y & E & _ & _).
  rewrite E in H.
  apply adjacent_ws_app in H as [_ H].
  now apply adjacent_ws_app in H as [H _].
Qed.

Lemma render_keeps_words l :
  filter not_ws (render l) = filter not_ws (concat l).
Proof.
  rewrite render_scan.
  set (s := filter (fun c => negb (is_break c)) _).
  assert (H : filter not_ws s = filter not_ws (concat l)).
  { unfold s. rewrite filter_keeps_words by exact not_break_ws.
    rewrite scan_keeps_words by exact I. apply filter_not_ws_join. }
  destruct (trim_split s) as (x & y & E & Hx & Hy).
  rewrite <- H. rewrite E at 2.
  rewrite !filter_app, (filter_not_ws_all_ws _ Hx),
    (filter_not_ws_all_ws _ Hy).
  now rewrite app_nil_r.
Qed.

Lemma render_run_is_space l1 l2 a w b :
  forallb is_ws w = true -> 2 <= length w ->
  render (l1 ++ (a ++ w ++ b) :: l2) = render (l1 ++ (a ++ SP :: b) :: l2).
Proof.
  intros Hw Hlen. rewrite !render_scan.
  destruct (join_context [SP] l1 l2) as (A & B & E).
  rewrite !E.
  replace (A ++ (a ++ w ++ b) ++ B) with ((A ++ a) ++ w ++ (b ++ B))
    by now rewrite <- !app_assoc.
  replace (A ++ (a ++ SP :: b) ++ B) with ((A ++ a) ++ SP :: (b ++ B))
    by (rewrite <- !app_assoc; reflexivity).
  now rewrite scan_run_is_space.
Qed.

Lemma render_join x y l :
  render (x :: y :: l) = render ((x ++ SP :: y) :: l).
Proof.
  unfold render. now rewrite join_merge.
Qed.

Lemma add_leaves :
  forall p this, add p this = (Normal tt, {| q := q this ++ leaves p |}).
Proof.
  fix IH 1. intros [s | elements] this.
  - reflexivity.
  - simpl. revert this.
    induction elements as [| e es IHes]; intros this.
    + simpl. rewrite app_nil_r. now destruct this.
    + simpl. unfold bind. rewrite IH, IHes. simpl.
      now rewrite app_assoc.
Qed.

End QueryBuilderFacts.

(* ================================================================== *)
(** ** Neo4j.toProps *)
(* ================================================================== *)

Section ToPropsFacts.

Import Neo4j.

Variable obj : list (jsstr * value).

Let unsupported : thrown := new_Error (lit "property type not supported").

Lemma typeof_never_array v : jsstr_eqb (typeof v) (lit "array") = false.
Proof. destruct v; reflexivity. Qed.

Lemma toProps_each_supported k ret :
  supported (get_property obj k) = true ->
  toProps_each obj k ret
  = (Normal tt, ret ++ [prop_pair k (get_property obj k)]).
Proof.
  unfold toProps_each.
  destruct (get_property obj k); try discriminate; reflexivity.
Qed.

Lemma toProps_each_unsupported k ret :
  supported (get_property obj k) = false ->
  toProps_each obj k ret = (Throw unsupported, ret).
Proof.
  unfold toProps_each.
  destruct (get_property obj k); try discriminate; reflexivity.
Qed.

Lemma forEach_supported keys ret :
  forallb (fun k => supported (get_property obj k)) keys = true ->
  forEach (toProps_each obj) keys ret
  = (Normal tt,
     ret ++ map (fun k => prop_pair k (get_property obj k)) keys).
Proof.
  revert ret. induction keys as [| k keys IH]; intros ret H.
  - simpl. now rewrite app_nil_r.
  - simpl in H. apply andb_true_iff in H as [Hk Hs].
    simpl. unfold bind. rewrite toProps_each_supported by exact Hk.
    rewrite IH by exact Hs. now rewrite <- app_assoc.
Qed.

Lemma forEach_unsupported keys ret :
  forallb (fun k => supported (get_property obj k)) keys = false ->
  fst (forEach (toProps_each obj) keys ret) = Throw unsupported.
Proof.
  revert ret. induction keys as [| k keys IH]; intros ret H.
  - discriminate.
  - simpl in H. simpl. unfold bind.
    destruct (supported (get_property obj k)) eqn:Hk.
    + rewrite toProps_each_supported by exact Hk. now apply IH.
    + now rewrite toProps_each_unsupported by exact Hk.
Qed.

Lemma toProps_cases :
  toProps obj =
  if forallb (fun k => supported (get_property obj k)) (Object_keys obj)
  then Normal (join (lit ", ")
                 (map (fun k => prop_pair k (get_property obj k))
                    (Object_keys obj)))
  else Throw unsupported.
Proof.
  unfold toProps.
  destruct (forallb _ (Object_keys obj)) eqn:H.
  - now rewrite forEach_supported.
  - pose proof (forEach_unsupported _ [] H) as E.
    destruct (forEach _ _ _) as [[a | e] ret]; simpl in E; congruence.
Qed.

Lemma toProps_throws k :
  In k (Object_keys obj) ->
  supported (get_property obj k) = false ->
  toProps obj = Throw unsupported.
Proof.
  intros Hin Hk. rewrite toProps_cases.
  destruct (forallb _ _) eqn:H; [| reflexivity].
  rewrite forallb_forall in H. specialize (H k Hin). congruence.
Qed.

End ToPropsFacts.

(* ================================================================== *)
(** ** The request body *)
(* ================================================================== *)

Section BodyFacts.

Ltac norm_app := repeat (rewrite <- app_assoc; simpl); simpl.

Lemma stringify_statement s :
  JSON.stringify (Statement_value s) = Some (entry_json s).
Proof.
  unfold Statement_value, entry_json. cbn.
  destruct (JSON.stringify (parameters s)) as [x |]; cbn;
    unfold JSON.quote; norm_app; reflexivity.
Qed.

(** The body lists the statements in the order of [this.statements]. *)
Lemma statements_body_json l :
  statements_body l = Some (body_json (map entry_json l)).
Proof.
  unfold statements_body, body_json. cbn. f_equal.
  rewrite map_map.
  rewrite (map_ext _ entry_json)
    by (intros s; now rewrite stringify_statement).
  unfold JSON.quote. norm_app. reflexivity.
Qed.

End BodyFacts.

(* ================================================================== *)
(** ** The Transaction of index.js *)
(* ================================================================== *)

Module IndexFacts.

Import Index IndexTerms.

Ltac run :=
  unfold execute, executor, settle, on_response, on_json, on_commit,
    on_error, call_fetch, set_used, set_result, emit, on_this, addQuery,
    try_catch, bind, await, throw, modify, get, put, ret;
  cbn.

Section Transport.

Variable fetch : request -> completion response.

Lemma fetch_executor_spec t :
  executor fetch (enter t)
  = (Normal (fetch (options (enter t))),
     {| this := mark_used t;
        local_headers := request_headers (auth t);
        options := options (enter t);
        result := VObject [];
        trace := [Request (options (enter t)); UsedSet true] |}).
Proof. reflexivity. Qed.

Lemma fetch_addQuery_used qb params t :
  used t = true -> addQuery qb params t = (Throw reuse_error, t).
Proof. run. now intros ->. Qed.

Lemma fetch_addQuery_unused qb params t :
  used t = false ->
  addQuery qb params t
  = (Normal tt,
     {| used := false; auth := auth t;
        transactionUrl := transactionUrl t;
        statements := statements t
          ++ [{| statement := QueryBuilder.render (QueryBuilder.q qb);
                 parameters := params |}] |}).
Proof. run. now intros ->. Qed.

Lemma fetch_add_all_unused calls t :
  used t = false ->
  add_all calls t
  = (Normal tt,
     {| used := false; auth := auth t;
        transactionUrl := transactionUrl t;
        statements := statements t ++ map statement_of calls |}).
Proof.
  revert t. induction calls as [| c calls IH]; intros t Ht.
  - simpl. rewrite app_nil_r. destruct t; simpl in *. now subst.
  - unfold add_all in *. simpl. unfold bind.
    rewrite fetch_addQuery_unused by exact Ht.
    rewrite IH by reflexivity. simpl.
    now rewrite <- app_assoc.
Qed.

Lemma fetch_addQuery_frame qb params f :
  used (this f) = true ->
  on_this (addQuery qb params) f = (Throw reuse_error, f).
Proof.
  intros H. unfold on_this. rewrite fetch_addQuery_used by exact H.
  now destruct f.
Qed.


Lemma fetch_status_good z : z = 200%Z \/ z = 201%Z -> status_ok z = true.
Proof. intros [-> | ->]; reflexivity. Qed.

Lemma fetch_on_response_this res f : this (snd (on_response fetch res f)) = this f.
Proof. run. now destruct (_ && _). Qed.

Lemma fetch_on_json_this js f : this (snd (on_json fetch js f)) = this f.
Proof. run. now destruct (errors js). Qed.

Lemma fetch_on_commit_this res f : this (snd (on_commit res f)) = this f.
Proof. run. now destruct (_ =? _)%Z. Qed.

Lemma fetch_on_error_this e f : this (snd (on_error e f)) = this f.
Proof. reflexivity. Qed.

Lemma fetch_settle_this p f : this (snd (settle fetch p f)) = this f.
Proof.
  run. destruct p as [res | e]; [| reflexivity].
  destruct (_ && _); [reflexivity |].
  destruct (json res) as [js | e]; [| reflexivity].
  destruct (errors js); [| reflexivity]. cbn.
  destruct (fetch _) as [res' | e]; [| reflexivity]. cbn.
  now destruct (_ =? _)%Z.
Qed.

Lemma fetch_settle_trace p f :
  exists later, trace (snd (settle fetch p f)) = trace f ++ later.
Proof.
  run. destruct p as [res | e]; [| exists []; now rewrite app_nil_r].
  destruct (_ && _); [eexists; reflexivity |].
  destruct (json res) as [js | e]; [| exists []; now rewrite app_nil_r].
  destruct (errors js); [| exists []; now rewrite app_nil_r]. cbn.
  destruct (fetch _) as [res' | e]; [| eexists; reflexivity]. cbn.
  destruct (_ =? _)%Z; eexists; reflexivity.
Qed.

Lemma fetch_execute_first_request t :
  exists later,
    trace (snd (execute fetch t))
    = Request (options (enter t)) :: UsedSet true :: later.
Proof.
  unfold execute, bind. rewrite fetch_executor_spec.
  destruct (fetch_settle_trace (fetch (options (enter t)))
              {| this := mark_used t;
                 local_headers := request_headers (auth t);
                 options := options (enter t);
                 result := VObject [];
                 trace := [Request (options (enter t)); UsedSet true] |})
    as (later & E).
  exists later. exact E.
Qed.

Lemma fetch_execute_used t : used (this (snd (execute fetch t))) = true.
Proof.
  unfold execute, bind. rewrite fetch_executor_spec. now rewrite fetch_settle_this.
Qed.

Ltac answered H :=
  unfold execute, bind; rewrite fetch_executor_spec;
  unfold settle, try_catch, bind, await; rewrite H.

Lemma fetch_execute_no_answer t e :
  fetch (options (enter t)) = Throw e ->
  execute fetch t
  = (Normal (Rejected (new_Error (String_of_thrown e))),
     settled_frame t (VObject []) []).
Proof. intros H. answered H. reflexivity. Qed.

Lemma fetch_execute_bad_status t res :
  fetch (options (enter t)) = Normal res ->
  status_ok (status res) = false ->
  execute fetch t
  = (Normal (Rejected
               (new_Error (Error_toString (lit "Error") (statusText res)))),
     settled_frame t (VObject []) [Request (delete_request t)]).
Proof.
  intros H Hs. unfold status_ok in Hs.
  apply orb_false_iff in Hs as [H1 H2].
  answered H. run. rewrite H1, H2. reflexivity.
Qed.

Lemma fetch_execute_bad_body t res e :
  fetch (options (enter t)) = Normal res ->
  status_ok (status res) = true ->
  json res = Throw e ->
  execute fetch t
  = (Normal (Rejected (new_Error (String_of_thrown e))),
     settled_frame t (VObject []) []).
Proof.
  intros H Hs Hj. unfold status_ok in Hs.
  answered H. run.
  replace (negb (status res =? HTTP_OK)%Z
           && negb (status res =? HTTP_CREATED)%Z) with false
    by (rewrite <- negb_orb, Hs; reflexivity).
  rewrite Hj. reflexivity.
Qed.

Lemma fetch_execute_statement_error t res js e rest :
  fetch (options (enter t)) = Normal res ->
  status_ok (status res) = true ->
  json res = Normal js ->
  errors js = e :: rest ->
  execute fetch t
  = (Normal (Rejected (new_Error (message e))),
     settled_frame t (VObject []) []).
Proof.
  intros H Hs Hj He. unfold status_ok in Hs.
  answered H. run.
  replace (negb (status res =? HTTP_OK)%Z
           && negb (status res =? HTTP_CREATED)%Z) with false
    by (rewrite <- negb_orb, Hs; reflexivity).
  rewrite Hj, He. reflexivity.
Qed.

Lemma fetch_execute_commit t res js :
  fetch (options (enter t)) = Normal res ->
  status_ok (status res) = true ->
  json res = Normal js ->
  errors js = [] ->
  execute fetch t
  = (Normal
       match fetch (commit_request t js) with
       | Normal res' =>
           if (status res' =? HTTP_OK)%Z then Resolved (results js)
           else Rejected (new_Error (lit "Error: commit failed"))
       | Throw e => Rejected (new_Error (String_of_thrown e))
       end,
     settled_frame t (results js) [Request (commit_request t js)]).
Proof.
  intros H Hs Hj He. unfold status_ok in Hs.
  answered H. run.
  replace (negb (status res =? HTTP_OK)%Z
           && negb (status res =? HTTP_CREATED)%Z) with false
    by (rewrite <- negb_orb, Hs; reflexivity).
  rewrite Hj, He. cbn. unfold commit_request. clear H.
  destruct (fetch _) as [res' | e]; [| reflexivity].
  cbn. now destruct (status res' =? HTTP_OK)%Z.
Qed.

End Transport.

End IndexFacts.

(* ================================================================== *)
(** ** The Transaction of transaction.js *)
(* ================================================================== *)

Module TransactionJsFacts.

Import TransactionJs TransactionJsTerms.

Ltac run :=
  unfold execute, executor, settle, on_response, on_json, on_commit,
    on_error, call_send, Object_assign_options, set_used, set_result, emit,
    on_this, addQuery, try_catch, bind, await, returned, throw, modify, get,
put, ret;
  cbn.

Section Transport.

Variable send : request -> completion response.

Lemma send_executor_spec t :
  executor send (enter t)
  = (Normal (send (options (enter t))),
     settled_frame t (options (enter t)) (VObject []) []).
Proof. reflexivity. Qed.

Lemma send_addQuery_used qb params t :
  used t = true -> addQuery qb params t = (Throw reuse_error, t).
Proof. run. now intros ->. Qed.

Lemma send_addQuery_unused qb params t :
  used t = false ->
  addQuery qb params t
  = (Normal tt,
     {| used := false; auth := auth t; host := host t; port := port t;
        statements := statements t ++ [statement_of (qb, params)] |}).
Proof. run. now intros ->. Qed.

Lemma send_add_all_unused calls t :
  used t = false ->
  add_all calls t
  = (Normal tt,
     {| used := false; auth := auth t; host := host t; port := port t;
        statements := statements t ++ map statement_of calls |}).
Proof.
  revert t. induction calls as [| c calls IH]; intros t Ht.
  - simpl. rewrite app_nil_r. destruct t; simpl in *. now subst.
  - unfold add_all in *. simpl. unfold bind.
    rewrite send_addQuery_unused by exact Ht.
    rewrite IH by reflexivity. simpl.
    rewrite <- app_assoc. now destruct c.
Qed.

Lemma send_addQuery_frame qb params f :
  used (this f) = true ->
  on_this (addQuery qb params) f = (Throw reuse_error, f).
Proof.
  intros H. unfold on_this. rewrite send_addQuery_used by exact H.
  now destruct f.
Qed.

Lemma send_status_bad z : z <> 200%Z -> z <> 201%Z -> status_ok z = false.
Proof.
  intros H1 H2. unfold status_ok, HTTP_OK, HTTP_CREATED.
  apply orb_false_iff. split; now apply Z.eqb_neq.
Qed.

Lemma send_status_good z : z = 200%Z \/ z = 201%Z -> status_ok z = true.
Proof. intros [-> | ->]; reflexivity. Qed.

Lemma send_on_response_this res f : this (snd (on_response send res f)) = this f.
Proof. run. now destruct (_ && _). Qed.

Lemma send_on_json_this js f : this (snd (on_json send js f)) = this f.
Proof. run. now destruct (errors js). Qed.

Lemma send_on_commit_this res f : this (snd (on_commit res f)) = this f.
Proof. run. now destruct (_ =? _)%Z. Qed.

Lemma send_on_error_this e f : this (snd (on_error e f)) = this f.
Proof. reflexivity. Qed.

Lemma send_settle_this p f : this (snd (settle send p f)) = this f.
Proof.
  run. destruct p as [res | e]; [| reflexivity].
  destruct (_ && _); [reflexivity |].
  destruct (payLoad res) as [js | e]; [| reflexivity].
  destruct (errors js); [| reflexivity]. cbn.
  destruct (send _) as [res' | e]; [| reflexivity]. cbn.
  now destruct (_ =? _)%Z.
Qed.

Lemma send_settle_trace p f :
  exists later, trace (snd (settle send p f)) = trace f ++ later.
Proof.
  run. destruct p as [res | e]; [| exists []; now rewrite app_nil_r].
  destruct (_ && _); [eexists; reflexivity |].
  destruct (payLoad res) as [js | e]; [| exists []; now rewrite app_nil_r].
  destruct (errors js); [| exists []; now rewrite app_nil_r]. cbn.
  destruct (send _) as [res' | e]; [| eexists; reflexivity]. cbn.
  destruct (_ =? _)%Z; eexists; reflexivity.
Qed.

Lemma send_execute_first_request t :
  exists later,
    trace (snd (execute send t))
    = Request (options (enter t)) :: UsedSet true :: later.
Proof.
  unfold execute, bind. rewrite send_executor_spec.
  destruct (send_settle_trace (send (options (enter t)))
              (settled_frame t (options (enter t)) (VObject []) []))
    as (later & E).
  exists later. exact E.
Qed.

Lemma send_execute_used t : used (this (snd (execute send t))) = true.
Proof.
  unfold execute, bind. rewrite send_executor_spec. now rewrite send_settle_this.
Qed.

Ltac answered H :=
  unfold execute, bind; rewrite send_executor_spec;
  unfold settle, try_catch, bind, await; rewrite H.

Ltac good_status Hs :=
  unfold status_ok in Hs;
  replace (negb (_ =? HTTP_OK)%Z && negb (_ =? HTTP_CREATED)%Z)
    with false by (rewrite <- negb_orb, Hs; reflexivity).

Lemma send_execute_no_answer t e :
  send (options (enter t)) = Throw e ->
  execute send t
  = (Normal (Rejected (new_Error (String_of_thrown e))),
     settled_frame t (options (enter t)) (VObject []) []).
Proof. intros H. answered H. reflexivity. Qed.

Lemma send_execute_bad_status t res :
  send (options (enter t)) = Normal res ->
  status_ok (statusCode res) = false ->
  execute send t
  = (Normal (Rejected
               (new_Error
                  (lit "Error: Query failed to return OK or CREATED"))),
     settled_frame t (delete_request t) (VObject [])
       [Request (delete_request t)]).
Proof.
  intros H Hs. unfold status_ok in Hs.
  apply orb_false_iff in Hs as [H1 H2].
  answered H. run. rewrite H1, H2. reflexivity.
Qed.

Lemma send_execute_bad_body t res e :
  send (options (enter t)) = Normal res ->
  status_ok (statusCode res) = true ->
  payLoad res = Throw e ->
  execute send t
  = (Normal (Rejected (new_Error (String_of_thrown e))),
     settled_frame t (options (enter t)) (VObject []) []).
Proof.
  intros H Hs Hj. answered H. run. good_status Hs.
  rewrite Hj. reflexivity.
Qed.

Lemma send_execute_statement_error t res js e rest :
  send (options (enter t)) = Normal res ->
  status_ok (statusCode res) = true ->
  payLoad res = Normal js ->
  errors js = e :: rest ->
  execute send t
  = (Normal (Rejected (new_Error (message e))),
     settled_frame t (options (enter t)) (VObject []) []).
Proof.
  intros H Hs Hj He. answered H. run. good_status Hs.
  rewrite Hj, He. reflexivity.
Qed.

Lemma send_execute_commit t res js :
  send (options (enter t)) = Normal res ->
  status_ok (statusCode res) = true ->
  payLoad res = Normal js ->
  errors js = [] ->
  execute send t
  = (Normal
       match send (commit_request t js) with
       | Normal res' =>
           if (statusCode res' =? HTTP_OK)%Z then Resolved (results js)
           else Rejected
                  (new_Error (lit "Error: Transaction commit failed"))
       | Throw e => Rejected (new_Error (String_of_thrown e))
       end,
     settled_frame t (commit_request t js) (results js)
       [Request (commit_request t js)]).
Proof.
  intros H Hs Hj He. answered H. run. good_status Hs.
  rewrite Hj, He. cbn. unfold commit_request. clear H.
  destruct (send _) as [res' | e]; [| reflexivity].
  cbn. now destruct (statusCode res' =? HTTP_OK)%Z.
Qed.

End Transport.

End TransactionJsFacts.

(* ================================================================== *)
(** ** The query builder: properties *)
(* ================================================================== *)

(** C8.  [toString] reads [this.q] and writes nothing: called twice in a
    row it returns the same string both times, and the builder is the one
    it was before. *)
Theorem toString_pure (this : QueryBuilder.t) :
  (s1 <- QueryBuilder.toString ;;
   s2 <- QueryBuilder.toString ;;
   ret (s1, s2)) this
  = (Normal (QueryBuilder.render (QueryBuilder.q this),
             QueryBuilder.render (QueryBuilder.q this)),
     this).
Proof. reflexivity. Qed.

(** C9.  [add] appends the fragments of its argument, however nested, in
    left-to-right order, and never throws; [add(["A", ["B", "C"]])] leaves
    the builder as [add("A")], [add("B")], [add("C")] in a row do. *)
Theorem add_flattens (p : QueryBuilder.partial) (this : QueryBuilder.t)
        (A B C : jsstr) :
  QueryBuilder.add p this
  = (Normal tt, {| QueryBuilder.q := QueryBuilder.q this ++ leaves p |})
  /\ QueryBuilder.add
       (QueryBuilder.Array
          [QueryBuilder.Fragment A;
           QueryBuilder.Array [QueryBuilder.Fragment B;
                               QueryBuilder.Fragment C]]) this
     = (QueryBuilder.add (QueryBuilder.Fragment A) ;;
        QueryBuilder.add (QueryBuilder.Fragment B) ;;
        QueryBuilder.add (QueryBuilder.Fragment C)) this.
Proof.
  split; [apply add_leaves |].
  rewrite add_leaves. unfold bind. rewrite !add_leaves. simpl.
  now rewrite <- !app_assoc.
Qed.

(* ================================================================== *)
(** ** toProps: properties *)
(* ================================================================== *)

(** C10.  When every property of [obj] holds a string, a number or a
    boolean, [toProps] returns the [key:value] pairs, strings in double
    quotes, joined by [", "]; otherwise it throws
    [Error("property type not supported")].  A number, whichever double it
    is, is written the way the conversion to string writes it.  No value
    has the [typeof] ["array"], so a property that holds an array makes
    [toProps] throw. *)
Theorem toProps_supported_or_throws (obj : list (jsstr * value))
        (k : jsstr) (elements : list value) :
  Neo4j.toProps obj
  = (if forallb (fun k => supported (get_property obj k)) (Object_keys obj)
     then Normal (join (lit ", ")
                    (map (fun k => prop_pair k (get_property obj k))
                       (Object_keys obj)))
     else Throw (new_Error (lit "property type not supported")))
  /\ (forall key x,
        Neo4j.toProps [(key, VNumber x)]
        = Normal (key ++ lit ":" ++ Number_toString x))
  /\ (forall v, jsstr_eqb (typeof v) (lit "array") = false)
  /\ (In k (Object_keys obj) ->
      get_property obj k = VArray elements ->
      Neo4j.toProps obj
      = Throw (new_Error (lit "property type not supported"))).
Proof.
  split; [apply toProps_cases |].
  split.
  { intros key x. rewrite toProps_cases.
    cbn [Object_keys map fst forallb get_property].
    rewrite jsstr_eqb_refl. reflexivity. }
  split; [exact typeof_never_array |].
  intros Hin Hk. apply toProps_throws with (k := k); [exact Hin |].
  now rewrite Hk.
Qed.

Lemma toProps_supported_or_throws_witness :
  In (lit "tags")
    (Object_keys [(lit "uid", VString (lit "134"));
                  (lit "tags", VArray [VString (lit "a")])])
  /\ get_property [(lit "uid", VString (lit "134"));
                   (lit "tags", VArray [VString (lit "a")])] (lit "tags")
     = VArray [VString (lit "a")]
  /\ Neo4j.toProps [(lit "uid", VString (lit "134"));
                    (lit "tags", VArray [VString (lit "a")])]
     = Throw (new_Error (lit "property type not supported"))
  /\ Neo4j.toProps [(lit "uid", VString (lit "134"));
                    (lit "age", VNumber 42);
                    (lit "admin", VBoolean true)]
     = Normal (lit "uid:" ++ [DQUOTE] ++ lit "134" ++ [DQUOTE]
               ++ lit ", age:42, admin:true")
  /\ Neo4j.toProps [(lit "n", VNumber (10 ^ 21));
                    (lit "half", VNumber (Finite 1 1));
                    (lit "debt", VNumber (Finite (-3) 1));
                    (lit "none", VNumber NaN);
                    (lit "all", VNumber (Infinity false))]
     = Normal (lit "n:1e+21, half:0.5, debt:-1.5, none:NaN, all:Infinity").
Proof.
  assert (Hin : In (lit "tags")
                  (Object_keys [(lit "uid", VString (lit "134"));
                                (lit "tags", VArray [VString (lit "a")])]))
    by (right; left; reflexivity).
  split; [exact Hin |]. split; [reflexivity |].
  split; [| split].
  - exact (proj2 (proj2 (proj2 (@toProps_supported_or_throws
                           [(lit "uid", VString (lit "134"));
                            (lit "tags", VArray [VString (lit "a")])]
                           (lit "tags") [VString (lit "a")])))
             Hin eq_refl).
  - rewrite (proj1 (@toProps_supported_or_throws
                      [(lit "uid", VString (lit "134"));
                       (lit "age", VNumber 42);
                       (lit "admin", VBoolean true)] [] [])).
    reflexivity.
  - rewrite (proj1 (@toProps_supported_or_throws
                      [(lit "n", VNumber (10 ^ 21));
                       (lit "half", VNumber (Finite 1 1));
                       (lit "debt", VNumber (Finite (-3) 1));
                       (lit "none", VNumber NaN);
                       (lit "all", VNumber (Infinity false))] [] [])).
    vm_compute. reflexivity.
Defined.

(** The conversion of numbers to strings at some doubles: integers up to
    [10^21] in full, larger ones and small fractions with an exponent, the
    shortest digits that read back as the same double. *)
Example Number_toString_samples :
  map Number_toString
    [Finite 42 0; Finite (-7) 0; Finite 0 0; NegZero;
     Finite 1 1; Finite 3602879701896397 55; Finite 1351079888211149 52;
     Finite (2 ^ 53) 0; Finite 123456789012345683968 0;
     Finite (10 ^ 21) 0; Finite (10 ^ 22) 0;
     Finite 4722366482869645 72; Finite 944473296573929 73;
     Finite 1 1074; Finite (2 ^ 1024 - 2 ^ 971) 0;
     NaN; Infinity false; Infinity true]
  = map lit
      ["42"; "-7"; "0"; "0";
       "0.5"; "0.1"; "0.30000000000000004";
       "9007199254740992"; "123456789012345680000";
       "1e+21"; "1e+22";
       "0.000001"; "1e-7";
       "5e-324"; "1.7976931348623157e+308";
       "NaN"; "Infinity"; "-Infinity"]%string
  /\ forallb Number.is_double
       [Finite 42 0; Finite 1 1; Finite 3602879701896397 55;
        Finite (2 ^ 53) 0; Finite 1 1074; Finite (2 ^ 1024 - 2 ^ 971) 0]
     = true
  /\ map Number.is_double
       [Finite (2 ^ 53 + 1) 0; Finite 1 1075; Finite (2 ^ 1024) 0]
     = [false; false; false]
  /\ map Number_toString
       [Finite (2 ^ 53 + 1) 0; Finite 1 1075; Finite (2 ^ 1024) 0]
     = map lit ["9007199254740992"; "0"; "Infinity"]%string.
Proof. vm_compute. repeat split. Qed.

(* ================================================================== *)
(** ** The transaction protocol: properties *)
(* ================================================================== *)

(** C1, as stated, fails: at the sample inputs, in both classes, the first
    request is issued while [this.used] is still [false]; the commit request is issued with
    [this.used] already [true]. *)
Lemma used_still_false_at_first_request :
  Index.used_at_requests (Index.used Sample.transaction)
    (Index.trace
       (snd (Index.execute
               (IndexTerms.mock (Normal Sample.created) (Normal Sample.ok))
               Sample.transaction)))
  = [false; true]
  /\ TransactionJs.used_at_requests (TransactionJs.used Sample.transaction')
       (TransactionJs.trace
          (snd (TransactionJs.execute
                  (TransactionJsTerms.mock (Normal Sample.created')
                     (Normal Sample.ok'))
                  Sample.transaction')))
     = [false; true].
Proof. split; reflexivity. Qed.

(** C1, amended.  The call of [execute] issues the first request and then
    sets [this.used], both inside the executor, that is before [execute]
    returns and before any answer is handled: the request is issued with
    [this.used] as it was, and when the executor is done [this.used] is
    [true].  From then on [addQuery] throws the reuse error and changes
    nothing, whether called while the first request is in flight, between
    two handlers (no handler writes [this]) or after the promise is
    settled. *)
Theorem used_set_before_execute_returns :
  (forall fetch t qb params,
      let f := snd (Index.executor fetch (Index.enter t)) in
      Index.trace f
      = [Index.Request (Index.options (Index.enter t)); Index.UsedSet true]
      /\ Index.used_at_requests (Index.used t) (Index.trace f)
         = [Index.used t]
      /\ Index.used (Index.this f) = true
      /\ Index.on_this (Index.addQuery qb params) f
         = (Throw IndexTerms.reuse_error, f)
      /\ (forall res g,
             Index.this (snd (Index.on_response fetch res g)) = Index.this g)
      /\ (forall js g,
             Index.this (snd (Index.on_json fetch js g)) = Index.this g)
      /\ (forall res g,
             Index.this (snd (Index.on_commit res g)) = Index.this g)
      /\ (forall e g, Index.this (snd (Index.on_error e g)) = Index.this g)
      /\ Index.on_this (Index.addQuery qb params)
           (snd (Index.execute fetch t))
         = (Throw IndexTerms.reuse_error, snd (Index.execute fetch t)))
  /\ (forall send t qb params,
         let f := snd (TransactionJs.executor send (TransactionJs.enter t)) in
         TransactionJs.trace f
         = [TransactionJs.Request (TransactionJs.options (TransactionJs.enter t));
            TransactionJs.UsedSet true]
         /\ TransactionJs.used_at_requests (TransactionJs.used t)
              (TransactionJs.trace f)
            = [TransactionJs.used t]
         /\ TransactionJs.used (TransactionJs.this f) = true
         /\ TransactionJs.on_this (TransactionJs.addQuery qb params) f
            = (Throw TransactionJsTerms.reuse_error, f)
         /\ (forall res g,
                TransactionJs.this (snd (TransactionJs.on_response send res g))
                = TransactionJs.this g)
         /\ (forall js g,
                TransactionJs.this (snd (TransactionJs.on_json send js g))
                = TransactionJs.this g)
         /\ (forall res g,
                TransactionJs.this (snd (TransactionJs.on_commit res g))
                = TransactionJs.this g)
         /\ (forall e g,
                TransactionJs.this (snd (TransactionJs.on_error e g))
                = TransactionJs.this g)
         /\ TransactionJs.on_this (TransactionJs.addQuery qb params)
              (snd (TransactionJs.execute send t))
            = (Throw TransactionJsTerms.reuse_error,
               snd (TransactionJs.execute send t))).
Proof.
  split.
  - intros fetch t qb params f. subst f.
    rewrite IndexFacts.fetch_executor_spec. cbn [snd Index.trace Index.this].
    repeat split.
    + apply IndexFacts.fetch_on_response_this.
    + apply IndexFacts.fetch_on_json_this.
    + apply IndexFacts.fetch_on_commit_this.
    + apply IndexFacts.fetch_addQuery_frame, IndexFacts.fetch_execute_used.
  - intros send t qb params f. subst f.
    rewrite TransactionJsFacts.send_executor_spec.
    cbn [snd TransactionJs.trace TransactionJs.this
           TransactionJsTerms.settled_frame].
    repeat split.
    + apply TransactionJsFacts.send_on_response_this.
    + apply TransactionJsFacts.send_on_json_this.
    + apply TransactionJsFacts.send_on_commit_this.
    + apply TransactionJsFacts.send_addQuery_frame,
        TransactionJsFacts.send_execute_used.
Qed.




(** C3.  When the first answer has status 200 or 201 and its body lists
    errors, [execute] rejects with an [Error] whose message is the message
    of the first of them, and the only request it has issued is the first
    one: there is no DELETE. *)
Theorem execute_statement_errors :
  (forall fetch t res js e rest,
      fetch (Index.options (Index.enter t)) = Normal res ->
      Index.status res = 200%Z \/ Index.status res = 201%Z ->
      Index.json res = Normal js ->
      errors js = e :: rest ->
      let r := Index.execute fetch t in
      fst r = Normal (Rejected (new_Error (message e)))
      /\ Index.trace (snd r)
         = [Index.Request (Index.options (Index.enter t)); Index.UsedSet true]
      /\ Index.requests (Index.trace (snd r))
         = [Index.options (Index.enter t)])
  /\ (forall send t res js e rest,
         send (TransactionJs.options (TransactionJs.enter t)) = Normal res ->
         TransactionJs.statusCode res = 200%Z
         \/ TransactionJs.statusCode res = 201%Z ->
         TransactionJs.payLoad res = Normal js ->
         errors js = e :: rest ->
         let r := TransactionJs.execute send t in
         fst r = Normal (Rejected (new_Error (message e)))
         /\ TransactionJs.trace (snd r)
            = [TransactionJs.Request
                 (TransactionJs.options (TransactionJs.enter t));
               TransactionJs.UsedSet true]
         /\ TransactionJs.requests (TransactionJs.trace (snd r))
            = [TransactionJs.options (TransactionJs.enter t)]).
Proof.
  split.
  - intros fetch t res js e rest H Hs Hj He r. subst r.
    rewrite (IndexFacts.fetch_execute_statement_error fetch t H
               (IndexFacts.fetch_status_good Hs) Hj He).
    repeat split.
  - intros send t res js e rest H Hs Hj He r. subst r.
    rewrite (TransactionJsFacts.send_execute_statement_error send t H
               (TransactionJsFacts.send_status_good Hs) Hj He).
    repeat split.
Qed.

Lemma execute_statement_errors_witness :
  (IndexTerms.mock (Normal Sample.created_with_errors) (Normal Sample.ok)
     (Index.options (Index.enter Sample.transaction))
   = Normal Sample.created_with_errors
   /\ (Index.status Sample.created_with_errors = 200%Z
       \/ Index.status Sample.created_with_errors = 201%Z)
   /\ Index.json Sample.created_with_errors = Normal Sample.answer_with_errors
   /\ fst (Index.execute
             (IndexTerms.mock (Normal Sample.created_with_errors)
                (Normal Sample.ok))
             Sample.transaction)
      = Normal (Rejected (new_Error (lit "Invalid input"))))
  /\ (TransactionJsTerms.mock (Normal Sample.created_with_errors')
        (Normal Sample.ok')
        (TransactionJs.options (TransactionJs.enter Sample.transaction'))
      = Normal Sample.created_with_errors'
      /\ (TransactionJs.statusCode Sample.created_with_errors' = 200%Z
          \/ TransactionJs.statusCode Sample.created_with_errors' = 201%Z)
      /\ TransactionJs.payLoad Sample.created_with_errors'
         = Normal Sample.answer_with_errors
      /\ fst (TransactionJs.execute
                (TransactionJsTerms.mock (Normal Sample.created_with_errors')
                   (Normal Sample.ok'))
                Sample.transaction')
         = Normal (Rejected (new_Error (lit "Invalid input")))).
Proof.
  split.
  - split; [reflexivity |]. split; [right; reflexivity |].
    split; [reflexivity |].
    exact (proj1 (proj1 execute_statement_errors
                    (IndexTerms.mock (Normal Sample.created_with_errors)
                       (Normal Sample.ok))
                    Sample.transaction Sample.created_with_errors
                    Sample.answer_with_errors _ _
                    eq_refl (or_intror eq_refl) eq_refl eq_refl)).
  - split; [reflexivity |]. split; [right; reflexivity |].
    split; [reflexivity |].
    exact (proj1 (proj2 execute_statement_errors
                    (TransactionJsTerms.mock
                       (Normal Sample.created_with_errors')
                       (Normal Sample.ok'))
                    Sample.transaction' Sample.created_with_errors'
                    Sample.answer_with_errors _ _
                    eq_refl (or_intror eq_refl) eq_refl eq_refl)).
Defined.

(** C4.  When the first answer has status 200 or 201 and its body lists no
    error, [execute] keeps [results] in [result] and issues one more
    request, a POST to the [commit] URL of the answer.  If the answer to
    that has status 200 the promise is resolved with the [results] kept; if
    it has any other status the promise is rejected with an [Error] that
    says the commit failed. *)
Theorem execute_commits :
  (forall fetch t res js,
      fetch (Index.options (Index.enter t)) = Normal res ->
      Index.status res = 200%Z \/ Index.status res = 201%Z ->
      Index.json res = Normal js ->
      errors js = [] ->
      let r := Index.execute fetch t in
      Index.result (snd r) = results js
      /\ Index.requests (Index.trace (snd r))
         = [Index.options (Index.enter t); IndexTerms.commit_request t js]
      /\ Index.url (IndexTerms.commit_request t js) = commit js
      /\ Index.method (IndexTerms.commit_request t js) = lit "post"
      /\ (forall res',
             fetch (IndexTerms.commit_request t js) = Normal res' ->
             Index.status res' = 200%Z ->
             fst r = Normal (Resolved (results js)))
      /\ (forall res',
             fetch (IndexTerms.commit_request t js) = Normal res' ->
             Index.status res' <> 200%Z ->
             fst r
             = Normal (Rejected (new_Error (lit "Error: commit failed")))))
  /\ (forall send t res js,
         send (TransactionJs.options (TransactionJs.enter t)) = Normal res ->
         TransactionJs.statusCode res = 200%Z
         \/ TransactionJs.statusCode res = 201%Z ->
         TransactionJs.payLoad res = Normal js ->
         errors js = [] ->
         let r := TransactionJs.execute send t in
         TransactionJs.result (snd r) = results js
         /\ TransactionJs.requests (TransactionJs.trace (snd r))
            = [TransactionJs.options (TransactionJs.enter t);
               TransactionJsTerms.commit_request t js]
         /\ TransactionJs.path (TransactionJsTerms.commit_request t js)
            = commit js
         /\ TransactionJs.method (TransactionJsTerms.commit_request t js)
            = lit "post"
         /\ (forall res',
                send (TransactionJsTerms.commit_request t js) = Normal res' ->
                TransactionJs.statusCode res' = 200%Z ->
                fst r = Normal (Resolved (results js)))
         /\ (forall res',
                send (TransactionJsTerms.commit_request t js) = Normal res' ->
                TransactionJs.statusCode res' <> 200%Z ->
                fst r
                = Normal (Rejected
                            (new_Error
                               (lit "Error: Transaction commit failed"))))).
Proof.
  split.
  - intros fetch t res js H Hs Hj He r. subst r.
    rewrite (IndexFacts.fetch_execute_commit fetch t H
               (IndexFacts.fetch_status_good Hs) Hj He).
    cbn [fst snd]. repeat split.
    + intros res' -> E. unfold Index.HTTP_OK. now rewrite E.
    + intros res' -> E. apply Z.eqb_neq in E.
      unfold Index.HTTP_OK. now rewrite E.
  - intros send t res js H Hs Hj He r. subst r.
    rewrite (TransactionJsFacts.send_execute_commit send t H
               (TransactionJsFacts.send_status_good Hs) Hj He).
    cbn [fst snd]. repeat split.
    + intros res' -> E. unfold TransactionJs.HTTP_OK. now rewrite E.
    + intros res' -> E. apply Z.eqb_neq in E.
      unfold TransactionJs.HTTP_OK. now rewrite E.
Qed.

Lemma execute_commits_witness :
  (IndexTerms.mock (Normal Sample.created) (Normal Sample.ok)
     (Index.options (Index.enter Sample.transaction))
   = Normal Sample.created
   /\ (Index.status Sample.created = 200%Z
       \/ Index.status Sample.created = 201%Z)
   /\ Index.json Sample.created = Normal Sample.answer
   /\ errors Sample.answer = []
   /\ Index.status Sample.ok = 200%Z
   /\ fst (Index.execute
             (IndexTerms.mock (Normal Sample.created) (Normal Sample.ok))
             Sample.transaction)
      = Normal (Resolved (results Sample.answer))
   /\ Index.status Sample.not_found <> 200%Z
   /\ fst (Index.execute
             (IndexTerms.mock (Normal Sample.created)
                (Normal Sample.not_found))
             Sample.transaction)
      = Normal (Rejected (new_Error (lit "Error: commit failed"))))
  /\ (TransactionJsTerms.mock (Normal Sample.created')
        (Normal Sample.not_found')
        (TransactionJs.options (TransactionJs.enter Sample.transaction'))
      = Normal Sample.created'
      /\ (TransactionJs.statusCode Sample.created' = 200%Z
          \/ TransactionJs.statusCode Sample.created' = 201%Z)
      /\ TransactionJs.payLoad Sample.created' = Normal Sample.answer
      /\ TransactionJs.statusCode Sample.ok' = 200%Z
      /\ fst (TransactionJs.execute
                (TransactionJsTerms.mock (Normal Sample.created')
                   (Normal Sample.ok'))
                Sample.transaction')
         = Normal (Resolved (results Sample.answer))
      /\ TransactionJs.statusCode Sample.not_found' <> 200%Z
      /\ fst (TransactionJs.execute
                (TransactionJsTerms.mock (Normal Sample.created')
                   (Normal Sample.not_found'))
                Sample.transaction')
         = Normal (Rejected
                     (new_Error (lit "Error: Transaction commit failed")))).
Proof.
  assert (A : (404 <> 200)%Z) by discriminate.
  split.
  - split; [reflexivity |]. split; [right; reflexivity |].
    split; [reflexivity |]. split; [reflexivity |]. split; [reflexivity |].
    split; [| split; [exact A |]].
    + destruct (proj1 execute_commits
                  (IndexTerms.mock (Normal Sample.created) (Normal Sample.ok))
                  Sample.transaction Sample.created Sample.answer
                  eq_refl (or_intror eq_refl) eq_refl eq_refl)
        as (_ & _ & _ & _ & Hok & _).
      exact (Hok Sample.ok eq_refl eq_refl).
    + destruct (proj1 execute_commits
                  (IndexTerms.mock (Normal Sample.created)
                     (Normal Sample.not_found))
                  Sample.transaction Sample.created Sample.answer
                  eq_refl (or_intror eq_refl) eq_refl eq_refl)
        as (_ & _ & _ & _ & _ & Hbad).
      exact (Hbad Sample.not_found eq_refl A).
  - split; [reflexivity |]. split; [right; reflexivity |].
    split; [reflexivity |]. split; [reflexivity |].
    split; [| split; [exact A |]].
    + destruct (proj2 execute_commits
                  (TransactionJsTerms.mock (Normal Sample.created')
                     (Normal Sample.ok'))
                  Sample.transaction' Sample.created' Sample.answer
                  eq_refl (or_intror eq_refl) eq_refl eq_refl)
        as (_ & _ & _ & _ & Hok & _).
      exact (Hok Sample.ok' eq_refl eq_refl).
    + destruct (proj2 execute_commits
                  (TransactionJsTerms.mock (Normal Sample.created')
                     (Normal Sample.not_found'))
                  Sample.transaction' Sample.created' Sample.answer
                  eq_refl (or_intror eq_refl) eq_refl eq_refl)
        as (_ & _ & _ & _ & _ & Hbad).
      exact (Hbad Sample.not_found' eq_refl A).
Defined.

(** C5.  Once [this.used] is [true], [addQuery] throws
    [Error("Can't reuse transaction")] at once: [this], and with it the
    statement list, stays as it was, and so does the rest of the frame, the
    requests issued included.  [this.used] is [true] when [execute] has
    settled its promise, whichever way. *)
Theorem addQuery_rejected_after_use :
  ((forall t qb params,
       Index.used t = true ->
       Index.addQuery qb params t = (Throw IndexTerms.reuse_error, t))
   /\ (forall f qb params,
          Index.used (Index.this f) = true ->
          Index.on_this (Index.addQuery qb params) f
          = (Throw IndexTerms.reuse_error, f))
   /\ (forall fetch t,
          Index.used (Index.this (snd (Index.execute fetch t))) = true))
  /\ ((forall t qb params,
          TransactionJs.used t = true ->
          TransactionJs.addQuery qb params t
          = (Throw TransactionJsTerms.reuse_error, t))
      /\ (forall f qb params,
             TransactionJs.used (TransactionJs.this f) = true ->
             TransactionJs.on_this (TransactionJs.addQuery qb params) f
             = (Throw TransactionJsTerms.reuse_error, f))
      /\ (forall send t,
             TransactionJs.used
               (TransactionJs.this (snd (TransactionJs.execute send t)))
             = true)).
Proof.
  split; repeat split.
  - intros t qb params. apply IndexFacts.fetch_addQuery_used.
  - intros f qb params. apply IndexFacts.fetch_addQuery_frame.
  - apply IndexFacts.fetch_execute_used.
  - intros t qb params. apply TransactionJsFacts.send_addQuery_used.
  - intros f qb params. apply TransactionJsFacts.send_addQuery_frame.
  - apply TransactionJsFacts.send_execute_used.
Qed.

Lemma addQuery_rejected_after_use_witness :
  (Index.used Sample.used_transaction = true
   /\ Index.addQuery Sample.builder Sample.params Sample.used_transaction
      = (Throw (new_Error (lit "Can't reuse transaction")),
         Sample.used_transaction)
   /\ Index.on_this (Index.addQuery Sample.builder Sample.params)
        (Index.enter Sample.used_transaction)
      = (Throw (new_Error (lit "Can't reuse transaction")),
         Index.enter Sample.used_transaction))
  /\ (TransactionJs.used Sample.used_transaction' = true
      /\ TransactionJs.addQuery Sample.builder Sample.params
           Sample.used_transaction'
         = (Throw (new_Error (lit "Can't reuse transaction")),
            Sample.used_transaction')
      /\ TransactionJs.on_this
           (TransactionJs.addQuery Sample.builder Sample.params)
           (TransactionJs.enter Sample.used_transaction')
         = (Throw (new_Error (lit "Can't reuse transaction")),
            TransactionJs.enter Sample.used_transaction')).
Proof.
  split.
  - split; [reflexivity |]. split.
    + exact (proj1 (proj1 addQuery_rejected_after_use)
               Sample.used_transaction Sample.builder Sample.params eq_refl).
    + exact (proj1 (proj2 (proj1 addQuery_rejected_after_use))
               (Index.enter Sample.used_transaction)
               Sample.builder Sample.params eq_refl).
  - split; [reflexivity |]. split.
    + exact (proj1 (proj2 addQuery_rejected_after_use)
               Sample.used_transaction' Sample.builder Sample.params eq_refl).
    + exact (proj1 (proj2 (proj2 addQuery_rejected_after_use))
               (TransactionJs.enter Sample.used_transaction')
               Sample.builder Sample.params eq_refl).
Defined.

(** C6.  After any sequence of [addQuery] calls on a fresh transaction, none
    of which throws, [this.statements] holds one statement for each call, in
    the order of the calls, each with the text its builder renders and the
    parameters given; the first request [execute] issues has the body
    [{"statements":[...]}] whose entries are the JSON texts of those
    statements in that order. *)
Theorem body_keeps_append_order (calls : list (QueryBuilder.t * value)) :
  (forall fetch url auth,
      let r := IndexTerms.add_all calls (Index.new url auth) in
      fst r = Normal tt
      /\ Index.statements (snd r) = map statement_of calls
      /\ (exists later,
             Index.requests (Index.trace (snd (Index.execute fetch (snd r))))
             = Index.options (Index.enter (snd r)) :: later)
      /\ Index.body (Index.options (Index.enter (snd r)))
         = Some (body_json (map entry_json (map statement_of calls))))
  /\ (forall send host port auth,
         let r := TransactionJsTerms.add_all calls
                    (TransactionJs.new host port auth) in
         fst r = Normal tt
         /\ TransactionJs.statements (snd r) = map statement_of calls
         /\ (exists later,
                TransactionJs.requests
                  (TransactionJs.trace
                     (snd (TransactionJs.execute send (snd r))))
                = TransactionJs.options (TransactionJs.enter (snd r)) :: later)
         /\ TransactionJs.body (TransactionJs.options
                                  (TransactionJs.enter (snd r)))
            = Some (body_json (map entry_json (map statement_of calls)))).
Proof.
  split.
  - intros fetch url auth r.
    assert (E : r = (Normal tt,
                     {| Index.used := false; Index.auth := auth;
                        Index.transactionUrl := url;
                        Index.statements := map statement_of calls |}))
      by (apply (IndexFacts.fetch_add_all_unused calls (Index.new url auth));
          reflexivity).
    split; [now rewrite E |]. split; [now rewrite E |]. split.
    + destruct (IndexFacts.fetch_execute_first_request fetch (snd r))
        as (later & El).
      rewrite El. eexists. reflexivity.
    + rewrite E. apply statements_body_json.
  - intros send host port auth r.
    assert (E : r = (Normal tt,
                     {| TransactionJs.used := false;
                        TransactionJs.auth := auth;
                        TransactionJs.host := host;
                        TransactionJs.port := port;
                        TransactionJs.statements := map statement_of calls |}))
      by (apply (TransactionJsFacts.send_add_all_unused calls
                   (TransactionJs.new host port auth));
          reflexivity).
    split; [now rewrite E |]. split; [now rewrite E |]. split.
    + destruct (TransactionJsFacts.send_execute_first_request send (snd r))
        as (later & El).
      rewrite El. eexists. reflexivity.
    + rewrite E. apply statements_body_json.
Qed.

(** The body of the first request for the sample transaction, spelled
    out. *)
Example sample_body :
  Index.body (Index.options (Index.enter Sample.transaction))
  = Some (lit "{" ++ Sample.quoted "statements" ++ lit ":[{"
          ++ Sample.quoted "statement" ++ lit ":"
          ++ Sample.quoted "MATCH (u:User {uid: {params}.uid}) RETURN u"
          ++ lit "," ++ Sample.quoted "parameters" ++ lit ":{"
          ++ Sample.quoted "params" ++ lit ":{"
          ++ Sample.quoted "uid" ++ lit ":" ++ Sample.quoted "134"
          ++ lit "}}}]}").
Proof. reflexivity. Qed.

(* ================================================================== *)
(** ** The transaction protocol: every path of execute *)
(* ================================================================== *)

Module IndexTable.

Import Index IndexTerms.

Section Transport.

Variable fetch : request -> completion response.

(** [execute], path by path. *)
Lemma fetch_execute_table t :
  execute fetch t =
  match fetch (options (enter t)) with
  | Throw e =>
      (Normal (Rejected (new_Error (String_of_thrown e))),
       settled_frame t (VObject []) [])
  | Normal res =>
      if status_ok (status res) then
        match json res with
        | Throw e =>
            (Normal (Rejected (new_Error (String_of_thrown e))),
             settled_frame t (VObject []) [])
        | Normal js =>
            match errors js with
            | e :: _ =>
                (Normal (Rejected (new_Error (message e))),
                 settled_frame t (VObject []) [])
            | [] =>
                (Normal
                   match fetch (commit_request t js) with
                   | Normal res' =>
                       if (status res' =? HTTP_OK)%Z
                       then Resolved (results js)
                       else Rejected (new_Error (lit "Error: commit failed"))
                   | Throw e => Rejected (new_Error (String_of_thrown e))
                   end,
                 settled_frame t (results js) [Request (commit_request t js)])
            end
        end
      else
        (Normal (Rejected
                   (new_Error
                      (Error_toString (lit "Error") (statusText res)))),
         settled_frame t (VObject []) [Request (delete_request t)])
  end.
Proof.
  destruct (fetch (options (enter t))) as [res | e] eqn:H.
  - destruct (status_ok (status res)) eqn:Hs.
    + destruct (json res) as [js | e] eqn:Hj.
      * destruct (errors js) as [| e rest] eqn:He.
        -- now apply IndexFacts.fetch_execute_commit with (res := res).
        -- now apply IndexFacts.fetch_execute_statement_error
             with (res := res) (js := js) (rest := rest).
      * now apply IndexFacts.fetch_execute_bad_body with (res := res).
    + exact (IndexFacts.fetch_execute_bad_status fetch t H Hs).
  - now apply IndexFacts.fetch_execute_no_answer.
Qed.

End Transport.

End IndexTable.

Module TransactionJsTable.

Import TransactionJs TransactionJsTerms.

Section Transport.

Variable send : request -> completion response.

(** [execute], path by path. *)
Lemma send_execute_table t :
  execute send t =
  match send (options (enter t)) with
  | Throw e =>
      (Normal (Rejected (new_Error (String_of_thrown e))),
       settled_frame t (options (enter t)) (VObject []) [])
  | Normal res =>
      if status_ok (statusCode res) then
        match payLoad res with
        | Throw e =>
            (Normal (Rejected (new_Error (String_of_thrown e))),
             settled_frame t (options (enter t)) (VObject []) [])
        | Normal js =>
            match errors js with
            | e :: _ =>
                (Normal (Rejected (new_Error (message e))),
                 settled_frame t (options (enter t)) (VObject []) [])
            | [] =>
                (Normal
                   match send (commit_request t js) with
                   | Normal res' =>
                       if (statusCode res' =? HTTP_OK)%Z
                       then Resolved (results js)
                       else Rejected
                              (new_Error
                                 (lit "Error: Transaction commit failed"))
                   | Throw e => Rejected (new_Error (String_of_thrown e))
                   end,
                 settled_frame t (commit_request t js) (results js)
                   [Request (commit_request t js)])
            end
        end
      else
        (Normal (Rejected
                   (new_Error
                      (lit "Error: Query failed to return OK or CREATED"))),
         settled_frame t (delete_request t) (VObject [])
           [Request (delete_request t)])
  end.
Proof.
  destruct (send (options (enter t))) as [res | e] eqn:H.
  - destruct (status_ok (statusCode res)) eqn:Hs.
    + destruct (payLoad res) as [js | e] eqn:Hj.
      * destruct (errors js) as [| e rest] eqn:He.
        -- now apply TransactionJsFacts.send_execute_commit with (res := res).
        -- now apply TransactionJsFacts.send_execute_statement_error
             with (res := res) (js := js) (rest := rest).
      * now apply TransactionJsFacts.send_execute_bad_body with (res := res).
    + exact (TransactionJsFacts.send_execute_bad_status send t H Hs).
  - now apply TransactionJsFacts.send_execute_no_answer.
Qed.

End Transport.

End TransactionJsTable.

Lemma post_is_not_delete : lit "post" <> lit "delete".
Proof. intros H. vm_compute in H. discriminate. Qed.

Lemma fetch_status_ok_inv z :
  IndexTerms.status_ok z = true -> z = 200%Z \/ z = 201%Z.
Proof.
  unfold IndexTerms.status_ok, Index.HTTP_OK, Index.HTTP_CREATED.
  intros H. apply orb_true_iff in H as [H | H]; apply Z.eqb_eq in H; auto.
Qed.

Lemma fetch_status_bad_inv z :
  IndexTerms.status_ok z = false -> z <> 200%Z /\ z <> 201%Z.
Proof.
  unfold IndexTerms.status_ok, Index.HTTP_OK, Index.HTTP_CREATED.
  intros H. apply orb_false_iff in H as [H1 H2].
  split; now apply Z.eqb_neq.
Qed.

Lemma send_status_ok_inv z :
  TransactionJsTerms.status_ok z = true -> z = 200%Z \/ z = 201%Z.
Proof.
  unfold TransactionJsTerms.status_ok, TransactionJs.HTTP_OK,
    TransactionJs.HTTP_CREATED.
  intros H. apply orb_true_iff in H as [H | H]; apply Z.eqb_eq in H; auto.
Qed.

Lemma send_status_bad_inv z :
  TransactionJsTerms.status_ok z = false -> z <> 200%Z /\ z <> 201%Z.
Proof.
  unfold TransactionJsTerms.status_ok, TransactionJs.HTTP_OK,
    TransactionJs.HTTP_CREATED.
  intros H. apply orb_false_iff in H as [H1 H2].
  split; now apply Z.eqb_neq.
Qed.

(** X1.  The promise of [execute] is resolved only when the first answer
    had status 200 or 201 and a body without errors, and the commit request
    was answered with status 200; the value is then the [results] of the
    first answer. *)
Theorem execute_resolves_only_after_commit :
  (forall fetch t v,
      fst (Index.execute fetch t) = Normal (Resolved v) ->
      exists res js res',
        fetch (Index.options (Index.enter t)) = Normal res
        /\ (Index.status res = 200%Z \/ Index.status res = 201%Z)
        /\ Index.json res = Normal js
        /\ errors js = []
        /\ fetch (IndexTerms.commit_request t js) = Normal res'
        /\ Index.status res' = 200%Z
        /\ v = results js)
  /\ (forall send t v,
         fst (TransactionJs.execute send t) = Normal (Resolved v) ->
         exists res js res',
           send (TransactionJs.options (TransactionJs.enter t)) = Normal res
           /\ (TransactionJs.statusCode res = 200%Z
               \/ TransactionJs.statusCode res = 201%Z)
           /\ TransactionJs.payLoad res = Normal js
           /\ errors js = []
           /\ send (TransactionJsTerms.commit_request t js) = Normal res'
           /\ TransactionJs.statusCode res' = 200%Z
           /\ v = results js).
Proof.
  split.
  - intros fetch t v H. rewrite IndexTable.fetch_execute_table in H.
    destruct (fetch (Index.options (Index.enter t))) as [res | e];
      [| discriminate].
    destruct (IndexTerms.status_ok (Index.status res)) eqn:Hs;
      [| discriminate].
    destruct (Index.json res) as [js | e] eqn:Hj; [| discriminate].
    destruct (errors js) as [| e rest] eqn:He; [| discriminate].
    cbn [fst] in H.
    destruct (fetch (IndexTerms.commit_request t js)) as [res' | e] eqn:Hc;
      [| discriminate].
    destruct (Index.status res' =? Index.HTTP_OK)%Z eqn:Hok;
      [| discriminate].
    exists res, js, res'. apply Z.eqb_eq in Hok.
    repeat split; auto using fetch_status_ok_inv. congruence.
  - intros send t v H. rewrite TransactionJsTable.send_execute_table in H.
    destruct (send (TransactionJs.options (TransactionJs.enter t)))
      as [res | e]; [| discriminate].
    destruct (TransactionJsTerms.status_ok (TransactionJs.statusCode res))
      eqn:Hs; [| discriminate].
    destruct (TransactionJs.payLoad res) as [js | e] eqn:Hj; [| discriminate].
    destruct (errors js) as [| e rest] eqn:He; [| discriminate].
    cbn [fst] in H.
    destruct (send (TransactionJsTerms.commit_request t js))
      as [res' | e] eqn:Hc; [| discriminate].
    destruct (TransactionJs.statusCode res' =? TransactionJs.HTTP_OK)%Z
      eqn:Hok; [| discriminate].
    exists res, js, res'. apply Z.eqb_eq in Hok.
    repeat split; auto using send_status_ok_inv. congruence.
Qed.

Lemma execute_resolves_only_after_commit_witness :
  (fst (Index.execute
          (IndexTerms.mock (Normal Sample.created) (Normal Sample.ok))
          Sample.transaction)
   = Normal (Resolved (results Sample.answer))
   /\ exists res js res',
       IndexTerms.mock (Normal Sample.created) (Normal Sample.ok)
         (Index.options (Index.enter Sample.transaction)) = Normal res
       /\ (Index.status res = 200%Z \/ Index.status res = 201%Z)
       /\ Index.json res = Normal js
       /\ errors js = []
       /\ IndexTerms.mock (Normal Sample.created) (Normal Sample.ok)
            (IndexTerms.commit_request Sample.transaction js) = Normal res'
       /\ Index.status res' = 200%Z
       /\ results Sample.answer = results js)
  /\ (fst (TransactionJs.execute
             (TransactionJsTerms.mock (Normal Sample.created')
                (Normal Sample.ok'))
             Sample.transaction')
      = Normal (Resolved (results Sample.answer))
      /\ exists res js res',
          TransactionJsTerms.mock (Normal Sample.created') (Normal Sample.ok')
            (TransactionJs.options (TransactionJs.enter Sample.transaction'))
          = Normal res
          /\ (TransactionJs.statusCode res = 200%Z
              \/ TransactionJs.statusCode res = 201%Z)
          /\ TransactionJs.payLoad res = Normal js
          /\ errors js = []
          /\ TransactionJsTerms.mock (Normal Sample.created')
               (Normal Sample.ok')
               (TransactionJsTerms.commit_request Sample.transaction' js)
             = Normal res'
          /\ TransactionJs.statusCode res' = 200%Z
          /\ results Sample.answer = results js).
Proof.
  split.
  - split; [reflexivity |].
    exact (proj1 execute_resolves_only_after_commit
             (IndexTerms.mock (Normal Sample.created) (Normal Sample.ok))
             Sample.transaction (results Sample.answer) eq_refl).
  - split; [reflexivity |].
    exact (proj2 execute_resolves_only_after_commit
             (TransactionJsTerms.mock (Normal Sample.created')
                (Normal Sample.ok'))
             Sample.transaction' (results Sample.answer) eq_refl).
Defined.

(** X2.  Among the requests [execute] issues there is a DELETE exactly when
    the first request was answered with a status other than 200 and 201:
    a failure reported in the body, an unreadable body, a first request that
    fails and a failed commit leave the transaction on the server as it
    is. *)
Theorem execute_rolls_back_iff_bad_status :
  (forall fetch t,
      (exists r,
          In r (Index.requests (Index.trace (snd (Index.execute fetch t))))
          /\ Index.method r = lit "delete")
      <-> (exists res,
              fetch (Index.options (Index.enter t)) = Normal res
              /\ Index.status res <> 200%Z
              /\ Index.status res <> 201%Z))
  /\ (forall send t,
         (exists r,
             In r (TransactionJs.requests
                     (TransactionJs.trace
                        (snd (TransactionJs.execute send t))))
             /\ TransactionJs.method r = lit "delete")
         <-> (exists res,
                 send (TransactionJs.options (TransactionJs.enter t))
                 = Normal res
                 /\ TransactionJs.statusCode res <> 200%Z
                 /\ TransactionJs.statusCode res <> 201%Z)).
Proof.
  split.
  - intros fetch t. rewrite IndexTable.fetch_execute_table.
    pose proof post_is_not_delete as P.
    destruct (fetch (Index.options (Index.enter t))) as [res | e].
    + destruct (IndexTerms.status_ok (Index.status res)) eqn:Hs.
      * split.
        -- intros (r & Hin & Hm).
           destruct (Index.json res) as [js | e];
             [destruct (errors js) |]; cbn in Hin;
             repeat (destruct Hin as [Hin | Hin]; [subst r; cbn in Hm |]);
             try contradiction; now destruct (P Hm).
        -- intros (res' & E & H1 & H2). injection E as <-.
           apply fetch_status_ok_inv in Hs. tauto.
      * split.
        -- intros _. exists res. apply fetch_status_bad_inv in Hs. tauto.
        -- intros _. exists (IndexTerms.delete_request t).
           split; [cbn; auto | reflexivity].
    + split.
      * intros (r & Hin & Hm). cbn in Hin.
        destruct Hin as [Hin | []]. subst r. cbn in Hm. now destruct (P Hm).
      * intros (res & E & _). discriminate.
  - intros send t. rewrite TransactionJsTable.send_execute_table.
    pose proof post_is_not_delete as P.
    destruct (send (TransactionJs.options (TransactionJs.enter t)))
      as [res | e].
    + destruct (TransactionJsTerms.status_ok (TransactionJs.statusCode res))
        eqn:Hs.
      * split.
        -- intros (r & Hin & Hm).
           destruct (TransactionJs.payLoad res) as [js | e];
             [destruct (errors js) |]; cbn in Hin;
             repeat (destruct Hin as [Hin | Hin]; [subst r; cbn in Hm |]);
             try contradiction; now destruct (P Hm).
        -- intros (res' & E & H1 & H2). injection E as <-.
           apply send_status_ok_inv in Hs. tauto.
      * split.
        -- intros _. exists res. apply send_status_bad_inv in Hs. tauto.
        -- intros _. exists (TransactionJsTerms.delete_request t).
           split; [cbn; auto | reflexivity].
    + split.
      * intros (r & Hin & Hm). cbn in Hin.
        destruct Hin as [Hin | []]. subst r. cbn in Hm. now destruct (P Hm).
      * intros (res & E & _). discriminate.
Qed.

(** X3.  A failure below the protocol -- the first request gets no answer,
    the body of the answer cannot be parsed, the commit request gets no
    answer -- rejects the promise with [new Error(String(cause))] and is
    followed by no further request: there is no rollback. *)
Theorem execute_wraps_lower_failures :
  (forall fetch t,
      (forall e,
          fetch (Index.options (Index.enter t)) = Throw e ->
          fst (Index.execute fetch t)
          = Normal (Rejected (new_Error (String_of_thrown e)))
          /\ Index.requests (Index.trace (snd (Index.execute fetch t)))
             = [Index.options (Index.enter t)])
      /\ (forall res e,
             fetch (Index.options (Index.enter t)) = Normal res ->
             Index.status res = 200%Z \/ Index.status res = 201%Z ->
             Index.json res = Throw e ->
             fst (Index.execute fetch t)
             = Normal (Rejected (new_Error (String_of_thrown e)))
             /\ Index.requests (Index.trace (snd (Index.execute fetch t)))
                = [Index.options (Index.enter t)])
      /\ (forall res js e,
             fetch (Index.options (Index.enter t)) = Normal res ->
             Index.status res = 200%Z \/ Index.status res = 201%Z ->
             Index.json res = Normal js ->
             errors js = [] ->
             fetch (IndexTerms.commit_request t js) = Throw e ->
             fst (Index.execute fetch t)
             = Normal (Rejected (new_Error (String_of_thrown e)))
             /\ Index.requests (Index.trace (snd (Index.execute fetch t)))
                = [Index.options (Index.enter t);
                   IndexTerms.commit_request t js]))
  /\ (forall send t,
         (forall e,
             send (TransactionJs.options (TransactionJs.enter t)) = Throw e ->
             fst (TransactionJs.execute send t)
             = Normal (Rejected (new_Error (String_of_thrown e)))
             /\ TransactionJs.requests
                  (TransactionJs.trace (snd (TransactionJs.execute send t)))
                = [TransactionJs.options (TransactionJs.enter t)])
         /\ (forall res e,
                send (TransactionJs.options (TransactionJs.enter t))
                = Normal res ->
                TransactionJs.statusCode res = 200%Z
                \/ TransactionJs.statusCode res = 201%Z ->
                TransactionJs.payLoad res = Throw e ->
                fst (TransactionJs.execute send t)
                = Normal (Rejected (new_Error (String_of_thrown e)))
                /\ TransactionJs.requests
                     (TransactionJs.trace
                        (snd (TransactionJs.execute send t)))
                   = [TransactionJs.options (TransactionJs.enter t)])
         /\ (forall res js e,
                send (TransactionJs.options (TransactionJs.enter t))
                = Normal res ->
                TransactionJs.statusCode res = 200%Z
                \/ TransactionJs.statusCode res = 201%Z ->
                TransactionJs.payLoad res = Normal js ->
                errors js = [] ->
                send (TransactionJsTerms.commit_request t js) = Throw e ->
                fst (TransactionJs.execute send t)
                = Normal (Rejected (new_Error (String_of_thrown e)))
                /\ TransactionJs.requests
                     (TransactionJs.trace
                        (snd (TransactionJs.execute send t)))
                   = [TransactionJs.options (TransactionJs.enter t);
                      TransactionJsTerms.commit_request t js])).
Proof.
  split.
  - intros fetch t. repeat split.
    + now rewrite (IndexFacts.fetch_execute_no_answer fetch t H).
    + now rewrite (IndexFacts.fetch_execute_no_answer fetch t H).
    + now rewrite (IndexFacts.fetch_execute_bad_body fetch t H
                     (IndexFacts.fetch_status_good H0) H1).
    + now rewrite (IndexFacts.fetch_execute_bad_body fetch t H
                     (IndexFacts.fetch_status_good H0) H1).
    + rewrite (IndexFacts.fetch_execute_commit fetch t H
                 (IndexFacts.fetch_status_good H0) H1 H2).
      cbn [fst]. now rewrite H3.
    + now rewrite (IndexFacts.fetch_execute_commit fetch t H
                     (IndexFacts.fetch_status_good H0) H1 H2).
  - intros send t. repeat split.
    + now rewrite (TransactionJsFacts.send_execute_no_answer send t H).
    + now rewrite (TransactionJsFacts.send_execute_no_answer send t H).
    + now rewrite (TransactionJsFacts.send_execute_bad_body send t H
                     (TransactionJsFacts.send_status_good H0) H1).
    + now rewrite (TransactionJsFacts.send_execute_bad_body send t H
                     (TransactionJsFacts.send_status_good H0) H1).
    + rewrite (TransactionJsFacts.send_execute_commit send t H
                 (TransactionJsFacts.send_status_good H0) H1 H2).
      cbn [fst]. now rewrite H3.
    + now rewrite (TransactionJsFacts.send_execute_commit send t H
                     (TransactionJsFacts.send_status_good H0) H1 H2).
Qed.

Lemma execute_wraps_lower_failures_witness :
  (fst (Index.execute
          (IndexTerms.mock (Throw MoreSamples.refused) (Normal Sample.ok))
          Sample.transaction)
   = Normal (Rejected
               (new_Error
                  (lit "FetchError: connect ECONNREFUSED 127.0.0.1:7474")))
   /\ fst (Index.execute
             (IndexTerms.mock (Normal MoreSamples.garbled) (Normal Sample.ok))
             Sample.transaction)
      = Normal (Rejected
                  (new_Error
                     (lit "SyntaxError: Unexpected end of JSON input")))
   /\ Index.requests
        (Index.trace
           (snd (Index.execute
                   (IndexTerms.mock (Normal Sample.created)
                      (Throw MoreSamples.refused))
                   Sample.transaction)))
      = [Index.options (Index.enter Sample.transaction);
         IndexTerms.commit_request Sample.transaction Sample.answer])
  /\ (fst (TransactionJs.execute
             (TransactionJsTerms.mock (Throw MoreSamples.refused)
                (Normal Sample.ok'))
             Sample.transaction')
      = Normal (Rejected
                  (new_Error
                     (lit "FetchError: connect ECONNREFUSED 127.0.0.1:7474")))
      /\ fst (TransactionJs.execute
                (TransactionJsTerms.mock (Normal MoreSamples.garbled')
                   (Normal Sample.ok'))
                Sample.transaction')
         = Normal (Rejected
                     (new_Error
                        (lit "SyntaxError: Unexpected end of JSON input")))
      /\ TransactionJs.requests
           (TransactionJs.trace
              (snd (TransactionJs.execute
                      (TransactionJsTerms.mock (Normal Sample.created')
                         (Throw MoreSamples.refused))
                      Sample.transaction')))
         = [TransactionJs.options (TransactionJs.enter Sample.transaction');
            TransactionJsTerms.commit_request Sample.transaction'
              Sample.answer]).
Proof.
  split.
  - split; [| split].
    + exact (proj1 (proj1 (proj1 execute_wraps_lower_failures
                             (IndexTerms.mock (Throw MoreSamples.refused)
                                (Normal Sample.ok))
                             Sample.transaction)
                      MoreSamples.refused eq_refl)).
    + exact (proj1 (proj1 (proj2 (proj1 execute_wraps_lower_failures
                                    (IndexTerms.mock
                                       (Normal MoreSamples.garbled)
                                       (Normal Sample.ok))
                                    Sample.transaction))
                      MoreSamples.garbled Sample.not_json
                      eq_refl (or_introl eq_refl) eq_refl)).
    + exact (proj2 (proj2 (proj2 (proj1 execute_wraps_lower_failures
                                    (IndexTerms.mock (Normal Sample.created)
                                       (Throw MoreSamples.refused))
                                    Sample.transaction))
                      Sample.created Sample.answer MoreSamples.refused
                      eq_refl (or_intror eq_refl) eq_refl eq_refl eq_refl)).
  - split; [| split].
    + exact (proj1 (proj1 (proj2 execute_wraps_lower_failures
                             (TransactionJsTerms.mock
                                (Throw MoreSamples.refused)
                                (Normal Sample.ok'))
                             Sample.transaction')
                      MoreSamples.refused eq_refl)).
    + exact (proj1 (proj1 (proj2 (proj2 execute_wraps_lower_failures
                                    (TransactionJsTerms.mock
                                       (Normal MoreSamples.garbled')
                                       (Normal Sample.ok'))
                                    Sample.transaction'))
                      MoreSamples.garbled' Sample.not_json
                      eq_refl (or_introl eq_refl) eq_refl)).
    + exact (proj2 (proj2 (proj2 (proj2 execute_wraps_lower_failures
                                    (TransactionJsTerms.mock
                                       (Normal Sample.created')
                                       (Throw MoreSamples.refused))
                                    Sample.transaction'))
                      Sample.created' Sample.answer MoreSamples.refused
                      eq_refl (or_intror eq_refl) eq_refl eq_refl eq_refl)).
Defined.

(** X4.  [execute] does not look at [this.used] and leaves the statement
    list as it is: afterwards [this] is what it was with [used] set, and
    calling [execute] once more issues the same first request, with the same
    statements in its body. *)
Theorem execute_can_run_again :
  (forall fetch fetch' t,
      Index.this (snd (Index.execute fetch t)) = IndexTerms.mark_used t
      /\ Index.statements (Index.this (snd (Index.execute fetch t)))
         = Index.statements t
      /\ exists later,
          Index.requests
            (Index.trace
               (snd (Index.execute fetch'
                       (Index.this (snd (Index.execute fetch t))))))
          = Index.options (Index.enter t) :: later)
  /\ (forall send send' t,
         TransactionJs.this (snd (TransactionJs.execute send t))
         = TransactionJsTerms.mark_used t
         /\ TransactionJs.statements
              (TransactionJs.this (snd (TransactionJs.execute send t)))
            = TransactionJs.statements t
         /\ exists later,
             TransactionJs.requests
               (TransactionJs.trace
                  (snd (TransactionJs.execute send'
                          (TransactionJs.this
                             (snd (TransactionJs.execute send t))))))
             = TransactionJs.options (TransactionJs.enter t) :: later).
Proof.
  split.
  - intros fetch fetch' t.
    assert (E : Index.this (snd (Index.execute fetch t))
                = IndexTerms.mark_used t).
    { unfold Index.execute, bind. rewrite IndexFacts.fetch_executor_spec.
      now rewrite IndexFacts.fetch_settle_this. }
    rewrite E. repeat split.
    destruct (IndexFacts.fetch_execute_first_request fetch'
                (IndexTerms.mark_used t)) as (later & El).
    rewrite El. eexists. reflexivity.
  - intros send send' t.
    assert (E : TransactionJs.this (snd (TransactionJs.execute send t))
                = TransactionJsTerms.mark_used t).
    { unfold TransactionJs.execute, bind.
      rewrite TransactionJsFacts.send_executor_spec.
      now rewrite TransactionJsFacts.send_settle_this. }
    rewrite E. repeat split.
    destruct (TransactionJsFacts.send_execute_first_request send'
                (TransactionJsTerms.mark_used t)) as (later & El).
    rewrite El. eexists. reflexivity.
Qed.

(** X5.  [execute] issues one request or two, never more, and every one of
    them carries the same three headers, with the credential of the
    transaction after ["Basic "]. *)
Theorem execute_requests_bounded :
  (forall fetch t,
      let rs := Index.requests (Index.trace (snd (Index.execute fetch t))) in
      (length rs = 1 \/ length rs = 2)
      /\ Forall (fun r =>
                   Index.headers r
                   = [(lit "content-type", lit "application/json");
                      (lit "Accept", lit "application/json; charset=UTF-8");
                      (lit "Authorization", lit "Basic " ++ Index.auth t)])
           rs)
  /\ (forall send t,
         let rs := TransactionJs.requests
                     (TransactionJs.trace
                        (snd (TransactionJs.execute send t))) in
         (length rs = 1 \/ length rs = 2)
         /\ Forall (fun r =>
                      TransactionJs.headers r
                      = [(lit "content-type", lit "application/json");
                         (lit "Accept",
                          lit "application/json; charset=UTF-8");
                         (lit "Authorization",
                          lit "Basic " ++ TransactionJs.auth t)])
              rs).
Proof.
  split.
  - intros fetch t rs. subst rs. rewrite IndexTable.fetch_execute_table.
    destruct (fetch (Index.options (Index.enter t))) as [res | e].
    + destruct (IndexTerms.status_ok (Index.status res)).
      * destruct (Index.json res) as [js | e];
          [destruct (errors js) |]; cbn; split; auto;
          repeat constructor.
      * cbn; split; auto; repeat constructor.
    + cbn; split; auto; repeat constructor.
  - intros send t rs. subst rs. rewrite TransactionJsTable.send_execute_table.
    destruct (send (TransactionJs.options (TransactionJs.enter t)))
      as [res | e].
    + destruct (TransactionJsTerms.status_ok (TransactionJs.statusCode res)).
      * destruct (TransactionJs.payLoad res) as [js | e];
          [destruct (errors js) |]; cbn; split; auto;
          repeat constructor.
      * cbn; split; auto; repeat constructor.
    + cbn; split; auto; repeat constructor.
Qed.

(* ================================================================== *)
(** ** The Transaction that sends to a URL *)
(* ================================================================== *)

(** X6.  In the version of [transaction.js] that sends to a URL, the first
    handler reads [HTTP_OK], which the file does not define: whatever the
    server answers, [execute] rejects with
    ["ReferenceError: HTTP_OK is not defined"] wrapped in an [Error] (or
    with the wrapped cause when the request itself fails).  The promise is
    never resolved, and besides the first request nothing is sent: no
    DELETE, no commit. [this.used] is set all the same. *)
Theorem url_execute_never_resolves :
  forall send (t : Transaction001.Transaction),
    fst (Transaction001.execute send t)
    = Normal
        (Rejected
           (new_Error
              match send (Transaction001.options (Transaction001.enter t)) with
              | Normal _ => lit "ReferenceError: HTTP_OK is not defined"
              | Throw e => String_of_thrown e
              end))
    /\ Transaction001.trace (snd (Transaction001.execute send t))
       = [Transaction001.Request
            (Transaction001.options (Transaction001.enter t));
          Transaction001.UsedSet true]
    /\ Transaction001.used
         (Transaction001.this (snd (Transaction001.execute send t)))
       = true
    /\ Transaction001.statements
         (Transaction001.this (snd (Transaction001.execute send t)))
       = Transaction001.statements t.
Proof.
  intros send t.
  unfold Transaction001.execute, Transaction001.executor,
    Transaction001.settle, Transaction001.on_response,
    Transaction001.call_send, Transaction001.set_used, Transaction001.emit,
    try_catch, bind, await, returned, modify, get, ret.
  cbn.
  destruct (send _) as [res | e]; cbn; repeat split.
Qed.

(** A transport that answers every request with the sample success. *)
Example url_execute_sample :
  fst (Transaction001.execute
         (fun _ => Normal {| Transaction001.statusCode := 201;
                             Transaction001.payload := Sample.answer |})
         (snd (Transaction001.addQuery Sample.builder Sample.params
                 (Transaction001.new
                    (lit "http://127.0.0.1:7474/db/data/transaction")
                    (lit "bmVvNGo6c2VjcmV0")))))
  = Normal (Rejected
              (new_Error (lit "ReferenceError: HTTP_OK is not defined"))).
Proof. reflexivity. Qed.

(* ================================================================== *)
(** ** getSimpleData and getSimpleListData *)
(* ================================================================== *)

Section SimpleDataFacts.

Import Neo4jClass.

Lemma typeof_object v :
  jsstr_eqb (typeof v) (lit "object")
  = match v with
    | VNull | VArray _ | VObject _ => true
    | _ => false
    end.
Proof. destruct v; reflexivity. Qed.

Lemma get_index_truthy v i :
  truthy v = true -> exists w, get_index v i = Normal w.
Proof. destruct v; try discriminate; intros _; eexists; reflexivity. Qed.

Lemma get_named_truthy v k :
  truthy v = true -> exists w, get_named v k = Normal w.
Proof. destruct v; try discriminate; intros _; eexists; reflexivity. Qed.

Lemma get_length_truthy v :
  truthy v = true -> exists w, get_length v = Normal w.
Proof. destruct v; try discriminate; intros _; eexists; reflexivity. Qed.

(** The test for missing data never throws. *)
Lemma no_data_normal first : exists b, no_data first = Normal b.
Proof.
  unfold no_data. destruct (truthy first) eqn:Hf; cbn; [| eauto].
  destruct (get_named_truthy first (lit "data") Hf) as (d & ->). cbn.
  destruct (truthy d) eqn:Hd; cbn; [| eauto].
  destruct (get_length_truthy d Hd) as (n & ->). cbn. eauto.
Qed.

Lemma first_result_spec result :
  (if truthy result then get_index result 0 else Normal result)
  = Normal (first_result result).
Proof.
  unfold first_result. destruct (truthy result) eqn:H; [| reflexivity].
  now destruct (get_index_truthy result 0 H) as (w & ->).
Qed.

Lemma getSimpleData_no_data result :
  no_data (first_result result) = Normal true ->
  getSimpleData result = Normal VNull.
Proof.
  intros H. unfold getSimpleData. rewrite first_result_spec. cbn.
  now rewrite H.
Qed.

Lemma getSimpleListData_no_data result :
  no_data (first_result result) = Normal true ->
  getSimpleListData result = Normal VNull.
Proof.
  intros H. unfold getSimpleListData. rewrite first_result_spec. cbn.
  now rewrite H.
Qed.

Lemma no_data_rows props row rows :
  get_property props (lit "data") = VArray (row :: rows) ->
  no_data (VObject props) = Normal false.
Proof. intros H. unfold no_data. cbn. rewrite H. reflexivity. Qed.

Lemma map_completion_rows rows :
  forallb is_row rows = true ->
  map_completion
    (fun row => let! r := get_named row (lit "row") in get_index r 0) rows
  = Normal (map first_cell rows).
Proof.
  induction rows as [| row rows IH]; [reflexivity |].
  cbn [forallb]. intros H. apply andb_true_iff in H as [Hr Hs].
  cbn [map_completion map]. rewrite (IH Hs).
  unfold is_row, first_cell, row_cells in *.
  destruct row; try discriminate. cbn.
  destruct (get_property props (lit "row")); try discriminate.
  reflexivity.
Qed.

End SimpleDataFacts.

(** X7.  Both helpers return [null], and do not throw, when there is
    nothing to extract: a falsy result, a results array that is empty or
    starts with a falsy entry, a first entry without [data], and a first
    entry whose [data] is an empty array. *)
Theorem simple_data_absent (result : value) :
  (truthy result = false ->
   Neo4jClass.getSimpleData result = Normal VNull
   /\ Neo4jClass.getSimpleListData result = Normal VNull)
  /\ (result = VArray [] ->
      Neo4jClass.getSimpleData result = Normal VNull
      /\ Neo4jClass.getSimpleListData result = Normal VNull)
  /\ (forall first rest,
         result = VArray (first :: rest) ->
         truthy first = false ->
         Neo4jClass.getSimpleData result = Normal VNull
         /\ Neo4jClass.getSimpleListData result = Normal VNull)
  /\ (forall props rest,
         result = VArray (VObject props :: rest) ->
         truthy (get_property props (lit "data")) = false ->
         Neo4jClass.getSimpleData result = Normal VNull
         /\ Neo4jClass.getSimpleListData result = Normal VNull)
  /\ (forall props rest,
         result = VArray (VObject props :: rest) ->
         get_property props (lit "data") = VArray [] ->
         Neo4jClass.getSimpleData result = Normal VNull
         /\ Neo4jClass.getSimpleListData result = Normal VNull).
Proof.
  assert (K : forall r, Neo4jClass.no_data (first_result r) = Normal true ->
                        Neo4jClass.getSimpleData r = Normal VNull
                        /\ Neo4jClass.getSimpleListData r = Normal VNull)
    by (intros r H; split;
        [now apply getSimpleData_no_data
        | now apply getSimpleListData_no_data]).
  split; [| split; [| split; [| split]]].
  - intros H. apply K.
    unfold first_result. rewrite H. unfold Neo4jClass.no_data. now rewrite H.
  - intros ->. apply K. reflexivity.
  - intros first rest -> H. apply K.
    unfold first_result. cbn. unfold Neo4jClass.no_data. now rewrite H.
  - intros props rest -> H. apply K.
    unfold first_result, Neo4jClass.no_data. cbn. now rewrite H.
  - intros props rest -> H. apply K.
    unfold first_result, Neo4jClass.no_data. cbn. now rewrite H.
Qed.

Lemma simple_data_absent_witness :
  Neo4jClass.getSimpleData VUndefined = Normal VNull
  /\ Neo4jClass.getSimpleListData (VArray []) = Normal VNull
  /\ Neo4jClass.getSimpleData (VArray [VNull]) = Normal VNull
  /\ Neo4jClass.getSimpleListData
       (VArray [VObject [(lit "columns", VArray [])]]) = Normal VNull
  /\ Neo4jClass.getSimpleData
       (VArray [VObject [(lit "columns", VArray [VString (lit "u")]);
                         (lit "data", VArray [])]])
     = Normal VNull.
Proof.
  split; [| split; [| split; [| split]]].
  - exact (proj1 (proj1 (simple_data_absent VUndefined) eq_refl)).
  - exact (proj2 (proj1 (proj2 (simple_data_absent (VArray []))) eq_refl)).
  - exact (proj1 (proj1 (proj2 (proj2 (simple_data_absent (VArray [VNull]))))
                    VNull [] eq_refl eq_refl)).
  - exact (proj2 (proj1 (proj2 (proj2 (proj2
             (simple_data_absent
                (VArray [VObject [(lit "columns", VArray [])]])))))
             [(lit "columns", VArray [])] [] eq_refl eq_refl)).
  - exact (proj1 (proj2 (proj2 (proj2 (proj2
             (simple_data_absent
                (VArray [VObject [(lit "columns", VArray [VString (lit "u")]);
                                  (lit "data", VArray [])]])))))
             [(lit "columns", VArray [VString (lit "u")]);
              (lit "data", VArray [])] [] eq_refl eq_refl)).
Defined.

(** X8.  For a first entry with rows: when it has exactly one column and
    its first row is an object whose [row] is an array, [getSimpleData]
    returns the first cell of that row ([undefined] if the row is empty);
    when the number of columns is not one it returns [null] whatever the
    rows are. *)
Theorem getSimpleData_single_column (props : list (jsstr * value))
        (rest rows : list value) (row : value) :
  get_property props (lit "data") = VArray (row :: rows) ->
  (forall column cells,
      get_property props (lit "columns") = VArray [column] ->
      row_cells row = Some cells ->
      Neo4jClass.getSimpleData (VArray (VObject props :: rest))
      = Normal (nth 0 cells VUndefined))
  /\ (forall columns,
         get_property props (lit "columns") = VArray columns ->
         length columns <> 1 ->
         Neo4jClass.getSimpleData (VArray (VObject props :: rest))
         = Normal VNull).
Proof.
  intros Hd. split.
  - intros column cells Hc Hr.
    unfold Neo4jClass.getSimpleData. rewrite first_result_spec.
    cbn [and_then first_result truthy get_index nth].
    rewrite (no_data_rows props Hd). cbn. rewrite Hc. cbn. rewrite Hd. cbn.
    rewrite typeof_object.
    unfold row_cells in Hr. destruct row as [| | | | | | rp]; try discriminate.
    cbn. destruct (get_property rp (lit "row")); try discriminate.
    now injection Hr as ->.
  - intros columns Hc Hn.
    unfold Neo4jClass.getSimpleData. rewrite first_result_spec.
    cbn [and_then first_result truthy get_index nth].
    rewrite (no_data_rows props Hd). cbn. rewrite Hc. cbn.
    destruct (Z.eqb_spec (Z.of_nat (length columns)) 1) as [E |];
      [lia | reflexivity].
Qed.

Lemma getSimpleData_single_column_witness :
  Neo4jClass.getSimpleData
    (VArray [VObject [(lit "columns", VArray [VString (lit "n")]);
                      (lit "data",
                       VArray [VObject [(lit "row", VArray [VNumber 42])]])]])
  = Normal (VNumber 42)
  /\ Neo4jClass.getSimpleData
       (VArray [VObject [(lit "columns",
                          VArray [VString (lit "n"); VString (lit "m")]);
                         (lit "data",
                          VArray [VObject [(lit "row",
                                            VArray [VNumber 42; VNumber 7])]])]])
     = Normal VNull.
Proof.
  split.
  - exact (proj1 (@getSimpleData_single_column
                    [(lit "columns", VArray [VString (lit "n")]);
                     (lit "data",
                      VArray [VObject [(lit "row", VArray [VNumber 42])]])]
                    [] [] (VObject [(lit "row", VArray [VNumber 42])])
                    eq_refl)
             (VString (lit "n")) [VNumber 42] eq_refl eq_refl).
  - refine (proj2 (@getSimpleData_single_column
                     [(lit "columns",
                       VArray [VString (lit "n"); VString (lit "m")]);
                      (lit "data",
                       VArray [VObject [(lit "row",
                                         VArray [VNumber 42; VNumber 7])]])]
                     [] []
                     (VObject [(lit "row", VArray [VNumber 42; VNumber 7])])
                     eq_refl)
              [VString (lit "n"); VString (lit "m")] eq_refl _).
    simpl. lia.
Defined.

(** X9.  The branch of [getSimpleData] meant for rows that are not objects
    is never taken for a row that is an array, because [typeof] of an array
    is ["object"]: with one column and a first row that is an array (or
    [null]), [getSimpleData] throws a [TypeError]. *)
Theorem getSimpleData_array_row_throws (props : list (jsstr * value))
        (rest rows : list value) (row column : value) :
  get_property props (lit "data") = VArray (row :: rows) ->
  get_property props (lit "columns") = VArray [column] ->
  (exists cells, row = VArray cells) \/ row = VNull ->
  throws_TypeError (Neo4jClass.getSimpleData (VArray (VObject props :: rest)))
  = true.
Proof.
  intros Hd Hc Hr.
  unfold Neo4jClass.getSimpleData. rewrite first_result_spec.
  cbn [and_then first_result truthy get_index nth].
  rewrite (no_data_rows props Hd). cbn. rewrite Hc. cbn. rewrite Hd. cbn.
  rewrite typeof_object.
  destruct Hr as [(cells & ->) | ->]; reflexivity.
Qed.

Lemma getSimpleData_array_row_throws_witness :
  Neo4jClass.getSimpleData
    (VArray [VObject [(lit "columns", VArray [VString (lit "n")]);
                      (lit "data", VArray [VArray [VNumber 42]])]])
  = Throw (TypeError (lit "Cannot read property '0' of undefined"))
  /\ throws_TypeError
       (Neo4jClass.getSimpleData
          (VArray [VObject [(lit "columns", VArray [VString (lit "n")]);
                            (lit "data", VArray [VArray [VNumber 42]])]]))
     = true.
Proof.
  split; [reflexivity |].
  exact (@getSimpleData_array_row_throws
           [(lit "columns", VArray [VString (lit "n")]);
            (lit "data", VArray [VArray [VNumber 42]])]
           [] [] (VArray [VNumber 42]) (VString (lit "n"))
           eq_refl eq_refl (or_introl (ex_intro _ [VNumber 42] eq_refl))).
Defined.

Lemma getSimpleListData_rows_fact (props : list (jsstr * value))
      (rest rows : list value) (row : value) :
  get_property props (lit "data") = VArray (row :: rows) ->
  forallb is_row (row :: rows) = true ->
  Neo4jClass.getSimpleListData (VArray (VObject props :: rest))
  = Normal (VArray (map first_cell (row :: rows))).
Proof.
  intros Hd Hr.
  unfold Neo4jClass.getSimpleListData. rewrite first_result_spec.
  cbn [and_then first_result truthy get_index nth].
  rewrite (no_data_rows props Hd). cbn [and_then get_named].
  rewrite Hd. unfold Array_map.
  now rewrite (map_completion_rows _ Hr).
Qed.

(** X10.  When every row of the first entry's [data] is an object whose
    [row] is an array, [getSimpleListData] returns the array of the first
    cells of the rows, in order ([undefined] for an empty row).  The
    columns are not looked at. *)
Theorem getSimpleListData_first_cells (props : list (jsstr * value))
        (rest rows : list value) (row : value) :
  get_property props (lit "data") = VArray (row :: rows) ->
  forallb is_row (row :: rows) = true ->
  Neo4jClass.getSimpleListData (VArray (VObject props :: rest))
  = Normal (VArray (map first_cell (row :: rows))).
Proof. apply getSimpleListData_rows_fact. Qed.

Lemma getSimpleListData_first_cells_witness :
  forallb is_row [VObject [(lit "row", VArray [VNumber 1; VNumber 2])];
                  VObject [(lit "row", VArray [])];
                  VObject [(lit "row", VArray [VString (lit "x")])]]
  = true
  /\ Neo4jClass.getSimpleListData
       (VArray
          [VObject
             [(lit "columns", VArray [VString (lit "a"); VString (lit "b")]);
              (lit "data",
               VArray [VObject [(lit "row", VArray [VNumber 1; VNumber 2])];
                       VObject [(lit "row", VArray [])];
                       VObject [(lit "row", VArray [VString (lit "x")])]])]])
     = Normal (VArray [VNumber 1; VUndefined; VString (lit "x")]).
Proof.
  split; [reflexivity |].
  exact (@getSimpleListData_first_cells
           [(lit "columns", VArray [VString (lit "a"); VString (lit "b")]);
            (lit "data",
             VArray [VObject [(lit "row", VArray [VNumber 1; VNumber 2])];
                     VObject [(lit "row", VArray [])];
                     VObject [(lit "row", VArray [VString (lit "x")])]])]
           []
           [VObject [(lit "row", VArray [])];
            VObject [(lit "row", VArray [VString (lit "x")])]]
           (VObject [(lit "row", VArray [VNumber 1; VNumber 2])])
           eq_refl eq_refl).
Defined.

(** X11.  The two helpers agree: whenever [getSimpleListData] returns a
    non-empty array and the first entry has exactly one column,
    [getSimpleData] returns the first element of that array. *)
Theorem getSimpleData_is_first_of_list (props : list (jsstr * value))
        (rest l : list value) (column v : value) :
  get_property props (lit "columns") = VArray [column] ->
  Neo4jClass.getSimpleListData (VArray (VObject props :: rest))
  = Normal (VArray (v :: l)) ->
  Neo4jClass.getSimpleData (VArray (VObject props :: rest)) = Normal v.
Proof.
  intros Hc H.
  unfold Neo4jClass.getSimpleListData in H.
  unfold Neo4jClass.getSimpleData.
  rewrite first_result_spec in *.
  cbn [and_then first_result truthy get_index nth] in *.
  destruct (no_data_normal (VObject props)) as (b & Hb).
  rewrite Hb in *. cbn [and_then] in *.
  destruct b; [discriminate |].
  cbn [get_named and_then] in *. rewrite Hc. cbn.
  destruct (get_property props (lit "data")) as [| | | | | rows |];
    try discriminate.
  cbn [Array_map] in H.
  destruct rows as [| row rows]; [discriminate |].
  cbn [map_completion] in H. cbn [get_index nth and_then].
  rewrite typeof_object.
  destruct row as [| | | | | | rp]; try discriminate.
  cbn [get_named and_then] in *.
  destruct (get_index (get_property rp (lit "row")) 0) as [w | e];
    [| discriminate].
  cbn [and_then] in H.
  destruct (map_completion _ rows); [| discriminate].
  cbn in H. congruence.
Qed.

Lemma getSimpleData_is_first_of_list_witness :
  Neo4jClass.getSimpleListData
    (VArray [VObject [(lit "columns", VArray [VString (lit "n")]);
                      (lit "data",
                       VArray [VObject [(lit "row", VArray [VNumber 42])];
                               VObject [(lit "row", VArray [VNumber 43])]])]])
  = Normal (VArray [VNumber 42; VNumber 43])
  /\ Neo4jClass.getSimpleData
       (VArray [VObject [(lit "columns", VArray [VString (lit "n")]);
                         (lit "data",
                          VArray [VObject [(lit "row", VArray [VNumber 42])];
                                  VObject [(lit "row", VArray [VNumber 43])]])]])
     = Normal (VNumber 42).
Proof.
  split; [reflexivity |].
  exact (@getSimpleData_is_first_of_list
           [(lit "columns", VArray [VString (lit "n")]);
            (lit "data",
             VArray [VObject [(lit "row", VArray [VNumber 42])];
                     VObject [(lit "row", VArray [VNumber 43])]])]
           [] [VNumber 43] (VString (lit "n")) (VNumber 42)
           eq_refl eq_refl).
Defined.

(* ================================================================== *)
(** ** init, createTransaction and simpleTransaction *)
(* ================================================================== *)

(** X12.  [init] of [index.js] does not depend on what the object held
    before: the URL is the one given, and the credential is the base64
    text of [user:password] when both are non-empty and empty otherwise, so
    that a call without credentials clears earlier ones.  The transaction
    [createTransaction] then makes is fresh, posts to the URL followed by
    [/db/data/transaction], and sends that credential after ["Basic "]. *)
Theorem init_sets_credentials (base64 : jsstr -> jsstr)
        (this : Neo4jClass.Neo4j) (url user password : jsstr) :
  let db := snd (Neo4jClass.init base64 url user password this) in
  let t := Neo4jClass.createTransaction db in
  fst (Neo4jClass.init base64 url user password this) = Normal tt
  /\ db = {| Neo4jClass.graphDatabaseUrl := url;
             Neo4jClass.auth :=
               if Neo4jClass.nonempty user && Neo4jClass.nonempty password
               then base64 (user ++ lit ":" ++ password)
               else [] |}
  /\ Index.used t = false
  /\ Index.statements t = []
  /\ Index.url (Index.options (Index.enter t))
     = url ++ lit "/db/data/transaction"
  /\ In (lit "Authorization", lit "Basic " ++ Neo4jClass.auth db)
       (Index.headers (Index.options (Index.enter t))).
Proof.
  intros db t. subst t db.
  unfold Neo4jClass.init, bind, modify, ret. cbn.
  destruct (Neo4jClass.nonempty user && Neo4jClass.nonempty password);
    cbn; repeat split; right; right; left; reflexivity.
Qed.

(** X13.  [init] of the later [index.js] leaves the credential alone when
    the user name or the password is empty: credentials set by an earlier
    call stay in place, and the next transaction still sends them. *)
Theorem init_keeps_old_credentials (base64 : jsstr -> jsstr)
        (this : Neo4j001.Neo4j) (url : jsstr) (port : Z)
        (user password : jsstr) :
  Neo4jClass.nonempty user && Neo4jClass.nonempty password = false ->
  let db := snd (Neo4j001.init base64 url port user password this) in
  db = {| Neo4j001.graphDatabaseUrl := url;
          Neo4j001.graphDBPort := port;
          Neo4j001.auth := Neo4j001.auth this |}
  /\ TransactionJs.auth (Neo4j001.createTransaction db) = Neo4j001.auth this
  /\ In (lit "Authorization", lit "Basic " ++ Neo4j001.auth this)
       (TransactionJs.headers
          (TransactionJs.options
             (TransactionJs.enter (Neo4j001.createTransaction db)))).
Proof.
  intros H db. subst db.
  unfold Neo4j001.init, bind, modify, ret. cbn. rewrite H. cbn.
  repeat split. right; right; left; reflexivity.
Qed.

Lemma init_keeps_old_credentials_witness :
  Neo4jClass.nonempty (lit "neo4j") && Neo4jClass.nonempty [] = false
  /\ Neo4j001.auth
       (snd (Neo4j001.init (fun s => lit "b64(" ++ s ++ lit ")")
               (lit "127.0.0.1") 7474 (lit "neo4j") []
               (snd (Neo4j001.init (fun s => lit "b64(" ++ s ++ lit ")")
                       (lit "10.0.0.1") 7474 (lit "admin") (lit "secret")
                       Neo4j001.new))))
     = lit "b64(admin:secret)".
Proof.
  split; [reflexivity |].
  exact (f_equal Neo4j001.auth
           (proj1 (@init_keeps_old_credentials
                     (fun s => lit "b64(" ++ s ++ lit ")")
                     (snd (Neo4j001.init (fun s => lit "b64(" ++ s ++ lit ")")
                             (lit "10.0.0.1") 7474 (lit "admin")
                             (lit "secret") Neo4j001.new))
                     (lit "127.0.0.1") 7474 (lit "neo4j") [] eq_refl))).
Defined.

Lemma send_requests_at_most_two send t :
  length (TransactionJs.requests
            (TransactionJs.trace (snd (TransactionJs.execute send t)))) <= 2.
Proof.
  rewrite TransactionJsTable.send_execute_table.
  destruct (send (TransactionJs.options (TransactionJs.enter t)))
    as [res | e]; [| cbn; lia].
  destruct (TransactionJsTerms.status_ok (TransactionJs.statusCode res));
    [| cbn; lia].
  destruct (TransactionJs.payLoad res) as [js | e]; [| cbn; lia].
  destruct (errors js); cbn; lia.
Qed.

Lemma simpleTransaction_prepare_spec this statements params :
  Neo4j001.simpleTransaction_prepare this statements params
  = Normal (simple_transaction this statements params).
Proof.
  unfold Neo4j001.simpleTransaction_prepare, Neo4j001.createQueryBuilder.
  rewrite add_leaves. cbn [and_then QueryBuilder.q QueryBuilder.new app].
  rewrite TransactionJsFacts.send_addQuery_unused by reflexivity.
  reflexivity.
Qed.

(** X14.  [simpleTransaction] sends its fragments as one statement: the
    first request goes to host and port of the object, path
    [/db/data/transaction], and its body holds exactly one entry, whose text
    is the rendering of the fragments in order and whose parameters are the
    ones given; all in all it issues the requests of one [execute], at most
    two. *)
Theorem simpleTransaction_sends_one_statement
        (send : TransactionJs.request -> completion TransactionJs.response)
        (this : Neo4j001.Neo4j) (statements : QueryBuilder.partial)
        (params : value) :
  let rs := snd (Neo4j001.simpleTransaction send this statements params) in
  rs = TransactionJs.requests
         (TransactionJs.trace
            (snd (TransactionJs.execute send
                    (simple_transaction this statements params))))
  /\ length rs <= 2
  /\ exists first later,
      rs = first :: later
      /\ TransactionJs.req_host first = Neo4j001.graphDatabaseUrl this
      /\ TransactionJs.req_port first = Neo4j001.graphDBPort this
      /\ TransactionJs.path first = lit "/db/data/transaction"
      /\ TransactionJs.method first = lit "post"
      /\ TransactionJs.body first
         = Some (body_json
                   [entry_json
                      {| statement := QueryBuilder.render (leaves statements);
                         parameters := params |}]).
Proof.
  intros rs. subst rs.
  unfold Neo4j001.simpleTransaction. rewrite simpleTransaction_prepare_spec.
  set (t := simple_transaction this statements params).
  destruct (TransactionJs.execute send t) as [c f] eqn:E.
  cbn [snd].
  assert (Ef : f = snd (TransactionJs.execute send t)) by now rewrite E.
  rewrite Ef. split; [reflexivity |]. split.
  - apply send_requests_at_most_two.
  - destruct (TransactionJsFacts.send_execute_first_request send t)
      as (later & El).
    rewrite El. eexists. eexists. split; [reflexivity |].
    repeat split.
    apply (statements_body_json
             [{| statement := QueryBuilder.render (leaves statements);
                 parameters := params |}]).
Qed.

(** X15.  How [simpleTransaction] settles.  A rejection of [execute] is
    passed on as it is.  When [execute] resolves, the results go through
    [getSimpleListData]: rows that are objects with a [row] array give the
    array of their first cells, an entry without rows gives [null], and an
    exception of [getSimpleListData] rejects the promise. *)
Theorem simpleTransaction_settles
        (send : TransactionJs.request -> completion TransactionJs.response)
        (this : Neo4j001.Neo4j) (statements : QueryBuilder.partial)
        (params : value) :
  let t := simple_transaction this statements params in
  (forall e,
      fst (TransactionJs.execute send t) = Normal (Rejected e) ->
      fst (Neo4j001.simpleTransaction send this statements params)
      = Rejected e)
  /\ (forall results,
         fst (TransactionJs.execute send t) = Normal (Resolved results) ->
         fst (Neo4j001.simpleTransaction send this statements params)
         = match Neo4jClass.getSimpleListData results with
           | Normal v => Resolved v
           | Throw e => Rejected e
           end)
  /\ (forall props rest row rows,
         fst (TransactionJs.execute send t)
         = Normal (Resolved (VArray (VObject props :: rest))) ->
         get_property props (lit "data") = VArray (row :: rows) ->
         forallb is_row (row :: rows) = true ->
         fst (Neo4j001.simpleTransaction send this statements params)
         = Resolved (VArray (map first_cell (row :: rows))))
  /\ (forall props rest,
         fst (TransactionJs.execute send t)
         = Normal (Resolved (VArray (VObject props :: rest))) ->
         get_property props (lit "data") = VArray [] ->
         fst (Neo4j001.simpleTransaction send this statements params)
         = Resolved VNull).
Proof.
  intros t.
  assert (K : forall o,
             fst (TransactionJs.execute send t) = Normal o ->
             fst (Neo4j001.simpleTransaction send this statements params)
             = match o with
               | Resolved results =>
                   match Neo4jClass.getSimpleListData results with
                   | Normal v => Resolved v
                   | Throw e => Rejected e
                   end
               | Rejected e => Rejected e
               end).
  { intros o H. unfold Neo4j001.simpleTransaction.
    rewrite simpleTransaction_prepare_spec. fold t.
    destruct (TransactionJs.execute send t) as [c f]. cbn [fst] in *.
    subst c. now destruct o. }
  split; [| split; [| split]].
  - intros e H. now rewrite (K _ H).
  - intros results H. now rewrite (K _ H).
  - intros props rest row rows H Hd Hr. rewrite (K _ H).
    pose proof (@getSimpleListData_rows_fact props rest rows row Hd Hr) as E.
    now rewrite E.
  - intros props rest H Hd. rewrite (K _ H).
    assert (E : Neo4jClass.getSimpleListData (VArray (VObject props :: rest))
                = Normal VNull).
    { apply getSimpleListData_no_data.
      unfold first_result, Neo4jClass.no_data. cbn. now rewrite Hd. }
    now rewrite E.
Qed.

Lemma simpleTransaction_settles_witness :
  fst (Neo4j001.simpleTransaction
         (TransactionJsTerms.mock (Normal Sample.server_error')
            (Normal Sample.ok'))
         MoreSamples.db MoreSamples.query VUndefined)
  = Rejected (new_Error (lit "Error: Query failed to return OK or CREATED"))
  /\ fst (Neo4j001.simpleTransaction
            (TransactionJsTerms.mock (Normal MoreSamples.created_names)
               (Normal Sample.ok'))
            MoreSamples.db MoreSamples.query VUndefined)
     = Resolved (VArray [VString (lit "Ann"); VString (lit "Bob")]).
Proof.
  split.
  - exact (proj1 (@simpleTransaction_settles
                    (TransactionJsTerms.mock (Normal Sample.server_error')
                       (Normal Sample.ok'))
                    MoreSamples.db MoreSamples.query VUndefined)
             _ eq_refl).
  - exact (proj1 (proj2 (proj2 (@simpleTransaction_settles
                    (TransactionJsTerms.mock
                       (Normal MoreSamples.created_names)
                       (Normal Sample.ok'))
                    MoreSamples.db MoreSamples.query VUndefined)))
             [(lit "columns", VArray [VString (lit "u.name")]);
              (lit "data",
               VArray [VObject [(lit "row", VArray [VString (lit "Ann")])];
                       VObject [(lit "row", VArray [VString (lit "Bob")])]])]
             []
             (VObject [(lit "row", VArray [VString (lit "Ann")])])
             [VObject [(lit "row", VArray [VString (lit "Bob")])]]
             eq_refl eq_refl eq_refl).
Defined.

(* ================================================================== *)
(** ** More on rendering *)
(* ================================================================== *)

Section RenderFacts.

Import QueryBuilder.

Let nb : N -> bool := fun c => negb (is_break c).

Lemma drop_ws_word s : starts_with_ws s = false -> drop_ws s = s.
Proof. destruct s as [| c s]; [reflexivity |]. simpl. now intros ->. Qed.

Lemma drop_ws_all_ws w s : forallb is_ws w = true -> drop_ws (w ++ s) = drop_ws s.
Proof.
  induction w as [| c w IH]; [reflexivity |].
  simpl. intros H. apply andb_true_iff in H as [Hc Hw].
  rewrite Hc. now apply IH.
Qed.

(** [trim] finds the middle of any split into whitespace, text that neither
    starts nor ends with whitespace, whitespace. *)
Lemma trim_unique l m r :
  forallb is_ws l = true -> forallb is_ws r = true ->
  starts_with_ws m = false -> ends_with_ws m = false ->
  trim (l ++ m ++ r) = m.
Proof.
  intros Hl Hr Hs He. unfold trim.
  rewrite drop_ws_all_ws by exact Hl.
  destruct m as [| c m].
  - simpl. replace (drop_ws r) with (@nil N).
    + reflexivity.
    + rewrite <- (app_nil_r r), drop_ws_all_ws by exact Hr. reflexivity.
  - rewrite (@drop_ws_word ((c :: m) ++ r) Hs).
    rewrite rev_app_distr.
    rewrite drop_ws_all_ws by now apply forallb_rev.
    rewrite (@drop_ws_word (rev (c :: m)) He).
    apply rev_involutive.
Qed.

Lemma trim_clean_text s :
  starts_with_ws s = false -> ends_with_ws s = false -> trim s = s.
Proof.
  intros Hs He.
  pose proof (@trim_unique [] s [] eq_refl eq_refl Hs He) as H.
  now rewrite app_nil_r in H.
Qed.

Lemma trim_ws_suffix s w : forallb is_ws w = true -> trim (s ++ w) = trim s.
Proof.
  intros Hw. destruct (trim_split s) as (l & r & E & Hl & Hr).
  rewrite E at 1. rewrite <- !app_assoc.
  apply trim_unique; auto using trim_starts, trim_ends.
  rewrite forallb_app. now rewrite Hr, Hw.
Qed.

Lemma trim_ws_prefix w s : forallb is_ws w = true -> trim (w ++ s) = trim s.
Proof.
  intros Hw. destruct (trim_split s) as (l & r & E & Hl & Hr).
  rewrite E at 1. rewrite app_assoc.
  apply trim_unique; auto using trim_starts, trim_ends.
  rewrite forallb_app. now rewrite Hl, Hw.
Qed.

Lemma scan_clean_text s : adjacent_ws s = false -> scan NoRun s = s.
Proof.
  induction s as [| c s IH]; [reflexivity |].
  simpl. intros H. apply orb_false_iff in H as [H1 H2].
  destruct (is_ws c) eqn:Hc.
  - simpl in H1. rewrite scan_single_word by exact H1. now rewrite IH.
  - simpl. now rewrite IH.
Qed.

Lemma filter_all (f : N -> bool) s : forallb f s = true -> filter f s = s.
Proof.
  induction s as [| c s IH]; [reflexivity |].
  simpl. intros H. apply andb_true_iff in H as [Hc Hs].
  now rewrite Hc, IH.
Qed.

Lemma clean_parts s :
  clean s = true ->
  adjacent_ws s = false /\ starts_with_ws s = false
  /\ ends_with_ws s = false /\ forallb nb s = true.
Proof.
  unfold clean. intros H.
  apply andb_true_iff in H as [H H4].
  apply andb_true_iff in H as [H H3].
  apply andb_true_iff in H as [H1 H2].
  repeat split; try now apply negb_true_iff. exact H4.
Qed.

(** A clean text renders to itself. *)
Lemma render_clean_text s : clean s = true -> render [s] = s.
Proof.
  intros H. apply clean_parts in H as (H1 & H2 & H3 & H4).
  rewrite render_scan. cbn [join].
  rewrite scan_clean_text by exact H1.
  rewrite filter_all by exact H4.
  now apply trim_clean_text.
Qed.

(** What [toString] returns is clean. *)
Lemma render_is_clean l : clean (render l) = true.
Proof.
  unfold clean.
  rewrite render_no_adjacent_ws, render_no_breaks.
  unfold render at 1 2. now rewrite trim_starts, trim_ends.
Qed.

End RenderFacts.

(** X16.  Rendering is idempotent: a text that [toString] returned, given
    to a builder as its only fragment, comes back unchanged; so does every
    text without neighbouring whitespace, without whitespace at its ends
    and without carriage return, line feed or tab. *)
Theorem render_idempotent (l : list jsstr) (s : jsstr) :
  QueryBuilder.render [QueryBuilder.render l] = QueryBuilder.render l
  /\ clean (QueryBuilder.render l) = true
  /\ (clean s = true -> QueryBuilder.render [s] = s).
Proof.
  split; [| split].
  - apply render_clean_text, render_is_clean.
  - apply render_is_clean.
  - apply render_clean_text.
Qed.

Lemma render_idempotent_witness :
  clean (lit "MATCH (u) RETURN u") = true
  /\ QueryBuilder.render [lit "MATCH (u) RETURN u"] = lit "MATCH (u) RETURN u".
Proof.
  split; [reflexivity |].
  exact (proj2 (proj2 (@render_idempotent [] (lit "MATCH (u) RETURN u")))
           eq_refl).
Defined.

Section RenderContext.

Import QueryBuilder.

Let nb : N -> bool := fun c => negb (is_break c).

Lemma filter_all_ws (f : N -> bool) w :
  forallb is_ws w = true -> forallb is_ws (filter f w) = true.
Proof.
  induction w as [| c w IH]; [reflexivity |].
  simpl. intros H. apply andb_true_iff in H as [Hc Hw].
  destruct (f c); simpl; [rewrite Hc |]; now apply IH.
Qed.

Lemma flush_all_ws r : run_ok r -> forallb is_ws (flush r) = true.
Proof. destruct r as [| c |]; simpl; [| intros -> |]; reflexivity. Qed.

Lemma after_ws_ok r c : is_ws c = true -> run_ok (after_ws r c).
Proof. destruct r; simpl; auto. Qed.

Lemma scan_ws r c s : is_ws c = true -> scan r (c :: s) = scan (after_ws r c) s.
Proof. intros H. simpl. now rewrite H. Qed.

Lemma scan_word r c s :
  is_ws c = false -> scan r (c :: s) = flush r ++ c :: scan NoRun s.
Proof. intros H. simpl. now rewrite H. Qed.

(** Behind a code unit that is not whitespace the scan starts afresh. *)
Lemma scan_snoc_word r u d v :
  is_ws d = false ->
  scan r (u ++ d :: v) = scan r (u ++ [d]) ++ scan NoRun v.
Proof.
  intros Hd. revert r. induction u as [| c u IH]; intros r.
  - simpl. rewrite Hd. now rewrite <- app_assoc.
  - simpl. destruct (is_ws c).
    + apply IH.
    + rewrite IH. now rewrite <- app_assoc.
Qed.

Lemma scan_snoc_ends r u d :
  is_ws d = false -> exists Z, scan r (u ++ [d]) = Z ++ [d].
Proof.
  intros Hd. revert r. induction u as [| c u IH]; intros r.
  - simpl. rewrite Hd. now exists (flush r).
  - simpl. destruct (is_ws c).
    + apply IH.
    + destruct (IH NoRun) as (Z & ->).
      exists (flush r ++ c :: Z). now rewrite <- app_assoc.
Qed.

(** Whitespace followed by a space leaves a run under way. *)
Lemma scan_ws_space r w s :
  forallb is_ws w = true -> scan r (w ++ SP :: s) = scan Multi s.
Proof.
  revert r. induction w as [| c w IH]; intros r H.
  - simpl. change (is_ws SP) with true. cbv iota.
    destruct r; auto using scan_single_space.
  - simpl in H. apply andb_true_iff in H as [Hc Hw].
    simpl. rewrite Hc. now apply IH.
Qed.

Lemma scan_after_space r A :
  exists O, forall rest, scan r (A ++ SP :: rest) = O ++ scan Multi rest.
Proof.
  revert r. induction A as [| c A IH]; intros r.
  - exists []. intros rest. now apply (scan_ws_space r []).
  - destruct (is_ws c) eqn:Hc.
    + destruct (IH (after_ws r c)) as (O & HO). exists O. intros rest.
      simpl. rewrite Hc. apply HO.
    + destruct (IH NoRun) as (O & HO). exists (flush r ++ c :: O).
      intros rest. simpl. rewrite Hc, HO. now rewrite <- app_assoc.
Qed.

(** From two states the scan differs in leading whitespace only. *)
Lemma scan_converge r r' s :
  run_ok r -> run_ok r' ->
  exists W W' Y,
    forallb is_ws W = true /\ forallb is_ws W' = true
    /\ scan r s = W ++ Y /\ scan r' s = W' ++ Y.
Proof.
  revert r r'. induction s as [| c s IH]; intros r r' Hr Hr'.
  - exists (flush r), (flush r'), [].
    rewrite !app_nil_r. auto using flush_all_ws.
  - destruct (is_ws c) eqn:Hc.
    + rewrite !scan_ws by exact Hc. apply IH; now apply after_ws_ok.
    + rewrite !scan_word by exact Hc.
      exists (flush r), (flush r'), (c :: scan NoRun s).
      auto using flush_all_ws.
Qed.

Lemma norm_from_any r s :
  run_ok r ->
  trim (filter nb (scan r s)) = trim (filter nb (scan NoRun s)).
Proof.
  intros Hr.
  destruct (@scan_converge r NoRun s Hr I)
    as (W & W' & Y & HW & HW' & E & E').
  rewrite E, E', !filter_app.
  rewrite !trim_ws_prefix by now apply filter_all_ws.
  reflexivity.
Qed.

(** One more space at the end changes trailing whitespace only. *)
Lemma scan_trailing r s :
  run_ok r ->
  exists Y S S',
    forallb is_ws S = true /\ forallb is_ws S' = true
    /\ scan r s = Y ++ S /\ scan r (s ++ [SP]) = Y ++ S'.
Proof.
  revert r. induction s as [| c s IH]; intros r Hr.
  - exists [], (flush r), (flush (after_ws r SP)). simpl.
    change (is_ws SP) with true. cbv iota.
    repeat split; auto using flush_all_ws.
    apply flush_all_ws. now apply after_ws_ok.
  - destruct (is_ws c) eqn:Hc.
    + simpl. rewrite Hc. apply IH. now apply after_ws_ok.
    + destruct (IH NoRun I) as (Y & S & S' & HS & HS' & E & E').
      exists (flush r ++ c :: Y), S, S'. simpl. rewrite Hc, E, E'.
      rewrite <- !app_assoc. auto.
Qed.

Lemma render_leading_space s : render [SP :: s] = render [s].
Proof.
  rewrite !render_scan. cbn [join].
  rewrite (@scan_ws NoRun SP s eq_refl).
  apply (@norm_from_any (Single SP) s). reflexivity.
Qed.

Lemma render_trailing_space s : render [s ++ [SP]] = render [s].
Proof.
  rewrite !render_scan. cbn [join].
  destruct (@scan_trailing NoRun s I) as (Y & S & S' & HS & HS' & E & E').
  rewrite E, E', !filter_app.
  rewrite !trim_ws_suffix by now apply filter_all_ws.
  reflexivity.
Qed.

Lemma ends_with_ws_app a s :
  s <> [] -> ends_with_ws (a ++ s) = ends_with_ws s.
Proof.
  intros H. unfold ends_with_ws. rewrite rev_app_distr.
  destruct (rev s) as [| c t] eqn:E; [| reflexivity].
  apply (f_equal (@rev N)) in E. rewrite rev_involutive in E.
  now destruct H.
Qed.

Lemma snoc_of_ends s :
  s <> [] -> ends_with_ws s = false ->
  exists u d, s = u ++ [d] /\ is_ws d = false.
Proof.
  intros Hn He. unfold ends_with_ws in He.
  destruct (rev s) as [| d t] eqn:E.
  - apply (f_equal (@rev N)) in E. rewrite rev_involutive in E.
    now destruct Hn.
  - exists (rev t), d. split; [| exact He].
    apply (f_equal (@rev N)) in E. now rewrite rev_involutive in E.
Qed.

Lemma filter_ends s :
  ends_with_ws s = false -> ends_with_ws (filter nb s) = false.
Proof.
  unfold ends_with_ws. intros H. rewrite <- filter_rev.
  apply filter_starts; [exact not_break_ws | exact H].
Qed.

(** The scan up to a space that follows: what is written by then ends with
    a code unit that is not whitespace, and a run is under way. *)
Lemma scan_then_space r x :
  run_ok r ->
  exists Y S,
    forallb is_ws S = true
    /\ scan r x = Y ++ S
    /\ (forall B, scan r (x ++ SP :: B) = Y ++ scan Multi B)
    /\ (Y = [] \/ ends_with_ws Y = false).
Proof.
  revert r. induction x as [| c x IH]; intros r Hr.
  - exists [], (flush r). repeat split; auto using flush_all_ws.
    intros B. now apply (scan_ws_space r []).
  - destruct (is_ws c) eqn:Hc.
    + destruct (IH (after_ws r c) (@after_ws_ok r c Hc))
        as (Y & S & HS & E & EB & HY).
      exists Y, S. simpl. rewrite Hc. auto.
    + destruct (IH NoRun I) as (Y & S & HS & E & EB & HY).
      exists (flush r ++ c :: Y), S. simpl. rewrite Hc.
      repeat split; auto.
      * rewrite E. now rewrite <- app_assoc.
      * intros B. rewrite EB. now rewrite <- app_assoc.
      * right. destruct Y as [| y Y'].
        -- rewrite (@ends_with_ws_app (flush r) [c]) by discriminate.
           exact Hc.
        -- destruct HY as [HY | HY]; [discriminate |].
           change (flush r ++ c :: y :: Y')
             with (flush r ++ [c] ++ y :: Y').
           rewrite app_assoc.
           now rewrite ends_with_ws_app by discriminate.
Qed.

(** A text made of whitespace renders to nothing. *)
Lemma render_all_ws x : forallb is_ws x = true -> render [x] = [].
Proof.
  intros H. pose proof (render_keeps_words [x]) as K.
  cbn [concat] in K. rewrite app_nil_r in K.
  rewrite (filter_not_ws_all_ws _ H) in K.
  pose proof (trim_starts
                (replace_all re_breaks []
                   (replace_all re_ws_run [SP] (join [SP] [x])))) as Hs.
  fold (render [x]) in Hs.
  destruct (render [x]) as [| c R]; [reflexivity |].
  simpl in Hs. simpl in K. unfold not_ws in K at 1. rewrite Hs in K.
  discriminate.
Qed.

(** Behind a space and before a space a text counts as its rendering. *)
Lemma scan_rendered x B :
  filter nb (scan Multi (x ++ SP :: B))
  = filter nb (scan Multi (render [x] ++ SP :: B)).
Proof.
  destruct (drop_ws_split x) as (p & Ex & Hp).
  pose proof (drop_ws_starts x) as Hstart.
  destruct (drop_ws x) as [| c0 rest] eqn:Ed.
  - (* nothing but whitespace *)
    rewrite app_nil_r in Ex. subst p.
    rewrite (render_all_ws _ Hp). simpl app.
    now rewrite scan_ws_space.
  - simpl in Hstart.
    destruct (@scan_then_space NoRun rest I) as (Y & S & HS & E & EB & HY).
    (* the scan of x from a run *)
    assert (Ex' : scan Multi x = SP :: c0 :: Y ++ S).
    { rewrite Ex, scan_multi_ws by exact Hp.
      rewrite scan_word by exact Hstart. now rewrite E. }
    assert (ExB : scan Multi (x ++ SP :: B) = SP :: c0 :: Y ++ scan Multi B).
    { rewrite Ex, <- app_assoc, scan_multi_ws by exact Hp.
      change ((c0 :: rest) ++ SP :: B) with (c0 :: rest ++ SP :: B).
      rewrite scan_word by exact Hstart. now rewrite EB. }
    (* the rendering of x *)
    assert (Hc0 : nb c0 = true).
    { unfold nb. destruct (is_break c0) eqn:Hb; [| reflexivity].
      apply is_break_ws in Hb. congruence. }
    set (K := c0 :: filter nb Y).
    assert (HK : render [x] = K).
    { rewrite render_scan. cbn [join]. fold nb.
      rewrite <- (@norm_from_any Multi x I). rewrite Ex'.
      change (SP :: c0 :: Y ++ S) with ([SP] ++ (c0 :: Y) ++ S).
      rewrite !filter_app. cbn [filter]. rewrite Hc0.
      change (nb SP) with true. cbv iota. fold K.
      apply trim_unique; [reflexivity | now apply filter_all_ws | exact Hstart |].
      unfold K.
      replace (c0 :: filter nb Y) with (filter nb (c0 :: Y))
        by (cbn [filter]; now rewrite Hc0).
      apply filter_ends.
      destruct HY as [-> | HY]; [exact Hstart |].
      destruct Y as [| y Y']; [exact Hstart |].
      change (c0 :: y :: Y') with ([c0] ++ y :: Y').
      now rewrite ends_with_ws_app by discriminate. }
    rewrite HK, ExB.
    (* the scan of the rendering *)
    pose proof (render_is_clean [x]) as Hclean. rewrite HK in Hclean.
    apply clean_parts in Hclean as (H1 & H2 & H3 & H4).
    destruct (@snoc_of_ends K ltac:(discriminate) H3) as (u & d & Eu & Hd).
    assert (E0 : scan NoRun (K ++ SP :: B) = K ++ scan Multi B).
    { rewrite Eu, <- app_assoc. cbn [app].
      rewrite scan_snoc_word by exact Hd.
      rewrite <- Eu, (scan_clean_text _ H1). f_equal.
      apply (@scan_ws_space NoRun [] B eq_refl). }
    assert (EK : scan Multi (K ++ SP :: B) = SP :: K ++ scan Multi B).
    { unfold K in E0 |- *. cbn [app] in E0 |- *.
      rewrite (@scan_word NoRun c0 _ Hstart) in E0.
      rewrite (@scan_word Multi c0 _ Hstart).
      cbn [flush app] in E0 |- *. now rewrite E0. }
    rewrite EK.
    change (SP :: c0 :: Y ++ scan Multi B)
      with ([SP] ++ (c0 :: Y) ++ scan Multi B).
    change (SP :: K ++ scan Multi B) with ([SP] ++ K ++ scan Multi B).
    rewrite !filter_app. f_equal. f_equal.
    rewrite (filter_all nb K H4). unfold K. cbn [filter]. now rewrite Hc0.
Qed.

Lemma render_in_spaces A x B :
  render [A ++ SP :: x ++ SP :: B] = render [A ++ SP :: render [x] ++ SP :: B].
Proof.
  rewrite (render_scan [A ++ SP :: x ++ SP :: B]).
  rewrite (render_scan [A ++ SP :: render [x] ++ SP :: B]).
  cbn [join]. destruct (scan_after_space NoRun A) as (O & HO).
  rewrite !HO, !filter_app. fold nb. now rewrite scan_rendered.
Qed.

Lemma render_joined l : render l = render [join [SP] l].
Proof. reflexivity. Qed.

Lemma render_padded s : render [s] = render [SP :: s ++ [SP]].
Proof.
  change (SP :: s ++ [SP]) with ((SP :: s) ++ [SP]).
  now rewrite render_trailing_space, render_leading_space.
Qed.

Lemma join_padded l1 l2 :
  exists A B, forall x,
    SP :: join [SP] (l1 ++ x :: l2) ++ [SP] = A ++ SP :: x ++ SP :: B.
Proof.
  induction l1 as [| y l1 (A & B & IH)].
  - destruct l2 as [| z l2].
    + exists [], []. reflexivity.
    + exists [], (join [SP] (z :: l2) ++ [SP]). intros x.
      cbn [app]. rewrite join_two. cbn [app].
      now rewrite <- app_assoc.
  - exists (SP :: y ++ A), B. intros x.
    assert (E : join [SP] ((y :: l1) ++ x :: l2)
                = y ++ [SP] ++ join [SP] (l1 ++ x :: l2))
      by (destruct l1; reflexivity).
    rewrite E. cbn [app]. rewrite <- !app_assoc. cbn [app].
    f_equal. f_equal. apply IH.
Qed.

Lemma render_fragment_fact l1 x l2 :
  render (l1 ++ x :: l2) = render (l1 ++ render [x] :: l2).
Proof.
  rewrite (render_joined (l1 ++ x :: l2)).
  rewrite (render_joined (l1 ++ render [x] :: l2)).
  rewrite (render_padded (join [SP] (l1 ++ x :: l2))).
  rewrite (render_padded (join [SP] (l1 ++ render [x] :: l2))).
  destruct (join_padded l1 l2) as (A & B & E).
  rewrite !E. apply render_in_spaces.
Qed.

Lemma join_app sep (l1 l2 : list jsstr) :
  l1 <> [] -> l2 <> [] ->
  join sep (l1 ++ l2) = join sep l1 ++ sep ++ join sep l2.
Proof.
  intros H1 H2. induction l1 as [| y l1 IH]; [now destruct H1 |].
  destruct l1 as [| y' l1].
  - destruct l2 as [| z l2]; [now destruct H2 | reflexivity].
  - change ((y :: y' :: l1) ++ l2) with (y :: y' :: (l1 ++ l2)).
    rewrite !join_two.
    change (y' :: l1 ++ l2) with ((y' :: l1) ++ l2).
    rewrite IH by discriminate. now rewrite <- !app_assoc.
Qed.

Lemma render_append_fact l1 l2 :
  render (l1 ++ l2) = render [render l1; render l2].
Proof.
  destruct l1 as [| y l1].
  - cbn [app]. rewrite (render_joined [render []; render l2]).
    change (render []) with (@nil N). cbn [join app].
    rewrite render_leading_space.
    symmetry. apply render_clean_text, render_is_clean.
  - destruct l2 as [| z l2].
    + rewrite app_nil_r. rewrite (render_joined [render (y :: l1); render []]).
      change (render []) with (@nil N). cbn [join].
      rewrite render_trailing_space.
      symmetry. apply render_clean_text, render_is_clean.
    + rewrite (render_joined ((y :: l1) ++ z :: l2)).
      rewrite join_app by discriminate.
      change (render [join [SP] (y :: l1) ++ [SP] ++ join [SP] (z :: l2)])
        with (render ([] ++ join [SP] (y :: l1) :: [join [SP] (z :: l2)])).
      rewrite render_fragment_fact. cbn [app].
      change (render [render [join [SP] (y :: l1)]; join [SP] (z :: l2)])
        with (render ([render [join [SP] (y :: l1)]]
                        ++ join [SP] (z :: l2) :: [])).
      rewrite render_fragment_fact. reflexivity.
Qed.

End RenderContext.

(** X17.  Rendering is compositional.  A fragment may be replaced by its
    own rendering, wherever it stands among the fragments, without changing
    the text; and the text of two lists of fragments put together is the
    text of the two renderings as fragments.  So a query assembled from
    parts built and rendered by builders of their own reads the same as the
    query built in one go. *)
Theorem render_compositional (l1 l2 : list jsstr) (x : jsstr) :
  QueryBuilder.render (l1 ++ x :: l2)
  = QueryBuilder.render (l1 ++ QueryBuilder.render [x] :: l2)
  /\ QueryBuilder.render (l1 ++ l2)
     = QueryBuilder.render [QueryBuilder.render l1; QueryBuilder.render l2].
Proof.
  split; [apply render_fragment_fact | apply render_append_fact].
Qed.

(* ================================================================== *)
(** ** toNamedProps and toSets *)
(* ================================================================== *)

Section SetsFacts.

Lemma forEach_push (f : jsstr -> jsstr) keys ret :
  forEach (fun k => modify (fun ret : list jsstr => ret ++ [f k])) keys ret
  = (Normal tt, ret ++ map f keys).
Proof.
  revert ret. induction keys as [| k keys IH]; intros ret.
  - simpl. now rewrite app_nil_r.
  - simpl. unfold bind, modify at 1. rewrite IH. now rewrite <- app_assoc.
Qed.

Lemma join_cons_all sep x (l : list jsstr) :
  join sep (x :: l) = x ++ concat (map (fun y => sep ++ y) l).
Proof.
  revert x. induction l as [| y l IH]; intros x.
  - simpl. now rewrite app_nil_r.
  - rewrite join_two, IH. simpl. now rewrite <- app_assoc.
Qed.

Lemma toNamedProps_pairs name obj :
  Neo4jClass.toNamedProps name obj
  = join (lit ", ") (map (named_pair name) (Object_keys obj)).
Proof.
  unfold Neo4jClass.toNamedProps.
  rewrite (forEach_push (named_pair name)). reflexivity.
Qed.

(** The text of [toSets]: a line feed, then for each key a line feed and
    the indented clause. *)
Lemma toSets_lines v objName obj :
  Neo4jClass.toSets v objName obj
  = LF :: concat (map (fun k => [LF; SP; SP] ++ set_clause v objName k)
                    (Object_keys obj)).
Proof.
  unfold Neo4jClass.toSets, bind, modify at 1.
  rewrite (forEach_push (fun k => lit "  SET " ++ v ++ lit "." ++ k
                                    ++ lit " = {" ++ objName ++ lit "}." ++ k)).
  cbn [app]. rewrite join_cons_all. cbn [app]. f_equal.
  rewrite map_map. reflexivity.
Qed.

Lemma no_ws_adjacent w : no_ws w = true -> adjacent_ws w = false.
Proof.
  induction w as [| c w IH]; [reflexivity |].
  unfold no_ws. simpl. intros H. apply andb_true_iff in H as [Hc Hw].
  apply negb_true_iff in Hc. rewrite Hc. simpl. now apply IH.
Qed.

Lemma no_ws_starts w : no_ws w = true -> starts_with_ws w = false.
Proof.
  destruct w as [| c w]; [reflexivity |].
  unfold no_ws. simpl. intros H. apply andb_true_iff in H as [Hc _].
  now apply negb_true_iff.
Qed.

Lemma no_ws_breaks w :
  no_ws w = true -> forallb (fun c => negb (is_break c)) w = true.
Proof.
  induction w as [| c w IH]; [reflexivity |].
  unfold no_ws. simpl. intros H. apply andb_true_iff in H as [Hc Hw].
  rewrite (IH Hw), andb_true_r.
  destruct (is_break c) eqn:Hb; [| reflexivity].
  apply is_break_ws in Hb. apply negb_true_iff in Hc. congruence.
Qed.

Lemma no_ws_app a b : no_ws (a ++ b) = no_ws a && no_ws b.
Proof. apply forallb_app. Qed.

(** A word is clean. *)
Lemma clean_word w : no_ws w = true -> clean w = true.
Proof.
  intros H. unfold clean.
  rewrite (no_ws_adjacent _ H), (no_ws_starts _ H), (no_ws_breaks _ H).
  unfold ends_with_ws. rewrite no_ws_starts; [reflexivity |].
  now apply forallb_rev.
Qed.

Lemma adjacent_ws_after a t :
  a <> [] -> adjacent_ws a = false -> ends_with_ws a = false ->
  adjacent_ws (a ++ t) = adjacent_ws t.
Proof.
  induction a as [| c a IH]; intros Hn Ha He; [now destruct Hn |].
  destruct a as [| c' a].
  - simpl. unfold ends_with_ws in He. simpl in He. now rewrite He.
  - simpl in Ha. apply orb_false_iff in Ha as [H1 H2].
    change ((c :: c' :: a) ++ t) with (c :: (c' :: a) ++ t).
    cbn [adjacent_ws]. cbn [app starts_with_ws].
    rewrite H1. cbn [orb].
    apply IH; [discriminate | exact H2 |].
    change (c :: c' :: a) with ([c] ++ c' :: a) in He.
    now rewrite ends_with_ws_app in He by discriminate.
Qed.

(** Two clean texts with one space between them make a clean text. *)
Lemma clean_spaced a b :
  a <> [] -> b <> [] -> clean a = true -> clean b = true ->
  clean (a ++ SP :: b) = true.
Proof.
  intros Ha Hb Ca Cb.
  apply clean_parts in Ca as (A1 & A2 & A3 & A4).
  apply clean_parts in Cb as (B1 & B2 & B3 & B4).
  unfold clean.
  rewrite adjacent_ws_after by assumption.
  cbn [adjacent_ws]. rewrite B1, B2.
  change (SP :: b) with ([SP] ++ b). rewrite app_assoc.
  rewrite ends_with_ws_app by exact Hb. rewrite B3.
  rewrite <- app_assoc, !forallb_app, A4, B4.
  destruct a; [now destruct Ha |]. cbn [app starts_with_ws] in *.
  rewrite A2. reflexivity.
Qed.

Lemma set_clause_clean v objName k :
  no_ws v = true -> no_ws objName = true -> no_ws k = true ->
  clean (set_clause v objName k) = true /\ set_clause v objName k <> [].
Proof.
  intros Hv Ho Hk. split; [| discriminate].
  assert (E : set_clause v objName k
              = lit "SET" ++ SP :: (v ++ lit "." ++ k)
                  ++ SP :: lit "=" ++ SP :: (lit "{" ++ objName ++ lit "}." ++ k)).
  { unfold set_clause.
    change (lit "SET ") with (lit "SET" ++ [SP]).
    change (lit " = {") with ([SP] ++ lit "=" ++ [SP] ++ lit "{").
    now rewrite <- !app_assoc. }
  rewrite E.
  apply clean_spaced; [discriminate | now destruct v | now apply clean_word |].
  apply clean_spaced.
  - destruct v; discriminate.
  - discriminate.
  - apply clean_word. rewrite !no_ws_app, Hv, Hk. reflexivity.
  - apply clean_spaced; [discriminate | discriminate | now apply clean_word |].
    apply clean_word. rewrite !no_ws_app, Ho, Hk. reflexivity.
Qed.

Lemma clauses_clean v objName keys :
  no_ws v = true -> no_ws objName = true ->
  forallb no_ws keys = true -> keys <> [] ->
  clean (join [SP] (map (set_clause v objName) keys)) = true
  /\ join [SP] (map (set_clause v objName) keys) <> [].
Proof.
  intros Hv Ho. induction keys as [| k keys IH]; intros Hk Hn;
    [now destruct Hn |].
  cbn [forallb] in Hk. apply andb_true_iff in Hk as [Hk Hks].
  destruct (@set_clause_clean v objName k Hv Ho Hk) as [C N0].
  destruct keys as [| k' keys]; [now split |].
  cbn [map]. rewrite join_two.
  destruct (IH Hks ltac:(discriminate)) as [C' N'].
  split.
  - now apply clean_spaced.
  - destruct (set_clause v objName k); [now destruct N0 | discriminate].
Qed.

(** The indentation and the line feeds of [toSets] count as spaces. *)
Lemma scan_set_lines v objName keys r a :
  scan r (a ++ concat (map (fun k => [LF; SP; SP] ++ set_clause v objName k)
                         keys))
  = scan r (a ++ concat (map (fun k => SP :: set_clause v objName k) keys)).
Proof.
  revert a. induction keys as [| k keys IH]; intros a; [reflexivity |].
  cbn [map concat]. rewrite <- !app_assoc.
  rewrite (@scan_run_is_space r a [LF; SP; SP]) by (try reflexivity; simpl; lia).
  change (a ++ SP :: set_clause v objName k ++ ?t)
    with (a ++ (SP :: set_clause v objName k) ++ t).
  rewrite !app_assoc. apply IH.
Qed.

End SetsFacts.

Lemma toSets_render_fact v objName obj :
  no_ws v = true -> no_ws objName = true ->
  forallb no_ws (Object_keys obj) = true ->
  QueryBuilder.render [Neo4jClass.toSets v objName obj]
  = join [SP] (map (set_clause v objName) (Object_keys obj)).
Proof.
  intros Hv Ho Hk. rewrite toSets_lines.
  destruct (Object_keys obj) as [| k keys] eqn:E.
  - reflexivity.
  - assert (R : QueryBuilder.render
                  [LF :: concat (map (fun k => [LF; SP; SP]
                                               ++ set_clause v objName k)
                                   (k :: keys))]
                = QueryBuilder.render
                    [join [SP] (map (set_clause v objName) (k :: keys))]).
    { set (g := fun k => SP :: set_clause v objName k).
      assert (S1 : scan NoRun
                     ([LF] ++ concat (map (fun k => [LF; SP; SP]
                                                      ++ set_clause v objName k)
                                        (k :: keys)))
                   = scan NoRun ([LF] ++ concat (map g (k :: keys))))
        by apply scan_set_lines.
      assert (S2 : scan NoRun
                     ([] ++ [LF; SP]
                         ++ set_clause v objName k ++ concat (map g keys))
                   = scan NoRun
                       ([] ++ SP :: set_clause v objName k
                           ++ concat (map g keys)))
        by (apply scan_run_is_space; [reflexivity | simpl; lia]).
      assert (J : join [SP] (map (set_clause v objName) (k :: keys))
                  = set_clause v objName k ++ concat (map g keys))
        by (cbn [map]; rewrite join_cons_all, map_map; reflexivity).
      rewrite J, <- (render_leading_space (set_clause v objName k ++ _)).
      rewrite !render_scan. cbn [join]. f_equal. f_equal.
      transitivity (scan NoRun ([LF] ++ concat (map g (k :: keys))));
        [exact S1 | exact S2]. }
    etransitivity; [exact R |]. apply render_clean_text.
    apply clauses_clean; auto. discriminate.
Qed.

(** X18.  The text of [toSets], for names and keys without whitespace,
    renders to the [SET] clauses separated by single spaces: the leading
    line feed, the line feeds between the lines and the indentation are
    gone.  For an object without keys the text is one line feed and renders
    to nothing.  The same holds wherever the text stands among the
    fragments of a builder. *)
Theorem toSets_renders (v objName : jsstr) (obj : list (jsstr * value))
        (l1 l2 : list jsstr) :
  no_ws v = true ->
  no_ws objName = true ->
  forallb no_ws (Object_keys obj) = true ->
  QueryBuilder.render [Neo4jClass.toSets v objName obj]
  = join [SP] (map (fun k => lit "SET " ++ v ++ lit "." ++ k ++ lit " = {"
                               ++ objName ++ lit "}." ++ k)
                 (Object_keys obj))
  /\ QueryBuilder.render (l1 ++ Neo4jClass.toSets v objName obj :: l2)
     = QueryBuilder.render
         (l1 ++ join [SP] (map (fun k => lit "SET " ++ v ++ lit "." ++ k
                                           ++ lit " = {" ++ objName
                                           ++ lit "}." ++ k)
                             (Object_keys obj)) :: l2)
  /\ (Object_keys obj = [] -> Neo4jClass.toSets v objName obj = [LF]).
Proof.
  intros Hv Ho Hk.
  pose proof (@toSets_render_fact v objName obj Hv Ho Hk) as R.
  unfold set_clause in R at 1.
  split; [exact R |]. split.
  - rewrite render_fragment_fact. now rewrite R.
  - intros E. rewrite toSets_lines, E. reflexivity.
Qed.

Lemma toSets_renders_witness :
  no_ws (lit "e") = true
  /\ no_ws (lit "event") = true
  /\ forallb no_ws (Object_keys [(lit "eid", VNumber 7);
                                 (lit "name", VString (lit "launch"))])
     = true
  /\ QueryBuilder.render
       [lit "MATCH (e:Event)";
        Neo4jClass.toSets (lit "e") (lit "event")
          [(lit "eid", VNumber 7); (lit "name", VString (lit "launch"))];
        lit "RETURN e"]
     = lit "MATCH (e:Event) SET e.eid = {event}.eid SET e.name = {event}.name RETURN e".
Proof.
  split; [reflexivity |]. split; [reflexivity |]. split; [reflexivity |].
  etransitivity;
    [exact (proj1 (proj2 (@toSets_renders (lit "e") (lit "event")
                            [(lit "eid", VNumber 7);
                             (lit "name", VString (lit "launch"))]
                            [lit "MATCH (e:Event)"] [lit "RETURN e"]
                            eq_refl eq_refl eq_refl)))
    | reflexivity].
Defined.

(** X19.  [toNamedProps] writes one pair [k:{name}.k] for each key, in the
    order of the keys, joined by [", "].  It looks at the keys only: two
    objects with the same keys give the same text whatever their values
    are, arrays and nested objects included, where [toProps] throws. *)
Theorem toNamedProps_keys_only (name : jsstr) (obj obj' : list (jsstr * value)) :
  Neo4jClass.toNamedProps name obj
  = join (lit ", ")
      (map (fun k => k ++ lit ":{" ++ name ++ lit "}." ++ k) (Object_keys obj))
  /\ (Object_keys obj = Object_keys obj' ->
      Neo4jClass.toNamedProps name obj = Neo4jClass.toNamedProps name obj').
Proof.
  split.
  - apply toNamedProps_pairs.
  - intros E. now rewrite !toNamedProps_pairs, E.
Qed.

Lemma toNamedProps_keys_only_witness :
  Object_keys [(lit "uid", VString (lit "134")); (lit "tags", VArray [])]
  = Object_keys [(lit "uid", VNull); (lit "tags", VNumber 1)]
  /\ Neo4jClass.toNamedProps (lit "user")
       [(lit "uid", VString (lit "134")); (lit "tags", VArray [])]
     = Neo4jClass.toNamedProps (lit "user")
         [(lit "uid", VNull); (lit "tags", VNumber 1)]
  /\ Neo4jClass.toNamedProps (lit "user")
       [(lit "uid", VString (lit "134")); (lit "tags", VArray [])]
     = lit "uid:{user}.uid, tags:{user}.tags".
Proof.
  split; [reflexivity |]. split.
  - exact (proj2 (@toNamedProps_keys_only (lit "user")
                    [(lit "uid", VString (lit "134")); (lit "tags", VArray [])]
                    [(lit "uid", VNull); (lit "tags", VNumber 1)])
             eq_refl).
  - rewrite (proj1 (@toNamedProps_keys_only (lit "user")
                      [(lit "uid", VString (lit "134"));
                       (lit "tags", VArray [])] [])).
    reflexivity.
Defined.

(** X20.  In [transaction.js] the later requests are the object [options]
    of the first one, changed in place: the DELETE differs from the first
    request in its method only, so it carries the statements as its body
    once more; the commit request differs in its path and in its body,
    which is the empty string.  In [index.js] the DELETE and the commit
    request have no body. *)
Theorem later_requests_reuse_options :
  (forall send t res,
      send (TransactionJs.options (TransactionJs.enter t)) = Normal res ->
      TransactionJs.statusCode res <> 200%Z ->
      TransactionJs.statusCode res <> 201%Z ->
      exists r,
        TransactionJs.requests
          (TransactionJs.trace (snd (TransactionJs.execute send t)))
        = [TransactionJs.options (TransactionJs.enter t); r]
        /\ r = {| TransactionJs.headers :=
                    TransactionJs.headers
                      (TransactionJs.options (TransactionJs.enter t));
                  TransactionJs.req_host := TransactionJs.host t;
                  TransactionJs.req_port := TransactionJs.port t;
                  TransactionJs.path := lit "/db/data/transaction";
                  TransactionJs.method := lit "delete";
                  TransactionJs.body :=
                    Some (body_json
                            (map entry_json (TransactionJs.statements t))) |})
  /\ (forall send t res js,
         send (TransactionJs.options (TransactionJs.enter t)) = Normal res ->
         TransactionJs.statusCode res = 200%Z
         \/ TransactionJs.statusCode res = 201%Z ->
         TransactionJs.payLoad res = Normal js ->
         errors js = [] ->
         exists r,
           TransactionJs.requests
             (TransactionJs.trace (snd (TransactionJs.execute send t)))
           = [TransactionJs.options (TransactionJs.enter t); r]
           /\ r = {| TransactionJs.headers :=
                       TransactionJs.headers
                         (TransactionJs.options (TransactionJs.enter t));
                     TransactionJs.req_host := TransactionJs.host t;
                     TransactionJs.req_port := TransactionJs.port t;
                     TransactionJs.path := commit js;
                     TransactionJs.method := lit "post";
                     TransactionJs.body := Some [] |})
  /\ (forall fetch t,
         Forall (fun r => Index.body r = None)
           (tl (Index.requests (Index.trace (snd (Index.execute fetch t)))))).
Proof.
  split; [| split].
  - intros send t res H H1 H2.
    rewrite (TransactionJsFacts.send_execute_bad_status send t H)
      by now apply TransactionJsFacts.send_status_bad.
    eexists. split; [reflexivity |].
    unfold TransactionJsTerms.delete_request. f_equal.
    apply statements_body_json.
  - intros send t res js H Hs Hj He.
    rewrite (TransactionJsFacts.send_execute_commit send t H
               (TransactionJsFacts.send_status_good Hs) Hj He).
    eexists. split; reflexivity.
  - intros fetch t. rewrite IndexTable.fetch_execute_table.
    destruct (fetch (Index.options (Index.enter t))) as [res | e].
    + destruct (IndexTerms.status_ok (Index.status res)).
      * destruct (Index.json res) as [js | e];
          [destruct (errors js) |]; cbn; repeat constructor.
      * cbn; repeat constructor.
    + cbn; repeat constructor.
Qed.

Lemma later_requests_reuse_options_witness :
  TransactionJsTerms.mock (Normal Sample.server_error') (Normal Sample.ok')
    (TransactionJs.options (TransactionJs.enter Sample.transaction'))
  = Normal Sample.server_error'
  /\ TransactionJs.statusCode Sample.server_error' <> 200%Z
  /\ TransactionJs.statusCode Sample.server_error' <> 201%Z
  /\ (exists r,
         TransactionJs.requests
           (TransactionJs.trace
              (snd (TransactionJs.execute
                      (TransactionJsTerms.mock (Normal Sample.server_error')
                         (Normal Sample.ok'))
                      Sample.transaction')))
         = [TransactionJs.options (TransactionJs.enter Sample.transaction'); r]
         /\ TransactionJs.body r
            = TransactionJs.body
                (TransactionJs.options
                   (TransactionJs.enter Sample.transaction'))
         /\ TransactionJs.method r = lit "delete")
  /\ (exists r,
         TransactionJs.requests
           (TransactionJs.trace
              (snd (TransactionJs.execute
                      (TransactionJsTerms.mock (Normal Sample.created')
                         (Normal Sample.ok'))
                      Sample.transaction')))
         = [TransactionJs.options (TransactionJs.enter Sample.transaction'); r]
         /\ TransactionJs.body r = Some []
         /\ TransactionJs.path r = Sample.commit_url).
Proof.
  assert (A : (500 <> 200)%Z) by discriminate.
  assert (B : (500 <> 201)%Z) by discriminate.
  split; [reflexivity |]. split; [exact A |]. split; [exact B |]. split.
  - destruct (proj1 later_requests_reuse_options
                (TransactionJsTerms.mock (Normal Sample.server_error')
                   (Normal Sample.ok'))
                Sample.transaction' Sample.server_error' eq_refl A B)
      as (r & E & Er).
    exists r. split; [exact E |]. rewrite Er. split; reflexivity.
  - destruct (proj1 (proj2 later_requests_reuse_options)
                (TransactionJsTerms.mock (Normal Sample.created')
                   (Normal Sample.ok'))
                Sample.transaction' Sample.created' Sample.answer
                eq_refl (or_intror eq_refl) eq_refl eq_refl)
      as (r & E & Er).
    exists r. split; [exact E |]. rewrite Er. split; reflexivity.
Defined.

(* ================================================================== *)
(** ** The text of toString, word by word *)
(* ================================================================== *)

Section RenderWords.

Import QueryBuilder.

Let nb : N -> bool := fun c => negb (is_break c).

Lemma is_word_parts w :
  is_word w = true -> w <> [] /\ no_ws w = true.
Proof.
  destruct w; [discriminate |]. intros H. split; [discriminate | exact H].
Qed.

Lemma is_gap_parts g :
  is_gap g = true -> g <> [] /\ forallb is_ws g = true.
Proof.
  destruct g; [discriminate |]. intros H. split; [discriminate | exact H].
Qed.

Lemma scan_word_prefix w s :
  no_ws w = true -> scan NoRun (w ++ s) = w ++ scan NoRun s.
Proof.
  induction w as [| c w IH]; [reflexivity |].
  unfold no_ws. cbn [forallb]. intros H. apply andb_true_iff in H as [Hc Hw].
  apply negb_true_iff in Hc.
  cbn [app]. rewrite scan_word by exact Hc. cbn [flush app].
  f_equal. now apply IH.
Qed.

Lemma scan_gap g s :
  is_gap g = true -> starts_with_ws s = false ->
  scan NoRun (g ++ s)
  = match g with [c] => [c] | _ => [SP] end ++ scan NoRun s.
Proof.
  intros Hg Hs. destruct g as [| c g]; [discriminate |].
  cbn [is_gap forallb] in Hg. apply andb_true_iff in Hg as [Hc Hg].
  cbn [app]. rewrite scan_ws by exact Hc. cbn [after_ws].
  destruct g as [| c' g].
  - cbn [app]. now apply scan_single_word.
  - cbn [forallb] in Hg. apply andb_true_iff in Hg as [Hc' Hg].
    cbn [app]. rewrite scan_ws by exact Hc'. cbn [after_ws].
    rewrite scan_multi_ws by exact Hg. rewrite scan_multi.
    now rewrite drop_ws_word.
Qed.

Lemma filter_gap g :
  is_gap g = true ->
  filter nb (match g with [c] => [c] | _ => [SP] end) = separator g.
Proof.
  destruct g as [| c [| c' g]]; [discriminate | |]; intros _.
  - unfold separator, nb. cbn [filter]. now destruct (is_break c).
  - reflexivity.
Qed.

Lemma scan_all_ws r t :
  run_ok r -> forallb is_ws t = true -> forallb is_ws (scan r t) = true.
Proof.
  revert r. induction t as [| c t IH]; intros r Hr Ht.
  - now apply flush_all_ws.
  - cbn [forallb] in Ht. apply andb_true_iff in Ht as [Hc Ht].
    rewrite scan_ws by exact Hc. apply IH; [now apply after_ws_ok | exact Ht].
Qed.

Lemma scan_lead r lead :
  run_ok r -> forallb is_ws lead = true ->
  exists r', run_ok r' /\ forall s, scan r (lead ++ s) = scan r' s.
Proof.
  revert r. induction lead as [| c lead IH]; intros r Hr Hl.
  - exists r. now split.
  - cbn [forallb] in Hl. apply andb_true_iff in Hl as [Hc Hl].
    destruct (IH (after_ws r c) (@after_ws_ok r c Hc) Hl) as (r' & Hr' & E).
    exists r'. split; [exact Hr' |]. intros s.
    cbn [app]. rewrite scan_ws by exact Hc. apply E.
Qed.

Lemma weave_starts w rest t :
  is_word w = true -> starts_with_ws (weave w rest ++ t) = false.
Proof.
  intros Hw. destruct w as [| c w]; [discriminate |].
  cbn [is_word] in Hw. unfold no_ws in Hw. cbn [forallb] in Hw.
  apply andb_true_iff in Hw as [Hc _]. apply negb_true_iff in Hc.
  destruct rest as [| [g w'] rest]; exact Hc.
Qed.

Lemma weave_nonempty w rest : is_word w = true -> weave w rest <> [].
Proof.
  intros Hw. destruct w as [| c w]; [discriminate |].
  destruct rest as [| [g w'] rest]; discriminate.
Qed.

Lemma weave_ends rest :
  forall w, is_word w = true ->
            forallb (fun p => is_word (snd p)) rest = true ->
            ends_with_ws (weave w rest) = false.
Proof.
  induction rest as [| [g w'] rest IH]; intros w Hw Hr.
  - cbn [weave]. apply is_word_parts in Hw as [_ Hw].
    pose proof (clean_word _ Hw) as C. apply clean_parts in C. tauto.
  - cbn [forallb snd] in Hr. apply andb_true_iff in Hr as [Hw' Hr].
    cbn [weave]. rewrite app_assoc.
    rewrite ends_with_ws_app by now apply weave_nonempty.
    now apply IH.
Qed.

Lemma words_of_separated rest :
  gaps_and_words rest = true ->
  forallb (fun p => is_word (snd p)) (separated rest) = true.
Proof.
  induction rest as [| [g w] rest IH]; [reflexivity |].
  unfold gaps_and_words. cbn [forallb fst snd map separated].
  intros H. apply andb_true_iff in H as [H Hr].
  apply andb_true_iff in H as [_ Hw]. rewrite Hw. now apply IH.
Qed.

Lemma scan_weave rest :
  forall first trail,
    is_word first = true -> gaps_and_words rest = true ->
    forallb is_ws trail = true ->
    exists t,
      forallb is_ws t = true
      /\ filter nb (scan NoRun (weave first rest ++ trail))
         = weave first (separated rest) ++ t.
Proof.
  induction rest as [| [g w] rest IH]; intros first trail Hf Hr Ht.
  - exists (filter nb (scan NoRun trail)). split.
    + apply filter_all_ws. now apply scan_all_ws.
    + cbn [weave separated map].
      apply is_word_parts in Hf as [_ Hf].
      rewrite scan_word_prefix by exact Hf. rewrite filter_app.
      f_equal. apply filter_all. now apply no_ws_breaks.
  - unfold gaps_and_words in Hr. cbn [forallb fst snd] in Hr.
    apply andb_true_iff in Hr as [H Hr]. apply andb_true_iff in H as [Hg Hw].
    destruct (IH w trail Hw Hr Ht) as (t & Ht' & E).
    exists t. split; [exact Ht' |].
    cbn [weave separated map fst snd]. rewrite <- !app_assoc.
    pose proof Hf as Hf'. apply is_word_parts in Hf' as [_ Hf'].
    rewrite scan_word_prefix by exact Hf'.
    rewrite scan_gap by (try exact Hg; now apply weave_starts).
    rewrite !filter_app. rewrite filter_gap by exact Hg. rewrite E.
    f_equal. apply filter_all. now apply no_ws_breaks.
Qed.

(** One fragment: the words are kept, the leading and trailing whitespace
    goes, and each gap is replaced by its separator. *)
Lemma render_weave lead first rest trail :
  forallb is_ws lead = true -> forallb is_ws trail = true ->
  is_word first = true -> gaps_and_words rest = true ->
  render [lead ++ weave first rest ++ trail] = weave first (separated rest).
Proof.
  intros Hl Ht Hf Hr. rewrite render_scan. cbn [join].
  destruct (@scan_lead NoRun lead I Hl) as (r & Hr' & E). rewrite E.
  rewrite (@norm_from_any r _ Hr').
  destruct (@scan_weave rest first trail Hf Hr Ht) as (t & Hws & Et).
  unfold nb in Et. rewrite Et.
  rewrite <- (app_nil_l (weave first (separated rest) ++ t)).
  apply trim_unique; [reflexivity | exact Hws | |].
  - rewrite <- (app_nil_r (weave first (separated rest))).
    now apply weave_starts.
  - apply weave_ends; [exact Hf | now apply words_of_separated].
Qed.

(** Every text is whitespace only, or words with gaps between them. *)
Lemma words_and_gaps s :
  forallb is_ws s = true
  \/ exists lead first rest trail,
       forallb is_ws lead = true /\ forallb is_ws trail = true
       /\ is_word first = true /\ gaps_and_words rest = true
       /\ s = lead ++ weave first rest ++ trail.
Proof.
  induction s as [| c s IH]; [now left |].
  destruct (is_ws c) eqn:Hc.
  - destruct IH as [H | (lead & first & rest & trail & Hl & Ht & Hf & Hr & ->)].
    + left. cbn [forallb]. now rewrite Hc.
    + right. exists (c :: lead), first, rest, trail.
      repeat split; try assumption. cbn [forallb]. now rewrite Hc.
  - right.
    destruct IH as [H | (lead & first & rest & trail & Hl & Ht & Hf & Hr & ->)].
    + exists [], [c], [], s. repeat split; try assumption.
      cbn. unfold not_ws. now rewrite Hc.
    + destruct lead as [| d lead].
      * exists [], (c :: first), rest, trail.
        repeat split; try assumption.
        -- apply is_word_parts in Hf as [_ Hf]. cbn [is_word].
           unfold no_ws in *. cbn [forallb]. unfold not_ws at 1.
           now rewrite Hc, Hf.
        -- destruct rest as [| [g w] rest]; reflexivity.
      * exists [], [c], ((d :: lead, first) :: rest), trail.
        repeat split; try assumption.
        -- cbn. unfold not_ws. now rewrite Hc.
        -- unfold gaps_and_words in *. cbn [forallb fst snd].
           rewrite Hr, Hf, !andb_true_r. cbn [is_gap]. exact Hl.
        -- cbn [weave app]. now rewrite <- !app_assoc.
Qed.

(** The fragments are rendered one by one and put together with one space
    between them; a fragment that renders to nothing leaves no space. *)
Lemma render_cons x l : render (x :: l) = glue (render [x]) (render l).
Proof.
  change (x :: l) with ([x] ++ l). rewrite render_append_fact.
  pose proof (render_is_clean [x]) as Ca.
  pose proof (render_is_clean l) as Cb.
  destruct (render [x]) as [| a0 a] eqn:Ea;
    destruct (render l) as [| b0 b] eqn:Eb.
  - reflexivity.
  - cbn [glue]. rewrite render_join. cbn [app].
    rewrite render_leading_space. now apply render_clean_text.
  - cbn [glue]. rewrite render_join.
    rewrite render_trailing_space. now apply render_clean_text.
  - cbn [glue]. rewrite render_join.
    apply render_clean_text. apply clean_spaced; try discriminate; assumption.
Qed.

End RenderWords.

(** C7.  [toString] returns [render] of the accumulated fragments, which
    is this text.  The fragments are put together with one space between
    them: [render (x :: l)] is [render [x]], one space, [render l], the
    space being left out when either side is empty; and two fragments read
    as the one fragment that has a space between them.  A
    fragment is whitespace only, and renders to nothing, or it is a sequence
    of words with gaps of whitespace between and around them.  Then the
    words are kept in order; the whitespace before the first and behind the
    last word goes; a gap of two or more whitespace code units becomes one
    space; a gap of one code unit goes when that is a carriage return, a
    line feed or a tab, and stays as it is otherwise, so that a lone space
    stays a space.  A run of two or more whitespace code units anywhere
    counts as a single space.  The text has no carriage return, line feed or
    tab left, no two neighbouring whitespace code units, and no whitespace
    at either end; everything that is not whitespace is kept, in order.  On
    [["MATCH (u)", "  RETURN   u\n"]] the text is ["MATCH (u) RETURN u"]. *)
Theorem toString_renders (this : QueryBuilder.t) (l1 l2 : list jsstr)
        (a w b : jsstr) :
  let text := QueryBuilder.render (QueryBuilder.q this) in
  QueryBuilder.toString this = (Normal text, this)
  /\ QueryBuilder.render [] = []
  /\ (forall x l,
        QueryBuilder.render (x :: l)
        = glue (QueryBuilder.render [x]) (QueryBuilder.render l))
  /\ (forall x y l,
        QueryBuilder.render (x :: y :: l)
        = QueryBuilder.render ((x ++ SP :: y) :: l))
  /\ (forall lead first rest trail,
        forallb is_ws lead = true -> forallb is_ws trail = true ->
        is_word first = true -> gaps_and_words rest = true ->
        QueryBuilder.render [lead ++ weave first rest ++ trail]
        = weave first (separated rest))
  /\ (forall s, forallb is_ws s = true -> QueryBuilder.render [s] = [])
  /\ (forall s,
        forallb is_ws s = true
        \/ exists lead first rest trail,
             forallb is_ws lead = true /\ forallb is_ws trail = true
             /\ is_word first = true /\ gaps_and_words rest = true
             /\ s = lead ++ weave first rest ++ trail)
  /\ (forallb is_ws w = true ->
      2 <= length w ->
      QueryBuilder.render (l1 ++ (a ++ w ++ b) :: l2)
      = QueryBuilder.render (l1 ++ (a ++ SP :: b) :: l2))
  /\ forallb (fun c => negb (is_break c)) text = true
  /\ adjacent_ws text = false
  /\ starts_with_ws text = false
  /\ ends_with_ws text = false
  /\ filter not_ws text = filter not_ws (concat (QueryBuilder.q this))
  /\ QueryBuilder.render
       [lit "MATCH (u)"; [SP; SP] ++ lit "RETURN   u" ++ [LF]]
     = lit "MATCH (u) RETURN u".
Proof.
  intros text. subst text.
  split; [reflexivity |].
  split; [reflexivity |].
  split; [exact render_cons |].
  split; [exact render_join |].
  split; [exact render_weave |].
  split; [exact render_all_ws |].
  split; [exact words_and_gaps |].
  split; [now apply render_run_is_space |].
  split; [apply render_no_breaks |].
  split; [apply render_no_adjacent_ws |].
  split; [unfold QueryBuilder.render; apply trim_starts |].
  split; [unfold QueryBuilder.render; apply trim_ends |].
  split; [apply render_keeps_words | reflexivity].
Qed.

Lemma toString_renders_witness :
  forallb is_ws [SP; LF; TAB] = true
  /\ 2 <= length [SP; LF; TAB]
  /\ QueryBuilder.toString Sample.builder
     = (Normal (lit "MATCH (u:User {uid: {params}.uid}) RETURN u"),
        Sample.builder)
  /\ QueryBuilder.render
       [lit "CREATE"; lit "(u)" ++ [SP; LF; TAB] ++ lit "RETURN u"]
     = QueryBuilder.render [lit "CREATE"; lit "(u)" ++ SP :: lit "RETURN u"]
  /\ forallb is_ws [SP; SP] = true
  /\ forallb is_ws [LF] = true
  /\ is_word (lit "MATCH") = true
  /\ gaps_and_words [([SP], lit "(u)"); ([LF; SP; SP], lit "RETURN");
                     ([TAB], lit "u"); ([160%N], lit "LIMIT");
                     ([LF], lit "1")] = true
  /\ QueryBuilder.render
       [[SP; SP]
          ++ weave (lit "MATCH")
               [([SP], lit "(u)"); ([LF; SP; SP], lit "RETURN");
                ([TAB], lit "u"); ([160%N], lit "LIMIT"); ([LF], lit "1")]
          ++ [LF]]
     = lit "MATCH (u) RETURNu" ++ [160%N] ++ lit "LIMIT1"
  /\ QueryBuilder.render [lit "RETURN"; lit "u"] = lit "RETURN u"
  /\ forallb is_ws [SP; LF] = true
  /\ QueryBuilder.render [[SP; LF]] = [].
Proof.
  assert (Hlen : 2 <= length [SP; LF; TAB]) by (simpl; lia).
  split; [reflexivity |]. split; [exact Hlen |].
  pose proof (@toString_renders Sample.builder [lit "CREATE"] []
                (lit "(u)") [SP; LF; TAB] (lit "RETURN u")) as H.
  cbv zeta in H.
  destruct H as (H1 & _ & H3 & _ & H5 & H6 & _ & H8 & _).
  split; [exact H1 |]. split; [exact (H8 eq_refl Hlen) |].
  split; [reflexivity |]. split; [reflexivity |].
  split; [reflexivity |]. split; [reflexivity |].
  split; [| split; [| split]].
  - exact (H5 [SP; SP] (lit "MATCH")
             [([SP], lit "(u)"); ([LF; SP; SP], lit "RETURN");
              ([TAB], lit "u"); ([160%N], lit "LIMIT"); ([LF], lit "1")]
             [LF] eq_refl eq_refl eq_refl eq_refl).
  - exact (H3 (lit "RETURN") [lit "u"]).
  - reflexivity.
  - exact (H6 [SP; LF] eq_refl).
Defined.
